(** * OTA synchronisation subsystem of the hotel channel manager

    A shallow embedding of the channel-manager routes (the OTA router that
    starts at line 899 of [src/routes/auth.js]) and of the tables of
    [src/database/schema.sql] they read and write, followed by the
    properties of the synchronisation subsystem.

    Conventions of the embedding.
    - A table is the list of its rows, oldest row first.
    - DATE and TIMESTAMP values are integers (days, resp. instants);
      DECIMAL(10,2) values are integers, in hundredths.
    - A nullable column is an [option]; so is a field of a request body,
      [None] standing for a missing or null field.  Where the code tells
      a missing field from a null one (the default of [sync_frequency] in
      POST /configurations) the field is a [Js.Field].
    - A JavaScript exception is the [Thrown] outcome of the handler monad,
      carrying [error.message]; the store keeps the effects that happened
      before the throw.
    - Everything a request handler cannot control (the clock, the answers
      of the partner endpoints, statements the database server fails to
      run, the contents of the room and booking tables at the moment a
      query reads them) is a field of the environment [Env] of the
      request.
    - The tasks POST /sync-all starts together are run one after the
      other, in the order of the configurations.  Each task writes its own
      log entry and its own configuration row only.
    - The routes are modelled from the point where the middleware
      (authenticateToken, requireManager) has let the request through;
      the identifier of a configuration in a path or a query string is
      already a number.  The parameters the code reads twice, once with
      [parseInt] and once by another conversion ([limit] and [page] of
      GET /sync-logs, the identifier of PUT /users/:id/status), are a
      [Js.Param], which keeps the readings apart.
    - The lengths of VARCHAR and TEXT columns are not modelled, nor are
      the ranges of the integer columns and the rounding of JavaScript
      numbers beyond 2^53: a number is an integer of any size. *)

From Stdlib Require Import ZArith List String Ascii Bool Lia DecimalString.
Import ListNotations.

Open Scope Z_scope.

(** ** JavaScript string helpers *)

Module Js.

(** A string is the sequence of the bytes of its text in UTF-8. *)

(** The lower-case form of an ASCII character. *)
Definition lower_ascii (c : ascii) : ascii :=
  let n := nat_of_ascii c in
  if (65 <=? n)%nat && (n <=? 90)%nat then ascii_of_nat (n + 32) else c.

Definition is_byte (n : nat) (c : ascii) : bool := (nat_of_ascii c =? n)%nat.

(** U+212A KELVIN SIGN, U+0130 LATIN CAPITAL LETTER I WITH DOT ABOVE and
    U+0307 COMBINING DOT ABOVE. *)
Definition kelvin_sign : string :=
  String (ascii_of_nat 226)
    (String (ascii_of_nat 132) (String (ascii_of_nat 170) EmptyString)).

Definition dotted_capital_i : string :=
  String (ascii_of_nat 196) (String (ascii_of_nat 176) EmptyString).

Definition combining_dot : string :=
  String (ascii_of_nat 204) (String (ascii_of_nat 135) EmptyString).

(** [String.prototype.toLowerCase].  The letters A-Z are lowered, and so
    are the two characters outside ASCII whose lower-case form has an
    ASCII letter in it: the Kelvin sign, which becomes k, and the
    capital I with a dot above, which becomes i followed by the combining
    dot.  The other cased characters outside ASCII are left as they are;
    their lower-case forms are outside ASCII too, so the result is a
    given string of ASCII characters exactly when the lower-cased text
    is. *)
Fixpoint toLowerCase (s : string) : string :=
  match s with
  | EmptyString => EmptyString
  | String c1 t1 =>
      match t1 with
      | EmptyString => String (lower_ascii c1) EmptyString
      | String c2 t2 =>
          if is_byte 196 c1 && is_byte 176 c2 then
            String "i" (combining_dot ++ toLowerCase t2)
          else
            match t2 with
            | EmptyString => String (lower_ascii c1) (toLowerCase t1)
            | String c3 t3 =>
                if is_byte 226 c1 && is_byte 132 c2 && is_byte 170 c3
                then String "k" (toLowerCase t3)
                else String (lower_ascii c1) (toLowerCase t1)
            end
      end
  end.

(** Template-literal interpolation of a nullable column value. *)
Definition interp (o : option string) : string :=
  match o with
  | Some s => s
  | None => "null"%string
  end.

(** A number converted to a string ([toString], template literals). *)
Definition number (z : Z) : string := NilZero.string_of_int (Z.to_int z).

(** [!value] on a string that may be missing. *)
Definition falsy (o : option string) : bool :=
  match o with
  | None => true
  | Some s => String.eqb s EmptyString
  end.

(** [haystack.includes(needle)]. *)
Fixpoint includes (needle haystack : string) : bool :=
  String.prefix needle haystack ||
  match haystack with
  | EmptyString => false
  | String _ t => includes needle t
  end.

(** A field of a request body that a destructuring default may fill:
    the default applies to a missing field, not to [null]. *)
Inductive Field (A : Type) : Type :=
  | Undefined
  | Null
  | Value (a : A).
Arguments Undefined {A}.
Arguments Null {A}.
Arguments Value {A} a.

(** A field as a statement parameter: NULL unless it has a value. *)
Definition nullable {A} (f : Field A) : option A :=
  match f with
  | Value a => Some a
  | _ => None
  end.

(** A parameter that arrives as text and that the code uses as a
    number.  [Decimal n] is the decimal numeral of the integer [n],
    which every conversion reads as [n].  [Irregular] is any other text
    (2.5, 1e1, .1e1, an empty string, abc), given by its two readings:
    [parsed] is what [parseInt] makes of it, [None] being NaN, and
    [compared] is the integer the database takes it to be equal to when
    it compares it with an integer column, [None] when it is equal to
    none.  For 1e1 the readings are 1 and 10; for .1e1 they are NaN
    and 1. *)
Inductive Param : Type :=
  | Decimal (n : Z)
  | Irregular (parsed compared : option Z).

(** [parseInt(p)], [None] being NaN. *)
Definition parseInt (p : Param) : option Z :=
  match p with
  | Decimal n => Some n
  | Irregular parsed _ => parsed
  end.

(** The integer [p] is equal to in [column = ?]. *)
Definition compared (p : Param) : option Z :=
  match p with
  | Decimal n => Some n
  | Irregular _ c => c
  end.

End Js.

(** ** Rooms, bookings and the availability query *)

Inductive BookingStatus : Type :=
  | pending | confirmed | cancelled | completed | no_show.

Record Room : Type := {
  room_id : Z;
  room_number : string;
  room_name : string;
  room_description : option string;
  price_per_night : Z;          (* DECIMAL(10,2), in hundredths *)
  max_occupancy : Z;
  room_is_active : bool
}.

Record Booking : Type := {
  booking_id : Z;
  booking_room_id : option Z;
  booking_status : BookingStatus;
  check_in_date : Z;
  check_out_date : Z
}.

(** The room and booking tables as one query sees them, with the value
    CURDATE() has for that query. *)
Record Inventory : Type := {
  inv_rooms : list Room;
  inv_bookings : list Booking;
  inv_today : Z
}.

(** A row of the availability query: [r.*] and the computed column. *)
Record RoomRow : Type := {
  row_room : Room;
  is_available : bool
}.

(** [b.booking_status IN ('pending', 'confirmed')] *)
Definition status_blocks (s : BookingStatus) : bool :=
  match s with
  | pending | confirmed => true
  | _ => false
  end.

(** The ON condition of the LEFT JOIN of performOTASync (lines 1193-1196).
    A NULL [room_id] compares equal to nothing. *)
Definition join_on (today : Z) (r : Room) (b : Booking) : bool :=
  match booking_room_id b with
  | Some rid => room_id r =? rid
  | None => false
  end
  && status_blocks (booking_status b)
  && (check_in_date b <=? today)
  && (check_out_date b >? today).

(** The query of lines 1189-1199: the active rooms, each grouped with the
    bookings joined to it, [COUNT(b.id) = 0] deciding [is_available].
    [rooms.id] is the primary key, so GROUP BY r.id yields one row per
    active room. *)
Definition select_rooms (inv : Inventory) : list RoomRow :=
  map (fun r =>
         {| row_room := r;
            is_available :=
              Z.of_nat (List.length (filter (join_on (inv_today inv) r)
                                       (inv_bookings inv))) =? 0 |})
      (filter room_is_active (inv_rooms inv)).


(** ** The configuration and log tables *)

(** [ota_configurations] (schema.sql lines 132-145). *)
Record Config : Type := {
  id : Z;
  ota_name : string;
  api_key : option string;
  api_username : option string;
  api_password : option string;
  endpoint_url : option string;
  hotel_id : option string;
  is_active : option bool;
  last_sync_at : option Z;
  sync_frequency : option Z;
  created_at : Z;
  updated_at : Z
}.

Module SyncType.
Inductive t : Type := availability | rates | inventory | bookings.
End SyncType.

Module LogStatus.
Inductive t : Type := success | failed | partial.
End LogStatus.

(** [ota_sync_logs] (schema.sql lines 148-158). *)
Record SyncLog : Type := {
  log_id : Z;
  ota_configuration_id : option Z;
  sync_type : SyncType.t;
  log_status : LogStatus.t;
  message : option string;
  sync_started_at : Z;
  sync_completed_at : option Z;
  records_processed : option Z
}.

(** The collation of the VARCHAR columns decides what [=] means on
    strings.  The schema names none, so the server default applies; the
    README asks for MySQL 8.0 or higher, whose default
    (utf8mb4_0900_ai_ci) ignores letter case and accents and does not
    pad.  [CaseInsensitive] stands for it and [Binary] for a
    case-sensitive collation that does not pad either, such as
    utf8mb4_0900_bin.

    [sql_eq CaseInsensitive] is the equality of the default collation
    on plain names, those made of ASCII letters, digits, full stops and
    underscores ([plain_name] below): two of them are equal when they
    differ in letter case only.  On other names the collation equates
    more than [sql_eq] does (it ignores accents, for one); what [sql_eq]
    equates the collation equates too.  So a name [sql_eq] finds in the
    table is found by the server, and a name it does not find is known
    to be absent when it and the stored names are plain. *)
Inductive Collation : Type := Binary | CaseInsensitive.

Definition default_collation : Collation := CaseInsensitive.

Definition sql_eq (c : Collation) (a b : string) : bool :=
  match c with
  | Binary => String.eqb a b
  | CaseInsensitive => String.eqb (Js.toLowerCase a) (Js.toLowerCase b)
  end.

Definition plain_char (c : ascii) : bool :=
  let n := nat_of_ascii c in
  ((65 <=? n) && (n <=? 90) || (97 <=? n) && (n <=? 122) ||
   (48 <=? n) && (n <=? 57) || (n =? 46) || (n =? 95))%nat.

Fixpoint plain_name (s : string) : bool :=
  match s with
  | EmptyString => true
  | String c t => plain_char c && plain_name t
  end.

Record Store : Type := {
  configurations : list Config;
  sync_logs : list SyncLog;
  next_config_id : Z;           (* AUTO_INCREMENT counters *)
  next_log_id : Z;
  collation : Collation
}.

Definition with_configurations (s : Store) (l : list Config) : Store :=
  {| configurations := l;
     sync_logs := sync_logs s;
     next_config_id := next_config_id s;
     next_log_id := next_log_id s;
     collation := collation s |}.

(** What a statement gives back: its rows or insert id, or the error the
    server raises. *)
Inductive SqlResult (A : Type) : Type :=
  | SqlOk (a : A)
  | SqlError (msg : string).
Arguments SqlOk {A} a.
Arguments SqlError {A} msg.

(** [column = TRUE] on a nullable BOOLEAN. *)
Definition is_true (b : option bool) : bool :=
  match b with
  | Some true => true
  | _ => false
  end.

Definition has_id (i : Z) (c : Config) : bool := id c =? i.

Definition refers_to (i : Z) (l : SyncLog) : bool :=
  match ota_configuration_id l with
  | Some j => j =? i
  | None => false
  end.

Module Sql.

(** SELECT id FROM ota_configurations WHERE ota_name = ? *)
Definition select_ids_by_name (s : Store) (name : string) : list Z :=
  map id (filter (fun c => sql_eq (collation s) (ota_name c) name)
                 (configurations s)).

(** SELECT ... FROM ota_configurations WHERE id = ? *)
Definition select_by_id (s : Store) (i : Z) : list Config :=
  filter (has_id i) (configurations s).

(** SELECT * FROM ota_configurations WHERE id = ? AND is_active = TRUE *)
Definition select_active_by_id (s : Store) (i : Z) : list Config :=
  filter (fun c => has_id i c && is_true (is_active c)) (configurations s).

(** SELECT * FROM ota_configurations WHERE is_active = TRUE *)
Definition select_active (s : Store) : list Config :=
  filter (fun c => is_true (is_active c)) (configurations s).

(** INSERT INTO ota_configurations (ota_name, api_key, ...) VALUES (...):
    the columns that are not listed take their defaults.  [ota_name] is
    NOT NULL. *)
Definition insert_config (now : Z) (s : Store)
    (name key user pass url hotel : option string) (freq : option Z)
  : SqlResult Z * Store :=
  match name with
  | None => (SqlError "Column 'ota_name' cannot be null", s)
  | Some n =>
      let row := {| id := next_config_id s; ota_name := n;
                    api_key := key; api_username := user;
                    api_password := pass; endpoint_url := url;
                    hotel_id := hotel; is_active := Some true;
                    last_sync_at := None; sync_frequency := freq;
                    created_at := now; updated_at := now |} in
      (SqlOk (next_config_id s),
       {| configurations := configurations s ++ [row];
          sync_logs := sync_logs s;
          next_config_id := next_config_id s + 1;
          next_log_id := next_log_id s;
          collation := collation s |})
  end.

(** UPDATE ota_configurations SET ota_name = ?, ..., is_active = ?,
    updated_at = CURRENT_TIMESTAMP WHERE id = ?  (line 1015).  No
    constraint of the schema looks at the other rows. *)
Definition update_config (now : Z) (s : Store) (i : Z)
    (name key user pass url hotel : option string) (freq : option Z)
    (active : option bool)
  : SqlResult unit * Store :=
  match name with
  | None => (SqlError "Column 'ota_name' cannot be null", s)
  | Some n =>
      let set c :=
        if has_id i c then
          {| id := id c; ota_name := n; api_key := key;
             api_username := user; api_password := pass;
             endpoint_url := url; hotel_id := hotel; is_active := active;
             last_sync_at := last_sync_at c; sync_frequency := freq;
             created_at := created_at c; updated_at := now |}
        else c in
      (SqlOk tt, with_configurations s (map set (configurations s)))
  end.

(** DELETE FROM ota_configurations WHERE id = ?  (line 1039).  The
    foreign key of ota_sync_logs has no ON DELETE clause, so the server
    refuses to delete a row that a log entry references. *)
Definition delete_config (s : Store) (i : Z) : SqlResult unit * Store :=
  if existsb (refers_to i) (sync_logs s) then
    (SqlError
       "Cannot delete or update a parent row: a foreign key constraint fails",
     s)
  else
    (SqlOk tt,
     with_configurations s
       (filter (fun c => negb (has_id i c)) (configurations s))).

(** UPDATE ota_configurations SET last_sync_at = NOW() WHERE id = ?
    (line 1229). *)
Definition touch_last_sync (now : Z) (s : Store) (i : Z)
  : SqlResult unit * Store :=
  let set c :=
    if has_id i c then
      {| id := id c; ota_name := ota_name c; api_key := api_key c;
         api_username := api_username c; api_password := api_password c;
         endpoint_url := endpoint_url c; hotel_id := hotel_id c;
         is_active := is_active c; last_sync_at := Some now;
         sync_frequency := sync_frequency c;
         created_at := created_at c; updated_at := now |}
    else c in
  (SqlOk tt, with_configurations s (map set (configurations s))).

(** INSERT INTO ota_sync_logs (ota_configuration_id, sync_type, status,
    message, records_processed, sync_completed_at)
    VALUES (?, ?, ?, ?, ?, NOW())  (line 913).  The foreign key asks
    for an existing configuration. *)
Definition insert_log (now : Z) (s : Store) (cfg : option Z)
    (ty : SyncType.t) (st : LogStatus.t) (msg : option string)
    (records : option Z)
  : SqlResult Z * Store :=
  let known :=
    match cfg with
    | Some i => existsb (has_id i) (configurations s)
    | None => true
    end in
  if known then
    let row := {| log_id := next_log_id s; ota_configuration_id := cfg;
                  sync_type := ty; log_status := st; message := msg;
                  sync_started_at := now; sync_completed_at := Some now;
                  records_processed := records |} in
    (SqlOk (next_log_id s),
     {| configurations := configurations s;
        sync_logs := sync_logs s ++ [row];
        next_config_id := next_config_id s;
        next_log_id := next_log_id s + 1;
        collation := collation s |})
  else
    (SqlError
       "Cannot add or update a child row: a foreign key constraint fails",
     s).

(** ORDER BY key DESC, with one choice of the order of the rows of
    equal key. *)
Fixpoint insert_desc {A} (key : A -> Z) (x : A) (l : list A) : list A :=
  match l with
  | [] => [x]
  | y :: t => if key y <? key x then x :: l
              else y :: insert_desc key x t
  end.

Definition order_by_desc {A} (key : A -> Z) (l : list A) : list A :=
  fold_right (insert_desc key) [] l.

(** A log row joined with the name of its configuration. *)
Definition LogRow : Type := (SyncLog * string)%type.

(** FROM ota_sync_logs sl JOIN ota_configurations oc
    ON sl.ota_configuration_id = oc.id  (lines 1331-1333). *)
Definition join_logs (s : Store) : list LogRow :=
  flat_map (fun l =>
              map (fun c => (l, ota_name c))
                  (filter (fun c => refers_to (id c) l)
                          (configurations s)))
           (sync_logs s).

(** ORDER BY key DESC as one execution of a statement performs it.  The
    server promises nothing on the order of rows of equal key, and may
    order them differently each time; [rank] is the order it gives them
    this time, the row of higher rank first. *)
Definition before {A} (key rank : A -> Z) (x y : A) : bool :=
  (key y <? key x) || ((key y =? key x) && (rank y <? rank x)).

Fixpoint insert_ranked {A} (key rank : A -> Z) (x : A) (l : list A)
  : list A :=
  match l with
  | [] => [x]
  | y :: t => if before key rank x y then x :: l
              else y :: insert_ranked key rank x t
  end.

Definition order_ranked {A} (key rank : A -> Z) (l : list A) : list A :=
  fold_right (insert_ranked key rank) [] l.

(** The listing query of GET /sync-logs (lines 1330-1351), with the
    parameters of LIMIT and OFFSET as the handler binds them, [None]
    being NaN.  NaN is not a value the statement can take, and a negative
    LIMIT or OFFSET is a syntax error. *)
Definition select_logs (rank : LogRow -> Z) (s : Store) (ota : option Z)
    (limit offset : option Z)
  : SqlResult (list LogRow) :=
  match limit, offset with
  | Some limit, Some offset =>
      if (limit <? 0) || (offset <? 0) then
        SqlError "You have an error in your SQL syntax"
      else
        let rows := join_logs s in
        let rows :=
          match ota with
          | Some i => filter (fun r => refers_to i (fst r)) rows
          | None => rows
          end in
        let rows :=
          order_ranked (fun r => sync_started_at (fst r)) rank rows in
        SqlOk (firstn (Z.to_nat limit) (skipn (Z.to_nat offset) rows))
  | _, _ => SqlError "Incorrect arguments to mysqld_stmt_execute"
  end.

End Sql.

(** ** Wire formats of the partner endpoints *)

Record Authentication : Type := {
  username : option string;
  password : option string
}.

Record Restrictions : Type := {
  min_stay : Z;
  max_stay : Z;
  closed_to_arrival : Z;
  closed_to_departure : Z
}.

Record BookingComRoom : Type := {
  bc_room_id : Z;
  bc_room_name : string;
  bc_rate : Z;
  bc_availability : Z;
  bc_inventory : Z;
  bc_restrictions : Restrictions
}.

Record BookingComAri : Type := {
  bc_authentication : Authentication;
  bc_hotel_id : option string;
  bc_rooms : list BookingComRoom
}.

Record AgodaRate : Type := {
  ag_RatePlan : string;
  ag_Rate : Z;
  ag_Date : string;
  ag_Availability : Z;
  ag_Inventory : Z
}.

Record AgodaRoom : Type := {
  ag_RoomId : Z;
  ag_RoomType : string;
  ag_Rates : list AgodaRate
}.

Record AgodaAri : Type := {
  ag_HotelId : option string;
  ag_RequestId : string;
  ag_Rooms : list AgodaRoom
}.

Record AirbnbOperation : Type := {
  ab_room_id : string;
  ab_availability : bool;
  ab_price_amount : Z;
  ab_price_currency : string;
  ab_date : string;
  ab_minimum_nights : Z
}.

Record AirbnbAri : Type := {
  ab_listing_id : option string;
  ab_operations : list AirbnbOperation
}.

(** The body handed to axios: an XML document built by
    [js2xmlparser.parse(root, object)], or a JSON object. *)
Inductive Body : Type :=
  | XmlAriUpdate (doc : BookingComAri)
  | XmlTestConnection (auth : Authentication) (hotel : option string)
  | JsonAgodaAri (doc : AgodaAri)
  | JsonAgodaTest (hotel : option string) (request_id : string)
  | JsonAirbnbAri (doc : AirbnbAri)
  | NoBody.

Inductive Method : Type := HttpGet | HttpPost.

Record Request : Type := {
  req_method : Method;
  req_url : option string;
  req_body : Body;
  req_headers : list (string * option string);
  req_timeout : Z
}.

(** What the awaited axios call does: resolve with [response.data], or
    reject (timeout, refused connection, status outside 2xx) with an error
    of the given message. *)
Inductive NetResult : Type :=
  | Resolved (data : string)
  | Rejected (error_message : string).

(** ** The environment of a request *)

(** The statements the router sends to the database, with their
    parameters.  The availability query has none; it carries the id of the
    configuration whose sync task sends it. *)
Inductive Stmt : Type :=
  | SelectRooms (task : Z)
  | InsertLog (cfg : Z) (ty : SyncType.t) (st : LogStatus.t)
              (msg : string) (records : Z)
  | TouchLastSync (i : Z)
  | SelectActive
  | SelectActiveById (i : Z)
  | SelectById (i : Z)
  | SelectIdsByName (name : string)
  | InsertConfig (name : option string)
  | UpdateConfig (i : Z) (name : option string)
  | DeleteConfig (i : Z)
  | SelectLogs (ota : option Z) (limit offset : option Z).

Record Env : Type := {
  (** a statement the server fails to run (lost connection, lock
      timeout, ...), with the message of the error *)
  db_error : Stmt -> option string;
  (** the room and booking tables as the availability query of a sync
      task reads them *)
  rooms_view : Z -> Inventory;
  (** the partner endpoints *)
  net : Request -> NetResult;
  (** NOW() and CURRENT_TIMESTAMP *)
  now : Z;
  (** [Date.now()], [new Date()] *)
  clock_ms : Z;
  (** [moment().format('YYYY-MM-DD')] *)
  today_text : string;
  (** [Buffer.from(s).toString('base64')] *)
  base64 : string -> string;
  (** the order the server gives to rows of equal key when it runs a
      statement with an ORDER BY clause *)
  tie_rank : Stmt -> Sql.LogRow -> Z
}.

(** What a handler did to the outside: the statements it sent and the
    HTTP requests it made, oldest first. *)
Inductive Event : Type :=
  | Executed (s : Stmt)
  | Http (r : Request).

Record World : Type := {
  store : Store;
  journal : list Event
}.

Definition record (e : Event) (w : World) : World :=
  {| store := store w; journal := journal w ++ [e] |}.

Definition set_store (s : Store) (w : World) : World :=
  {| store := s; journal := journal w |}.

(** ** The handler monad: state and exceptions *)

Inductive Outcome (A : Type) : Type :=
  | Returned (a : A)
  | Thrown (error : string).
Arguments Returned {A} a.
Arguments Thrown {A} error.

Definition M (A : Type) : Type := World -> Outcome A * World.

Definition ret {A} (a : A) : M A := fun w => (Returned a, w).

Definition throw {A} (error : string) : M A := fun w => (Thrown error, w).

Definition bind {A B} (m : M A) (k : A -> M B) : M B :=
  fun w =>
    match m w with
    | (Returned a, w') => k a w'
    | (Thrown e, w') => (Thrown e, w')
    end.

(** [try { m } catch (error) { handler }], [error.message] being what the
    handler receives. *)
Definition try_catch {A} (m : M A) (handler : string -> M A) : M A :=
  fun w =>
    match m w with
    | (Returned a, w') => (Returned a, w')
    | (Thrown e, w') => handler e w'
    end.

Notation "x <- m ;; k" := (bind m (fun x => k))
  (at level 61, m at next level, right associativity).
Notation "m ;; k" := (bind m (fun _ => k))
  (at level 61, right associativity).

(** [await Promise.all(l.map(f))].  The tasks are taken one after the
    other, in the order of [l]; the first rejection rejects the whole. *)
Fixpoint promise_all {A B} (f : A -> M B) (l : list A) : M (list B) :=
  match l with
  | [] => ret []
  | x :: t =>
      y <- f x ;;
      ys <- promise_all f t ;;
      ret (y :: ys)
  end.

(** ** Results and responses *)

Module SyncResult.
Record t : Type := {
  success : bool;
  message : string;
  data : option string
}.
End SyncResult.

Inductive Partner : Type := BookingCom | Agoda | Airbnb.

Record PartnerResult : Type := {
  pr_ota_name : string;
  pr_success : bool;
  pr_message : string
}.

(** The columns POST /configurations reads back (line 977). *)
Record ConfigView : Type := {
  v_id : Z;
  v_ota_name : string;
  v_api_username : option string;
  v_endpoint_url : option string;
  v_hotel_id : option string;
  v_is_active : option bool;
  v_sync_frequency : option Z
}.

Record Aggregate : Type := {
  agg_message : string;
  total_otas : Z;
  successful_syncs : Z;
  failed_syncs : Z;
  results : list PartnerResult;
  synced_at : Z
}.

Inductive ResBody : Type :=
  | ErrorBody (error : string)
  | MessageBody (text : string)
  | CreatedBody (text : string) (configuration : option ConfigView)
  | SyncBody (text : string) (ok : bool) (details name : string) (at_ : Z)
  | SyncAllBody (a : Aggregate)
  | LogsBody (logs : list Sql.LogRow)
  | TestBody (name : string) (ok : bool) (text : string) (tested_at : Z).

Record Response : Type := {
  http_status : Z;
  body : ResBody
}.

(** [res.json(b)] and [res.status(n).json(b)]. *)
Definition json (b : ResBody) : Response := {| http_status := 200; body := b |}.
Definition status_json (n : Z) (b : ResBody) : Response :=
  {| http_status := n; body := b |}.

(** The body of POST and PUT /configurations. *)
Record ConfigBody : Type := {
  b_ota_name : option string;
  b_api_key : option string;
  b_api_username : option string;
  b_api_password : option string;
  b_endpoint_url : option string;
  b_hotel_id : option string;
  b_sync_frequency : Js.Field Z;
  b_is_active : option bool
}.

(** The query string of GET /sync-logs; a parameter that is missing is
    [None].  [q_offset] is [parseInt((page - 1) * limit)] when [limit] or
    [page] is not a decimal numeral, [None] being NaN; the product is
    then taken on the numbers the two texts convert to, which need not
    be integers. *)
Record LogsQuery : Type := {
  q_ota_id : option Z;
  q_limit : option Js.Param;
  q_page : option Js.Param;
  q_offset : option Z
}.

(** ** The router *)

(** The [switch] of performOTASync and of POST /test-connection/:id on
    [config.ota_name.toLowerCase()] (lines 1203-1216 and 1379-1427): the
    case labels, [None] being the default case. *)
Definition partner_of (lowered : string) : option Partner :=
  if String.eqb lowered "booking.com" then Some BookingCom
  else if String.eqb lowered "booking_com" then Some BookingCom
  else if String.eqb lowered "agoda" then Some Agoda
  else if String.eqb lowered "airbnb" then Some Airbnb
  else None.

Section Router.

Variable env : Env.

Local Open Scope string_scope.

(** [await db.execute(sql, params)] for a statement that may change the
    store. *)
Definition execute {A} (stmt : Stmt) (run : Store -> SqlResult A * Store)
  : M A :=
  fun w =>
    let w := record (Executed stmt) w in
    match db_error env stmt with
    | Some e => (Thrown e, w)
    | None =>
        match run (store w) with
        | (SqlOk a, s) => (Returned a, set_store s w)
        | (SqlError e, s) => (Thrown e, set_store s w)
        end
    end.

(** [await db.execute(sql, params)] for a SELECT. *)
Definition query {A} (stmt : Stmt) (rows : Store -> A) : M A :=
  execute stmt (fun s => (SqlOk (rows s), s)).

(** [await axios.post(...)], [await axios.get(...)]. *)
Definition axios (r : Request) : M string :=
  fun w =>
    let w := record (Http r) w in
    match net env r with
    | Resolved d => (Returned d, w)
    | Rejected e => (Thrown e, w)
    end.

(** Lines 910-919. *)
Definition logSyncOperation (otaConfigId : Z) (syncType : SyncType.t)
    (status : LogStatus.t) (message : string) (recordsProcessed : Z)
  : M unit :=
  try_catch
    (execute (InsertLog otaConfigId syncType status message
                        recordsProcessed)
             (fun s => Sql.insert_log (now env) s (Some otaConfigId)
                         syncType status (Some message)
                         (Some recordsProcessed)) ;;
     ret tt)
    (fun error => ret tt).

Definition basic_authorization (config : Config) : string :=
  "Basic " ++ base64 env (Js.interp (api_username config) ++ ":" ++
                          Js.interp (api_password config)).

Definition bearer_authorization (config : Config) : string :=
  "Bearer " ++ Js.interp (api_key config).

(** Lines 1050-1097. *)
Definition syncBookingComARI (config : Config) (rooms : list RoomRow)
  : M SyncResult.t :=
  try_catch
    (let ariData :=
       {| bc_authentication :=
            {| username := api_username config;
               password := api_password config |};
          bc_hotel_id := hotel_id config;
          bc_rooms :=
            map (fun room =>
                   {| bc_room_id := room_id (row_room room);
                      bc_room_name := room_name (row_room room);
                      bc_rate := price_per_night (row_room room);
                      bc_availability := if is_available room then 1 else 0;
                      bc_inventory := 1;
                      bc_restrictions :=
                        {| min_stay := 1; max_stay := 30;
                           closed_to_arrival := 0;
                           closed_to_departure := 0 |} |})
                rooms |} in
     response <- axios
       {| req_method := HttpPost;
          req_url := endpoint_url config;
          req_body := XmlAriUpdate ariData;
          req_headers :=
            [("Content-Type", Some "application/xml");
             ("Authorization", Some (basic_authorization config))];
          req_timeout := 30000 |} ;;
     ret {| SyncResult.success := true;
            SyncResult.message :=
              "Booking.com ARI sync completed successfully";
            SyncResult.data := Some response |})
    (fun error =>
       ret {| SyncResult.success := false;
              SyncResult.message := "Booking.com sync failed: " ++ error;
              SyncResult.data := None |}).

(** Lines 1100-1141. *)
Definition syncAgodaARI (config : Config) (rooms : list RoomRow)
  : M SyncResult.t :=
  try_catch
    (let ariData :=
       {| ag_HotelId := hotel_id config;
          ag_RequestId := "agoda_" ++ Js.number (clock_ms env);
          ag_Rooms :=
            map (fun room =>
                   {| ag_RoomId := room_id (row_room room);
                      ag_RoomType := room_name (row_room room);
                      ag_Rates :=
                        [{| ag_RatePlan := "Standard";
                            ag_Rate := price_per_night (row_room room);
                            ag_Date := today_text env;
                            ag_Availability :=
                              if is_available room then 1 else 0;
                            ag_Inventory := 1 |}] |})
                rooms |} in
     response <- axios
       {| req_method := HttpPost;
          req_url := endpoint_url config;
          req_body := JsonAgodaAri ariData;
          req_headers :=
            [("Content-Type", Some "application/json");
             ("Authorization", Some (bearer_authorization config));
             ("X-Hotel-Id", hotel_id config)];
          req_timeout := 30000 |} ;;
     ret {| SyncResult.success := true;
            SyncResult.message := "Agoda ARI sync completed successfully";
            SyncResult.data := Some response |})
    (fun error =>
       ret {| SyncResult.success := false;
              SyncResult.message := "Agoda sync failed: " ++ error;
              SyncResult.data := None |}).

(** Lines 1144-1183. *)
Definition syncAirbnbARI (config : Config) (rooms : list RoomRow)
  : M SyncResult.t :=
  try_catch
    (let ariData :=
       {| ab_listing_id := hotel_id config;
          ab_operations :=
            map (fun room =>
                   {| ab_room_id := Js.number (room_id (row_room room));
                      ab_availability := is_available room;
                      ab_price_amount := price_per_night (row_room room);
                      ab_price_currency := "USD";
                      ab_date := today_text env;
                      ab_minimum_nights := 1 |})
                rooms |} in
     response <- axios
       {| req_method := HttpPost;
          req_url := endpoint_url config;
          req_body := JsonAirbnbAri ariData;
          req_headers :=
            [("Content-Type", Some "application/json");
             ("Authorization", Some (bearer_authorization config));
             ("X-Airbnb-API-Version", Some "1.0")];
          req_timeout := 30000 |} ;;
     ret {| SyncResult.success := true;
            SyncResult.message := "Airbnb ARI sync completed successfully";
            SyncResult.data := Some response |})
    (fun error =>
       ret {| SyncResult.success := false;
              SyncResult.message := "Airbnb sync failed: " ++ error;
              SyncResult.data := None |}).

(** Lines 1186-1250. *)
Definition performOTASync (config : Config) : M SyncResult.t :=
  try_catch
    (rooms <- query (SelectRooms (id config))
                    (fun _ => select_rooms (rooms_view env (id config))) ;;
     syncResult <-
       match partner_of (Js.toLowerCase (ota_name config)) with
       | Some BookingCom => syncBookingComARI config rooms
       | Some Agoda => syncAgodaARI config rooms
       | Some Airbnb => syncAirbnbARI config rooms
       | None => throw ("Unsupported OTA: " ++ ota_name config)
       end ;;
     logSyncOperation (id config) SyncType.availability
       (if SyncResult.success syncResult
        then LogStatus.success else LogStatus.failed)
       (SyncResult.message syncResult)
       (Z.of_nat (List.length rooms)) ;;
     execute (TouchLastSync (id config))
             (fun s => Sql.touch_last_sync (now env) s (id config)) ;;
     ret syncResult)
    (fun error =>
       logSyncOperation (id config) SyncType.availability
         LogStatus.failed error 0 ;;
       ret {| SyncResult.success := false;
              SyncResult.message := error;
              SyncResult.data := None |}).

Definition internal_server_error : Response :=
  status_json 500 (ErrorBody "Internal server error").

Definition view (c : Config) : ConfigView :=
  {| v_id := id c; v_ota_name := ota_name c;
     v_api_username := api_username c; v_endpoint_url := endpoint_url c;
     v_hotel_id := hotel_id c; v_is_active := is_active c;
     v_sync_frequency := sync_frequency c |}.

(** POST /configurations (lines 940-990). *)
Definition post_configurations (b : ConfigBody) : M Response :=
  try_catch
    (let sync_frequency :=
       match b_sync_frequency b with
       | Js.Undefined => Some 60
       | Js.Null => None
       | Js.Value f => Some f
       end in
     if Js.falsy (b_ota_name b) || Js.falsy (b_endpoint_url b) then
       ret (status_json 400
              (ErrorBody "OTA name and endpoint URL are required"))
     else
       existingConfig <-
         query (SelectIdsByName (Js.interp (b_ota_name b)))
               (fun s => Sql.select_ids_by_name s
                           (Js.interp (b_ota_name b))) ;;
       if (0 <? Z.of_nat (List.length existingConfig))%Z then
         ret (status_json 400
                (ErrorBody "Configuration already exists for this OTA"))
       else
         configId <-
           execute (InsertConfig (b_ota_name b))
                   (fun s => Sql.insert_config (now env) s
                               (b_ota_name b) (b_api_key b)
                               (b_api_username b) (b_api_password b)
                               (b_endpoint_url b) (b_hotel_id b)
                               sync_frequency) ;;
         createdConfig <-
           query (SelectById configId)
                 (fun s => Sql.select_by_id s configId) ;;
         ret (status_json 201
                (CreatedBody "OTA configuration created successfully"
                   (option_map view (hd_error createdConfig)))))
    (fun error => ret internal_server_error).

(** PUT /configurations/:id (lines 993-1025). *)
Definition put_configurations (i : Z) (b : ConfigBody) : M Response :=
  try_catch
    (existingConfig <-
       query (SelectById i) (fun s => Sql.select_by_id s i) ;;
     if (Z.of_nat (List.length existingConfig) =? 0)%Z then
       ret (status_json 404 (ErrorBody "Configuration not found"))
     else
       execute (UpdateConfig i (b_ota_name b))
               (fun s => Sql.update_config (now env) s i
                           (b_ota_name b) (b_api_key b)
                           (b_api_username b) (b_api_password b)
                           (b_endpoint_url b) (b_hotel_id b)
                           (Js.nullable (b_sync_frequency b))
                           (b_is_active b)) ;;
       ret (json (MessageBody "OTA configuration updated successfully")))
    (fun error => ret internal_server_error).

(** DELETE /configurations/:id (lines 1028-1047). *)
Definition delete_configurations (i : Z) : M Response :=
  try_catch
    (existingConfig <-
       query (SelectById i) (fun s => Sql.select_by_id s i) ;;
     if (Z.of_nat (List.length existingConfig) =? 0)%Z then
       ret (status_json 404 (ErrorBody "Configuration not found"))
     else
       execute (DeleteConfig i) (fun s => Sql.delete_config s i) ;;
       ret (json (MessageBody "OTA configuration deleted successfully")))
    (fun error => ret internal_server_error).

(** POST /sync/:id (lines 1253-1281). *)
Definition post_sync (i : Z) : M Response :=
  try_catch
    (configs <-
       query (SelectActiveById i)
             (fun s => Sql.select_active_by_id s i) ;;
     match configs with
     | [] =>
         ret (status_json 404
                (ErrorBody "Active OTA configuration not found"))
     | config :: _ =>
         result <- performOTASync config ;;
         ret (json (SyncBody
                      (if SyncResult.success result
                       then "Sync completed successfully"
                       else "Sync failed")
                      (SyncResult.success result)
                      (SyncResult.message result)
                      (ota_name config)
                      (clock_ms env)))
     end)
    (fun error => ret internal_server_error).

(** The task POST /sync-all starts for one configuration
    (lines 1296-1303). *)
Definition sync_task (config : Config) : M PartnerResult :=
  result <- performOTASync config ;;
  ret {| pr_ota_name := ota_name config;
         pr_success := SyncResult.success result;
         pr_message := SyncResult.message result |}.

(** POST /sync-all (lines 1284-1323). *)
Definition post_sync_all : M Response :=
  try_catch
    (configs <- query SelectActive Sql.select_active ;;
     if (Z.of_nat (List.length configs) =? 0)%Z then
       ret (status_json 400
              (ErrorBody "No active OTA configurations found"))
     else
       results <- promise_all sync_task configs ;;
       let successCount :=
         Z.of_nat (List.length (filter pr_success results)) in
       let failureCount :=
         Z.of_nat (List.length
                     (filter (fun r => negb (pr_success r)) results)) in
       ret (json (SyncAllBody
              {| agg_message :=
                   "Sync completed: " ++ Js.number successCount ++
                   " successful, " ++ Js.number failureCount ++ " failed";
                 total_otas := Z.of_nat (List.length configs);
                 successful_syncs := successCount;
                 failed_syncs := failureCount;
                 results := results;
                 synced_at := clock_ms env |})))
    (fun error => ret internal_server_error).

(** GET /sync-logs (lines 1326-1359). *)
Definition get_sync_logs (q : LogsQuery) : M Response :=
  try_catch
    (let limit :=
       match q_limit q with Some l => l | None => Js.Decimal 50 end in
     let page :=
       match q_page q with Some p => p | None => Js.Decimal 1 end in
     let offset :=
       match page, limit with
       | Js.Decimal page, Js.Decimal limit => Some ((page - 1) * limit)%Z
       | _, _ => q_offset q
       end in
     let stmt := SelectLogs (q_ota_id q) (Js.parseInt limit) offset in
     logs <- execute stmt
                     (fun s => (Sql.select_logs (tie_rank env stmt) s
                                  (q_ota_id q) (Js.parseInt limit) offset,
                                s)) ;;
     ret (json (LogsBody logs)))
    (fun error => ret internal_server_error).

(** The probe POST /test-connection/:id sends to a partner
    (lines 1383-1421). *)
Definition test_request (p : Partner) (config : Config) : Request :=
  match p with
  | BookingCom =>
      {| req_method := HttpPost;
         req_url := endpoint_url config;
         req_body :=
           XmlTestConnection
             {| username := api_username config;
                password := api_password config |}
             (hotel_id config);
         req_headers :=
           [("Content-Type", Some "application/xml");
            ("Authorization", Some (basic_authorization config))];
         req_timeout := 15000 |}
  | Agoda =>
      {| req_method := HttpPost;
         req_url := endpoint_url config;
         req_body :=
           JsonAgodaTest (hotel_id config)
                         ("test_" ++ Js.number (clock_ms env));
         req_headers :=
           [("Content-Type", Some "application/json");
            ("Authorization", Some (bearer_authorization config))];
         req_timeout := 15000 |}
  | Airbnb =>
      {| req_method := HttpGet;
         req_url := Some (Js.interp (endpoint_url config) ++ "/test");
         req_body := NoBody;
         req_headers :=
           [("Authorization", Some (bearer_authorization config));
            ("X-Airbnb-API-Version", Some "1.0")];
         req_timeout := 15000 |}
  end.

Definition test_success (p : Partner) : string :=
  match p with
  | BookingCom => "Booking.com connection successful"
  | Agoda => "Agoda connection successful"
  | Airbnb => "Airbnb connection successful"
  end.

(** POST /test-connection/:id (lines 1362-1447). *)
Definition post_test_connection (i : Z) : M Response :=
  try_catch
    (configs <- query (SelectById i) (fun s => Sql.select_by_id s i) ;;
     match configs with
     | [] =>
         ret (status_json 404 (ErrorBody "OTA configuration not found"))
     | config :: _ =>
         testResult <-
           try_catch
             (match partner_of (Js.toLowerCase (ota_name config)) with
              | Some p =>
                  axios (test_request p config) ;;
                  ret (true, test_success p)
              | None =>
                  ret (false, "Unsupported OTA: " ++ ota_name config)
              end)
             (fun error => ret (false, "Connection failed: " ++ error)) ;;
         ret (json (TestBody (ota_name config) (fst testResult)
                             (snd testResult) (clock_ms env)))
     end)
    (fun error => ret internal_server_error).

End Router.

(** ** What one sync task does, as functions of the environment

    The effect of [performOTASync] on the caller, on the store and on the
    outside, written without the monad.  [performOTASync_run] below shows
    that the handler computes exactly these. *)

Section Task.

Variable env : Env.

Local Open Scope string_scope.

(** The availability rows the task of [config] reads. *)
Definition snapshot (config : Config) : list RoomRow :=
  select_rooms (rooms_view env (id config)).

(** The request an adapter sends for [config] and [rooms]. *)
Definition ari_request (p : Partner) (config : Config)
    (rooms : list RoomRow) : Request :=
  match p with
  | BookingCom =>
      {| req_method := HttpPost;
         req_url := endpoint_url config;
         req_body :=
           XmlAriUpdate
             {| bc_authentication :=
                  {| username := api_username config;
                     password := api_password config |};
                bc_hotel_id := hotel_id config;
                bc_rooms :=
                  map (fun room =>
                         {| bc_room_id := room_id (row_room room);
                            bc_room_name := room_name (row_room room);
                            bc_rate := price_per_night (row_room room);
                            bc_availability :=
                              if is_available room then 1 else 0;
                            bc_inventory := 1;
                            bc_restrictions :=
                              {| min_stay := 1; max_stay := 30;
                                 closed_to_arrival := 0;
                                 closed_to_departure := 0 |} |})
                      rooms |};
         req_headers :=
           [("Content-Type", Some "application/xml");
            ("Authorization", Some (basic_authorization env config))];
         req_timeout := 30000 |}
  | Agoda =>
      {| req_method := HttpPost;
         req_url := endpoint_url config;
         req_body :=
           JsonAgodaAri
             {| ag_HotelId := hotel_id config;
                ag_RequestId := "agoda_" ++ Js.number (clock_ms env);
                ag_Rooms :=
                  map (fun room =>
                         {| ag_RoomId := room_id (row_room room);
                            ag_RoomType := room_name (row_room room);
                            ag_Rates :=
                              [{| ag_RatePlan := "Standard";
                                  ag_Rate := price_per_night (row_room room);
                                  ag_Date := today_text env;
                                  ag_Availability :=
                                    if is_available room then 1 else 0;
                                  ag_Inventory := 1 |}] |})
                      rooms |};
         req_headers :=
           [("Content-Type", Some "application/json");
            ("Authorization", Some (bearer_authorization config));
            ("X-Hotel-Id", hotel_id config)];
         req_timeout := 30000 |}
  | Airbnb =>
      {| req_method := HttpPost;
         req_url := endpoint_url config;
         req_body :=
           JsonAirbnbAri
             {| ab_listing_id := hotel_id config;
                ab_operations :=
                  map (fun room =>
                         {| ab_room_id := Js.number (room_id (row_room room));
                            ab_availability := is_available room;
                            ab_price_amount := price_per_night (row_room room);
                            ab_price_currency := "USD";
                            ab_date := today_text env;
                            ab_minimum_nights := 1 |})
                      rooms |};
         req_headers :=
           [("Content-Type", Some "application/json");
            ("Authorization", Some (bearer_authorization config));
            ("X-Airbnb-API-Version", Some "1.0")];
         req_timeout := 30000 |}
  end.

Definition partner_label (p : Partner) : string :=
  match p with
  | BookingCom => "Booking.com"
  | Agoda => "Agoda"
  | Airbnb => "Airbnb"
  end.

(** What the adapter of [p] returns. *)
Definition adapter_result (p : Partner) (config : Config)
    (rooms : list RoomRow) : SyncResult.t :=
  match net env (ari_request p config rooms) with
  | Resolved d =>
      {| SyncResult.success := true;
         SyncResult.message :=
           partner_label p ++ " ARI sync completed successfully";
         SyncResult.data := Some d |}
  | Rejected e =>
      {| SyncResult.success := false;
         SyncResult.message := partner_label p ++ " sync failed: " ++ e;
         SyncResult.data := None |}
  end.

Definition failure (error : string) : SyncResult.t :=
  {| SyncResult.success := false;
     SyncResult.message := error;
     SyncResult.data := None |}.

Definition status_of (r : SyncResult.t) : LogStatus.t :=
  if SyncResult.success r then LogStatus.success else LogStatus.failed.

Definition log_stmt (config : Config) (st : LogStatus.t)
    (msg : string) (records : Z) : Stmt :=
  InsertLog (id config) SyncType.availability st msg records.

(** The store after [logSyncOperation]: the entry is there unless the
    INSERT failed. *)
Definition write_log (config : Config) (st : LogStatus.t)
    (msg : string) (records : Z) (s : Store) : Store :=
  match db_error env (log_stmt config st msg records) with
  | Some _ => s
  | None =>
      snd (Sql.insert_log (now env) s (Some (id config))
             SyncType.availability st (Some msg) (Some records))
  end.

Definition records_of (config : Config) : Z :=
  Z.of_nat (List.length (snapshot config)).

(** The result [performOTASync config] resolves with. *)
Definition task_result (config : Config) : SyncResult.t :=
  match db_error env (SelectRooms (id config)) with
  | Some e => failure e
  | None =>
      match partner_of (Js.toLowerCase (ota_name config)) with
      | None => failure ("Unsupported OTA: " ++ ota_name config)
      | Some p =>
          match db_error env (TouchLastSync (id config)) with
          | Some e => failure e
          | None => adapter_result p config (snapshot config)
          end
      end
  end.

(** The statements and requests [performOTASync config] sends. *)
Definition task_events (config : Config) : list Event :=
  Executed (SelectRooms (id config)) ::
  match db_error env (SelectRooms (id config)) with
  | Some e => [Executed (log_stmt config LogStatus.failed e 0)]
  | None =>
      match partner_of (Js.toLowerCase (ota_name config)) with
      | None =>
          [Executed (log_stmt config LogStatus.failed
                       ("Unsupported OTA: " ++ ota_name config) 0)]
      | Some p =>
          let r := adapter_result p config (snapshot config) in
          Http (ari_request p config (snapshot config)) ::
          Executed (log_stmt config (status_of r) (SyncResult.message r)
                      (records_of config)) ::
          Executed (TouchLastSync (id config)) ::
          match db_error env (TouchLastSync (id config)) with
          | Some e => [Executed (log_stmt config LogStatus.failed e 0)]
          | None => []
          end
      end
  end%list.

(** The store [performOTASync config] leaves. *)
Definition task_store (config : Config) (s : Store) : Store :=
  match db_error env (SelectRooms (id config)) with
  | Some e => write_log config LogStatus.failed e 0 s
  | None =>
      match partner_of (Js.toLowerCase (ota_name config)) with
      | None =>
          write_log config LogStatus.failed
            ("Unsupported OTA: " ++ ota_name config) 0 s
      | Some p =>
          let r := adapter_result p config (snapshot config) in
          let s1 := write_log config (status_of r) (SyncResult.message r)
                      (records_of config) s in
          match db_error env (TouchLastSync (id config)) with
          | Some e => write_log config LogStatus.failed e 0 s1
          | None => snd (Sql.touch_last_sync (now env) s1 (id config))
          end
      end
  end.

Definition partner_result (config : Config) : PartnerResult :=
  {| pr_ota_name := ota_name config;
     pr_success := SyncResult.success (task_result config);
     pr_message := SyncResult.message (task_result config) |}.

End Task.

(** ** Vocabulary of the properties *)

(** [filter] and [map] in one pass. *)
Fixpoint collect {A B} (f : A -> option B) (l : list A) : list B :=
  match l with
  | [] => []
  | x :: t =>
      match f x with
      | Some y => y :: collect f t
      | None => collect f t
      end
  end.

(** The availability queries among the events, by the task that sent
    them, and the HTTP requests among the events. *)
Definition rooms_queries (events : list Event) : list Z :=
  collect (fun e => match e with
                    | Executed (SelectRooms task) => Some task
                    | _ => None
                    end) events.

Definition requests (events : list Event) : list Request :=
  collect (fun e => match e with
                    | Http r => Some r
                    | _ => None
                    end) events.

(** The statements among the events that write to a table. *)
Definition writes (events : list Event) : list Stmt :=
  collect (fun e => match e with
                    | Executed (InsertLog c ty st m n) =>
                        Some (InsertLog c ty st m n)
                    | Executed (TouchLastSync i) => Some (TouchLastSync i)
                    | Executed (InsertConfig n) => Some (InsertConfig n)
                    | Executed (UpdateConfig i n) => Some (UpdateConfig i n)
                    | Executed (DeleteConfig i) => Some (DeleteConfig i)
                    | _ => None
                    end) events.

(** A booking that keeps room [rid] occupied on day [today]. *)
Definition occupies (today rid : Z) (b : Booking) : Prop :=
  booking_room_id b = Some rid /\
  (booking_status b = pending \/ booking_status b = confirmed) /\
  check_in_date b <= today < check_out_date b.

(** [configs[0]] of [SELECT ... WHERE id = ?]. *)
Definition lookup (s : Store) (i : Z) : option Config :=
  hd_error (Sql.select_by_id s i).

(** No two configurations have the same [ota_name]. *)
Definition unique_names (s : Store) : Prop :=
  NoDup (map ota_name (configurations s)).

(** The names the dispatch accepts, after lower-casing. *)
Definition supported_names : list string :=
  ["booking.com"; "booking_com"; "agoda"; "airbnb"]%string.

(** The partner names of the spec. *)
Definition spec_partner_names : list string :=
  ["booking_com"; "agoda"; "airbnb"]%string.

Section Vocabulary.

Variable env : Env.

(** The store after the tasks of [configs], one after the other. *)
Definition tasks_store (configs : list Config) (s : Store) : Store :=
  fold_left (fun s c => task_store env c s) configs s.

(** The request the task of [config] sends, if it gets as far as an
    adapter. *)
Definition task_request (config : Config) : option Request :=
  match db_error env (SelectRooms (id config)) with
  | Some _ => None
  | None =>
      match partner_of (Js.toLowerCase (ota_name config)) with
      | Some p => Some (ari_request env p config (snapshot env config))
      | None => None
      end
  end.

(** The dispatch of [config] fails: no adapter for its name, or the
    partner endpoint rejects the request. *)
Definition dispatch_fails (config : Config) : bool :=
  match partner_of (Js.toLowerCase (ota_name config)) with
  | None => true
  | Some p => negb (SyncResult.success
                      (adapter_result env p config (snapshot env config)))
  end.

(** The statements of the task of [config], the log write apart, run. *)
Definition store_serves (config : Config) : Prop :=
  db_error env (SelectRooms (id config)) = None /\
  db_error env (TouchLastSync (id config)) = None.

(** The task of [config] fails: its availability query fails, or its
    dispatch fails, or the UPDATE of [last_sync_at] that follows the
    dispatch fails. *)
Definition task_fails (config : Config) : bool :=
  match db_error env (SelectRooms (id config)) with
  | Some _ => true
  | None =>
      dispatch_fails config ||
      match db_error env (TouchLastSync (id config)) with
      | Some _ => true
      | None => false
      end
  end.

(** C3 as the claim words it: of the N active configurations, the K
    whose adapter dispatch fails are the failures POST /sync-all
    reports. *)
Definition counts_by_dispatch (w : World) : Prop :=
  let configs := Sql.select_active (store w) in
  let N := Z.of_nat (List.length configs) in
  let K := Z.of_nat (List.length (filter dispatch_fails configs)) in
  exists agg w',
    post_sync_all env w = (Returned (json (SyncAllBody agg)), w') /\
    successful_syncs agg = N - K /\ failed_syncs agg = K.

(** Every log write of the task of [config] runs. *)
Definition log_writes_run (config : Config) : Prop :=
  forall st msg records,
    db_error env (log_stmt config st msg records) = None.

(** Every log write of the task of [config] fails. *)
Definition log_writes_fail (config : Config) : Prop :=
  forall st msg records,
    db_error env (log_stmt config st msg records) <> None.

(** C1 as the spec words it: the availability query runs once, and one
    list of rows goes to every adapter that is called. *)
Definition shared_snapshot (configs : list Config) (events : list Event)
  : Prop :=
  List.length (rooms_queries events) = 1%nat /\
  exists rooms,
    forall c p, In c configs ->
      partner_of (Js.toLowerCase (ota_name c)) = Some p ->
      In (ari_request env p c rooms) (requests events).

(** C2 as the spec words it: after the sync of configuration [i] its
    [last_sync_at] is the current time. *)
Definition last_sync_is_now (i : Z) (w : World) : Prop :=
  option_map last_sync_at (lookup (store (snd (post_sync env i w))) i)
  = Some (Some (now env)).

(** C4 as the spec words it: a failed outcome that talks of an
    unsupported OTA, and no request sent. *)
Definition refused_without_network (config : Config) (w : World) : Prop :=
  exists r w',
    performOTASync env config w = (Returned r, w') /\
    SyncResult.success r = false /\
    Js.includes "Unsupported OTA" (SyncResult.message r) = true /\
    requests (journal w') = requests (journal w).

(** C6 as the spec words it: the sync attempt leaves exactly one more
    log entry. *)
Definition one_log_entry (config : Config) (w : World) : Prop :=
  exists entry,
    sync_logs (store (snd (performOTASync env config w))) =
    sync_logs (store w) ++ [entry].

(** C8 as the spec words it: the configuration is deleted, its log
    entries stay, and the listing still returns them. *)
Definition deleted_with_logs_kept (i : Z) (w : World) : Prop :=
  let w' := snd (delete_configurations env i w) in
  lookup (store w') i = None /\
  sync_logs (store w') = sync_logs (store w) /\
  forall l, In l (sync_logs (store w)) -> refers_to i l = true ->
    exists rows name,
      fst (get_sync_logs env
             {| q_ota_id := Some i; q_limit := None; q_page := None;
                q_offset := None |} w')
      = Returned (json (LogsBody rows)) /\
      In (l, name) rows.


End Vocabulary.

(** Handlers run one after the other. *)
Fixpoint run_all {A} (calls : list (M A)) (w : World) : World :=
  match calls with
  | [] => w
  | m :: t => run_all t (snd (m w))
  end.

(** ** Sample data *)

Module Sample.

Local Open Scope string_scope.

Definition config (i : Z) (name : string) : Config :=
  {| id := i; ota_name := name; api_key := Some "k1";
     api_username := Some "hotel"; api_password := Some "secret";
     endpoint_url := Some "https://partner.example/ari";
     hotel_id := Some "H1"; is_active := Some true;
     last_sync_at := None; sync_frequency := Some 60;
     created_at := 10; updated_at := 10 |}.

Definition body (name : string) : ConfigBody :=
  {| b_ota_name := Some name; b_api_key := Some "k1";
     b_api_username := Some "hotel"; b_api_password := Some "secret";
     b_endpoint_url := Some "https://partner.example/ari";
     b_hotel_id := Some "H1"; b_sync_frequency := Js.Undefined;
     b_is_active := Some true |}.

Definition deluxe : Room :=
  {| room_id := 7; room_number := "107"; room_name := "Deluxe";
     room_description := None; price_per_night := 10000;
     max_occupancy := 2; room_is_active := true |}.

Definition stay (st : BookingStatus) (from to : Z) : Booking :=
  {| booking_id := 1; booking_room_id := Some 7; booking_status := st;
     check_in_date := from; check_out_date := to |}.

(** Day 100, room 7 free; and day 100, room 7 taken by a confirmed
    stay from day 99 to day 102. *)
Definition free : Inventory :=
  {| inv_rooms := [deluxe]; inv_bookings := []; inv_today := 100 |}.

Definition taken : Inventory :=
  {| inv_rooms := [deluxe]; inv_bookings := [stay confirmed 99 102];
     inv_today := 100 |}.


(** Every statement runs, every endpoint answers, room 7 is free. *)
Definition quiet : Env :=
  {| db_error := fun _ => None;
     rooms_view := fun _ => free;
     net := fun _ => Resolved "OK";
     now := 1000;
     clock_ms := 1000000;
     today_text := "2026-01-10";
     base64 := fun s => s;
     tie_rank := fun _ _ => 0 |}.

(** As [quiet], but a booking of room 7 is confirmed between the
    availability queries of the tasks of configurations 1 and 2. *)
Definition moving : Env :=
  {| db_error := fun _ => None;
     rooms_view := fun task => if (task =? 1)%Z then free else taken;
     net := fun _ => Resolved "OK";
     now := 1000;
     clock_ms := 1000000;
     today_text := "2026-01-10";
     base64 := fun s => s;
     tie_rank := fun _ _ => 0 |}.

(** As [quiet], but the UPDATE of [last_sync_at] fails. *)
Definition update_fails : Env :=
  {| db_error := fun stmt =>
                   match stmt with
                   | TouchLastSync _ => Some "Lock wait timeout exceeded"
                   | _ => None
                   end;
     rooms_view := fun _ => free;
     net := fun _ => Resolved "OK";
     now := 1000;
     clock_ms := 1000000;
     today_text := "2026-01-10";
     base64 := fun s => s;
     tie_rank := fun _ _ => 0 |}.

(** As [quiet], but the endpoint of hotel H1 refuses connections. *)
Definition offline : Env :=
  {| db_error := fun _ => None;
     rooms_view := fun _ => free;
     net := fun _ => Rejected "connect ECONNREFUSED";
     now := 1000;
     clock_ms := 1000000;
     today_text := "2026-01-10";
     base64 := fun s => s;
     tie_rank := fun _ _ => 0 |}.

Definition database (c : Collation) (l : list Config) (logs : list SyncLog)
  : World :=
  {| store := {| configurations := l; sync_logs := logs;
                 next_config_id := 1 + Z.of_nat (List.length l);
                 next_log_id := 1 + Z.of_nat (List.length logs);
                 collation := c |};
     journal := [] |}.

Definition entry (i cfg : Z) : SyncLog :=
  {| log_id := i; ota_configuration_id := Some cfg;
     sync_type := SyncType.availability; log_status := LogStatus.success;
     message := Some "Agoda ARI sync completed successfully";
     sync_started_at := 900; sync_completed_at := Some 900;
     records_processed := Some 1 |}.

End Sample.

(** Two environments that differ at most in which log writes fail. *)
Definition same_but_log_writes (env env' : Env) : Prop :=
  (forall s, (forall c ty st m n, s <> InsertLog c ty st m n) ->
             db_error env s = db_error env' s) /\
  (forall task, rooms_view env task = rooms_view env' task) /\
  (forall r, net env r = net env' r) /\
  now env = now env' /\
  clock_ms env = clock_ms env' /\
  today_text env = today_text env' /\
  (forall s, base64 env s = base64 env' s).

(** As [Sample.quiet], but no INSERT into ota_sync_logs goes through. *)
Definition log_table_locked : Env :=
  {| db_error := fun stmt =>
                   match stmt with
                   | InsertLog _ _ _ _ _ =>
                       Some "Lock wait timeout exceeded"%string
                   | _ => None
                   end;
     rooms_view := rooms_view Sample.quiet;
     net := net Sample.quiet;
     now := now Sample.quiet;
     clock_ms := clock_ms Sample.quiet;
     today_text := today_text Sample.quiet;
     base64 := base64 Sample.quiet;
     tie_rank := tie_rank Sample.quiet |}.

(** ** The router as a whole *)

(** A request to one of the routes above, the middleware passed. *)
Inductive Call : Type :=
  | PostConfigurations (b : ConfigBody)
  | PutConfigurations (i : Z) (b : ConfigBody)
  | DeleteConfigurations (i : Z)
  | PostSync (i : Z)
  | PostSyncAll
  | GetSyncLogs (q : LogsQuery)
  | PostTestConnection (i : Z).

(** The handler the router runs for a request. *)
Definition route (env : Env) (c : Call) : M Response :=
  match c with
  | PostConfigurations b => post_configurations env b
  | PutConfigurations i b => put_configurations env i b
  | DeleteConfigurations i => delete_configurations env i
  | PostSync i => post_sync env i
  | PostSyncAll => post_sync_all env
  | GetSyncLogs q => get_sync_logs env q
  | PostTestConnection i => post_test_connection env i
  end.

(** The world after a sequence of requests, each with the environment it
    meets. *)
Definition serve (calls : list (Env * Call)) (w : World) : World :=
  run_all (map (fun call => route (fst call) (snd call)) calls) w.

(** A handler takes every store to one that is [R]-related to it. *)
Definition respects {A} (R : Store -> Store -> Prop) (m : M A) : Prop :=
  forall w, R (store w) (store (snd (m w))).

(** The constraints of the schema on the two tables: [id] is the primary
    key of both and comes from an AUTO_INCREMENT counter, and a log entry
    references a stored configuration or none. *)
Definition consistent (s : Store) : Prop :=
  NoDup (map id (configurations s)) /\
  (forall c, In c (configurations s) -> id c < next_config_id s) /\
  NoDup (map log_id (sync_logs s)) /\
  (forall l, In l (sync_logs s) -> log_id l < next_log_id s) /\
  (forall l i, In l (sync_logs s) -> ota_configuration_id l = Some i ->
               exists c, In c (configurations s) /\ id c = i).

(** [s'] has the property [P] if [s] has it. *)
Definition keeps (P : Store -> Prop) (s s' : Store) : Prop := P s -> P s'.

(** A log entry of the kind [performOTASync] writes: an availability
    sync that succeeded or failed, for a given configuration, completed
    at the instant it started, with its message and record count. *)
Definition written_by_sync (l : SyncLog) : Prop :=
  sync_type l = SyncType.availability /\
  log_status l <> LogStatus.partial /\
  ota_configuration_id l <> None /\
  message l <> None /\
  records_processed l <> None /\
  sync_completed_at l = Some (sync_started_at l).

(** The log of [s'] is the log of [s] with such entries added at its
    end. *)
Definition log_extends (s s' : Store) : Prop :=
  exists added,
    sync_logs s' = sync_logs s ++ added /\ Forall written_by_sync added.

(** What an operator sets in a configuration: every column but
    [last_sync_at] and [updated_at]. *)
Record Settings : Type := {
  set_id : Z;
  set_ota_name : string;
  set_api_key : option string;
  set_api_username : option string;
  set_api_password : option string;
  set_endpoint_url : option string;
  set_hotel_id : option string;
  set_is_active : option bool;
  set_sync_frequency : option Z;
  set_created_at : Z
}.

Definition settings (c : Config) : Settings :=
  {| set_id := id c; set_ota_name := ota_name c; set_api_key := api_key c;
     set_api_username := api_username c;
     set_api_password := api_password c;
     set_endpoint_url := endpoint_url c; set_hotel_id := hotel_id c;
     set_is_active := is_active c;
     set_sync_frequency := sync_frequency c;
     set_created_at := created_at c |}.

Definition same_settings (s s' : Store) : Prop :=
  map settings (configurations s') = map settings (configurations s).

(** The requests that edit the configuration table on purpose. *)
Definition edits_configurations (c : Call) : bool :=
  match c with
  | PostConfigurations _ | PutConfigurations _ _ | DeleteConfigurations _ =>
      true
  | _ => false
  end.

(** ** Vocabulary of the further properties *)

(** The row POST /configurations stores for body [b] with name [name]:
    the columns the INSERT lists come from the body, [sync_frequency]
    being 60 when the body has none and NULL when the body has [null];
    the others take their defaults. *)
Definition created_row (now : Z) (s : Store) (b : ConfigBody)
    (name : string) : Config :=
  {| id := next_config_id s; ota_name := name;
     api_key := b_api_key b; api_username := b_api_username b;
     api_password := b_api_password b; endpoint_url := b_endpoint_url b;
     hotel_id := b_hotel_id b; is_active := Some true;
     last_sync_at := None;
     sync_frequency := match b_sync_frequency b with
                       | Js.Undefined => Some 60
                       | Js.Null => None
                       | Js.Value f => Some f
                       end;
     created_at := now; updated_at := now |}.

(** The store with [row] added to the configurations. *)
Definition with_created (s : Store) (row : Config) : Store :=
  {| configurations := configurations s ++ [row];
     sync_logs := sync_logs s;
     next_config_id := next_config_id s + 1;
     next_log_id := next_log_id s;
     collation := collation s |}.

(** No stored configuration has the name [name], as [sql_eq] compares
    names; on plain names this is the comparison of the collation. *)
Definition name_is_free (s : Store) (name : string) : Prop :=
  forall c, In c (configurations s) ->
            sql_eq (collation s) (ota_name c) name = false.

(** The ids of the stored configurations are below the AUTO_INCREMENT
    counter. *)
Definition ids_below_counter (s : Store) : Prop :=
  forall c, In c (configurations s) -> id c < next_config_id s.

(** What a request to a partner offers for one room. *)
Record Offer : Type := {
  offer_room : string;
  offer_rate : Z;
  offer_available : bool
}.

(** The offers in the body of an ARI request. *)
Definition offers (b : Body) : list Offer :=
  match b with
  | XmlAriUpdate doc =>
      map (fun r => {| offer_room := Js.number (bc_room_id r);
                       offer_rate := bc_rate r;
                       offer_available := bc_availability r =? 1 |})
          (bc_rooms doc)
  | JsonAgodaAri doc =>
      flat_map (fun r =>
                  map (fun rate =>
                         {| offer_room := Js.number (ag_RoomId r);
                            offer_rate := ag_Rate rate;
                            offer_available := ag_Availability rate =? 1 |})
                      (ag_Rates r))
               (ag_Rooms doc)
  | JsonAirbnbAri doc =>
      map (fun o => {| offer_room := ab_room_id o;
                       offer_rate := ab_price_amount o;
                       offer_available := ab_availability o |})
          (ab_operations doc)
  | _ => []
  end.

(** The offer the tables of [inv] call for: the price of the room, and
    available when no booking occupies it today. *)
Definition offer_of (inv : Inventory) (r : Room) : Offer :=
  {| offer_room := Js.number (room_id r);
     offer_rate := price_per_night r;
     offer_available :=
       negb (existsb (join_on (inv_today inv) r) (inv_bookings inv)) |}.

(** [l] is in descending order of [key]: no element has a smaller key
    than an element that follows it. *)
Definition descending {A} (key : A -> Z) (l : list A) : Prop :=
  forall i j a b,
    (i < j)%nat -> nth_error l i = Some a -> nth_error l j = Some b ->
    key b <= key a.

(** The rows of a log listing are in the order of the query, newest
    first. *)
Definition newest_first (rows : list Sql.LogRow) : Prop :=
  descending (fun r : Sql.LogRow => sync_started_at (fst r)) rows.

(** The query string of GET /sync-logs for a page of the whole log, the
    page size and the page number written as decimal numerals. *)
Definition page_query (limit page : Z) : LogsQuery :=
  {| q_ota_id := None; q_limit := Some (Js.Decimal limit);
     q_page := Some (Js.Decimal page); q_offset := None |}.

(** The query string of GET /sync-logs when the request has none. *)
Definition no_query : LogsQuery :=
  {| q_ota_id := None; q_limit := None; q_page := None; q_offset := None |}.

(** The page size and the offset GET /sync-logs binds to its
    statement. *)
Definition bound_limit (q : LogsQuery) : option Z :=
  Js.parseInt (match q_limit q with Some l => l | None => Js.Decimal 50 end).

Definition bound_offset (q : LogsQuery) : option Z :=
  match match q_page q with Some p => p | None => Js.Decimal 1 end,
        match q_limit q with Some l => l | None => Js.Decimal 50 end with
  | Js.Decimal page, Js.Decimal limit => Some ((page - 1) * limit)
  | _, _ => q_offset q
  end.

(** ** The read-only routes: listing, statistics and export

    GET /configurations, GET /sync-stats and GET /export-xml/:id each send
    one SELECT of their own.  These statements are not among [Stmt]; what
    the server does with them is [report_error] below, and the journal,
    which lists the statements of [Stmt], does not record them.  A route
    answers with [inl] of an error response or with [inr] of the payload
    it sends. *)

Inductive Interval : Type := Week | Month | Year.

Inductive Report : Type :=
  | ListConfigurations
  | SyncStatistics (since : option Interval)
  | RoomsWithCategories.

(** The columns GET /configurations selects (lines 925-926): all but
    [api_key] and [api_password]. *)
Record ConfigListing : Type := {
  l_id : Z;
  l_ota_name : string;
  l_api_username : option string;
  l_endpoint_url : option string;
  l_hotel_id : option string;
  l_is_active : option bool;
  l_last_sync_at : option Z;
  l_sync_frequency : option Z;
  l_created_at : Z;
  l_updated_at : Z
}.

Definition listing (c : Config) : ConfigListing :=
  {| l_id := id c; l_ota_name := ota_name c;
     l_api_username := api_username c; l_endpoint_url := endpoint_url c;
     l_hotel_id := hotel_id c; l_is_active := is_active c;
     l_last_sync_at := last_sync_at c;
     l_sync_frequency := sync_frequency c;
     l_created_at := created_at c; l_updated_at := updated_at c |}.

(** SELECT id, ota_name, ... FROM ota_configurations
    ORDER BY created_at DESC  (lines 924-929). *)
Definition select_configurations (s : Store) : list ConfigListing :=
  map listing (Sql.order_by_desc created_at (configurations s)).

(** A row of the statistics query. *)
Record StatRow : Type := {
  st_ota_name : string;
  st_total_syncs : Z;
  st_successful_syncs : Z;
  st_failed_syncs : Z;
  st_last_sync_at : option Z;
  st_total_records_processed : option Z
}.

(** [period === 'week'], ['month'], ['year'] (lines 1455-1461); any
    other period adds no condition. *)
Definition interval_of (period : string) : option Interval :=
  if String.eqb period "week" then Some Week
  else if String.eqb period "month" then Some Month
  else if String.eqb period "year" then Some Year
  else None.

(** FROM ota_configurations oc LEFT JOIN ota_sync_logs sl
    ON oc.id = sl.ota_configuration_id: the rows of one configuration,
    [None] standing for the row of NULLs of a configuration without
    entries. *)
Definition joined_logs (s : Store) (c : Config) : list (option SyncLog) :=
  match filter (refers_to (id c)) (sync_logs s) with
  | [] => [None]
  | entries => map Some entries
  end.

(** [sl.sync_started_at >= since]; the comparison with the NULL of a
    missing entry is not true. *)
Definition started_since (since : option Z) (row : option SyncLog) : bool :=
  match since, row with
  | None, _ => true
  | Some t, Some l => t <=? sync_started_at l
  | Some _, None => false
  end.

Definition has_status (st : LogStatus.t) (row : option SyncLog) : bool :=
  match row with
  | Some l =>
      match log_status l, st with
      | LogStatus.success, LogStatus.success
      | LogStatus.failed, LogStatus.failed
      | LogStatus.partial, LogStatus.partial => true
      | _, _ => false
      end
  | None => false
  end.

Definition is_entry (row : option SyncLog) : bool :=
  match row with
  | Some _ => true
  | None => false
  end.

(** MAX and SUM over a column: NULL when no row has a value. *)
Definition sql_max (values : list Z) : option Z :=
  match values with
  | [] => None
  | v :: rest => Some (fold_right Z.max v rest)
  end.

Definition sql_sum (values : list Z) : option Z :=
  match values with
  | [] => None
  | _ => Some (fold_right Z.add 0 values)
  end.

(** The group of one configuration after the WHERE clause, and its row
    of aggregates; a configuration none of whose rows pass has no group.
    [id] being the primary key, GROUP BY oc.id, oc.ota_name makes one
    group of each configuration. *)
Definition stat_group (s : Store) (since : option Z) (c : Config)
  : list (option SyncLog) :=
  if is_true (is_active c)
  then filter (started_since since) (joined_logs s c)
  else [].

Definition stat_row (s : Store) (since : option Z) (c : Config)
  : option StatRow :=
  match stat_group s since c with
  | [] => None
  | group =>
      Some {| st_ota_name := ota_name c;
              st_total_syncs :=
                Z.of_nat (List.length (filter is_entry group));
              st_successful_syncs :=
                Z.of_nat (List.length
                            (filter (has_status LogStatus.success) group));
              st_failed_syncs :=
                Z.of_nat (List.length
                            (filter (has_status LogStatus.failed) group));
              st_last_sync_at :=
                sql_max (collect (option_map sync_started_at) group);
              st_total_records_processed :=
                sql_sum (collect (fun row =>
                                    match row with
                                    | Some l => records_processed l
                                    | None => None
                                    end) group) |}
  end.

(** ORDER BY a column, [before a b] telling that [a] does not come after
    [b] in the order of the column. *)
Fixpoint insert_by {A} (before : A -> A -> bool) (x : A) (l : list A)
  : list A :=
  match l with
  | [] => [x]
  | y :: t => if before x y then x :: l else y :: insert_by before x t
  end.

Definition order_by {A} (before : A -> A -> bool) (l : list A) : list A :=
  fold_right (insert_by before) [] l.

(** The room categories, and the columns of the export query that [Room]
    and [Inventory] leave out. *)
Record Category : Type := {
  category_id : Z;
  category_name : string
}.

Record Catalogue : Type := {
  cat_inventory : Inventory;
  (** rooms.room_category_id *)
  room_category_id : Room -> option Z;
  cat_categories : list Category
}.

(** LEFT JOIN room_categories rc ON r.room_category_id = rc.id, [rc.id]
    being the primary key: the name of the category of the room, if it
    has one. *)
Definition category_of (cat : Catalogue) (r : Room) : option string :=
  match room_category_id cat r with
  | Some k =>
      option_map category_name
        (find (fun rc => category_id rc =? k) (cat_categories cat))
  | None => None
  end.

(** The query of lines 1505-1516: the rows of the availability query of
    a sync, each with the name of the category of the room. *)
Definition select_export (cat : Catalogue) : list (RoomRow * option string) :=
  map (fun row => (row, category_of cat (row_room row)))
      (select_rooms (cat_inventory cat)).

(** The object handed to [js2xmlparser.parse('ota_export', ...)]
    (lines 1519-1542).  The [amenities] element is always empty and is
    left out. *)
Record XmlRoom : Type := {
  xml_id : Z;
  xml_name : string;
  xml_category : option string;
  xml_capacity : Z;
  xml_rate : Z;
  xml_availability : string;
  xml_description : option string
}.

Record XmlExport : Type := {
  xml_attributes : list (string * string);
  xml_hotel_id : option string;
  xml_hotel_name : string;
  xml_rooms : list XmlRoom
}.

(** What [res.set(...)] and [res.send(xmlString)] send. *)
Record Download : Type := {
  dl_content_type : string;
  dl_content_disposition : string;
  dl_document : XmlExport
}.

(** The quotation mark of a header value. *)
Definition double_quote : string := String (ascii_of_nat 34) EmptyString.

Definition xml_room (row : RoomRow * option string) : XmlRoom :=
  let room := row_room (fst row) in
  {| xml_id := room_id room;
     xml_name := room_name room;
     xml_category := snd row;
     xml_capacity := max_occupancy room;
     xml_rate := price_per_night room;
     xml_availability :=
       if is_available (fst row) then "available" else "unavailable";
     xml_description := room_description room |}.

Section Reports.

Variable env : Env.

(** The error of a statement of a read-only route that the server fails
    to run. *)
Variable report_error : Report -> option string.

(** DATE_SUB(t, INTERVAL 1 WEEK), ... MONTH, ... YEAR *)
Variable date_sub : Z -> Interval -> Z.

(** The order of the column [ota_name] under its collation. *)
Variable name_before : string -> string -> bool.

(** The room, category and booking tables as the export query reads
    them. *)
Variable catalogue : Catalogue.

Local Open Scope string_scope.

(** [await db.execute(sql)] for a SELECT of a read-only route. *)
Definition report {A} (r : Report) (rows : Store -> A) : M A :=
  fun w =>
    match report_error r with
    | Some e => (Thrown e, w)
    | None => (Returned (rows (store w)), w)
    end.

(** GET /configurations (lines 922-937). *)
Definition get_configurations : M (Response + list ConfigListing) :=
  try_catch
    (configurations <- report ListConfigurations select_configurations ;;
     ret (inr configurations))
    (fun error => ret (inl internal_server_error)).

(** The statistics query (lines 1464-1477). *)
Definition select_stats (since : option Interval) (s : Store)
  : list StatRow :=
  order_by (fun a b => name_before (st_ota_name a) (st_ota_name b))
           (collect (stat_row s (option_map (date_sub (now env)) since))
                    (configurations s)).

(** GET /sync-stats (lines 1450-1488); the answer repeats the period. *)
Definition get_sync_stats (period : option string)
  : M (Response + string * list StatRow) :=
  try_catch
    (let period := match period with Some p => p | None => "week" end in
     syncStats <- report (SyncStatistics (interval_of period))
                         (select_stats (interval_of period)) ;;
     ret (inr (period, syncStats)))
    (fun error => ret (inl internal_server_error)).

(** GET /export-xml/:id (lines 1491-1557). *)
Definition get_export_xml (i : Z) : M (Response + Download) :=
  try_catch
    (configs <- query env (SelectById i) (fun s => Sql.select_by_id s i) ;;
     match configs with
     | [] =>
         ret (inl (status_json 404
                     (ErrorBody "OTA configuration not found")))
     | config :: _ =>
         rooms <- report RoomsWithCategories
                         (fun _ => select_export catalogue) ;;
         let xmlData :=
           {| xml_attributes :=
                [("xmlns:xsi", "http://www.w3.org/2001/XMLSchema-instance");
                 ("version", "1.0")];
              xml_hotel_id := hotel_id config;
              xml_hotel_name := "Grand Hotel";
              xml_rooms := map xml_room rooms |} in
         ret (inr {| dl_content_type := "application/xml";
                     dl_content_disposition :=
                       "attachment; filename=" ++ double_quote ++
                       "ota_export_" ++ ota_name config ++ "_" ++
                       today_text env ++ ".xml" ++ double_quote;
                     dl_document := xmlData |})
     end)
    (fun error => ret (inl internal_server_error)).

End Reports.


(** No entry of the log has status partial. *)
Definition no_partial_entries (s : Store) : Prop :=
  forall l, In l (sync_logs s) -> log_status l <> LogStatus.partial.

(** ** The middleware in front of the routes

    [authenticateToken], [requireAdmin], [requireManager] and
    [optionalAuth] of the middleware (lines 193-274 of
    [src/middleware/validation.js]).  Every route of the router is
    registered behind [authenticateToken] and [requireManager]. *)

Module Role.
Inductive t : Type := admin | manager | staff.
End Role.

(** The columns of [users] the middleware selects (schema.sql lines
    8-20); [role] and [is_active] have defaults but may be NULL. *)
Record User : Type := {
  user_id : Z;
  user_username : string;
  user_email : string;
  user_role : option Role.t;
  user_is_active : option bool
}.

(** What [jwt.verify(token, process.env.JWT_SECRET)] does: it returns
    the payload, whose [userId] the token was signed with, or throws an
    error of the given name. *)
Inductive Verified : Type :=
  | Payload (userId : Z)
  | JwtError (name : string).

(** What the middleware cannot control: the verdict of the JWT library
    on a token, the users table, and whether the server runs the SELECT
    on it. *)
Record Guard : Type := {
  jwt_verify : string -> Verified;
  users : list User;
  users_error : option string
}.

(** A middleware calls [next()], here with what it attaches to the
    request, or answers the request itself. *)
Inductive Passage (A : Type) : Type :=
  | Next (a : A)
  | Reply (r : Response).
Arguments Next {A} a.
Arguments Reply {A} r.

(** [s.split(sep)] for a separator of one character. *)
Fixpoint js_split (sep : ascii) (s : string) : list string :=
  match s with
  | EmptyString => [EmptyString]
  | String c t =>
      if Ascii.eqb c sep then EmptyString :: js_split sep t
      else match js_split sep t with
           | [] => [String c EmptyString]
           | piece :: pieces => String c piece :: pieces
           end
  end.

(** [authHeader && authHeader.split(' ')[1]]: [None] is undefined. *)
Definition token_of (authHeader : option string) : option string :=
  match authHeader with
  | None => None
  | Some h =>
      if String.eqb h EmptyString then Some EmptyString
      else nth_error (js_split " " h) 1
  end.

(** SELECT id, username, email, role, is_active FROM users
    WHERE id = ? AND is_active = TRUE *)
Definition select_active_user (g : Guard) (userId : Z) : list User :=
  filter (fun u => (user_id u =? userId) && is_true (user_is_active u))
         (users g).

(** Lines 197-226.  An error of the database is caught by the same
    handler as an error of the JWT library; its name is not
    TokenExpiredError. *)
Definition authenticateToken (g : Guard) (authHeader : option string)
  : Passage User :=
  let token := token_of authHeader in
  if Js.falsy token then
    Reply (status_json 401 (ErrorBody "Access token required"))
  else
    match jwt_verify g (Js.interp token) with
    | Payload userId =>
        match users_error g with
        | Some _ => Reply (status_json 403 (ErrorBody "Invalid token"))
        | None =>
            match select_active_user g userId with
            | [] =>
                Reply (status_json 401
                         (ErrorBody "Invalid token - user not found"))
            | user :: _ => Next user
            end
        end
    | JwtError name =>
        if String.eqb name "TokenExpiredError"
        then Reply (status_json 401 (ErrorBody "Token expired"))
        else Reply (status_json 403 (ErrorBody "Invalid token"))
    end.

(** Lines 229-234: [req.user.role !== 'admin']. *)
Definition requireAdmin (user : User) : Passage unit :=
  match user_role user with
  | Some Role.admin => Next tt
  | _ => Reply (status_json 403 (ErrorBody "Admin access required"))
  end.

(** Lines 237-242: [!['admin', 'manager'].includes(req.user.role)]. *)
Definition requireManager (user : User) : Passage unit :=
  match user_role user with
  | Some Role.admin | Some Role.manager => Next tt
  | _ => Reply (status_json 403 (ErrorBody "Manager access required"))
  end.

(** Lines 245-267: [req.user] after the middleware, [None] being null;
    it always calls [next()]. *)
Definition optionalAuth (g : Guard) (authHeader : option string)
  : option User :=
  let token := token_of authHeader in
  if Js.falsy token then None
  else
    match jwt_verify g (Js.interp token) with
    | Payload userId =>
        match users_error g with
        | Some _ => None
        | None => hd_error (select_active_user g userId)
        end
    | JwtError _ => None
    end.

(** A handler registered behind [authenticateToken, requireManager], as
    the routes of the router are. *)
Definition behind_manager_guard (g : Guard) (authHeader : option string)
    (handler : M Response) : M Response :=
  match authenticateToken g authHeader with
  | Reply r => ret r
  | Next user =>
      match requireManager user with
      | Reply r => ret r
      | Next _ => handler
      end
  end.

(** A string without a space. *)
Fixpoint spaceless (s : string) : bool :=
  match s with
  | EmptyString => true
  | String c t => negb (Ascii.eqb c " ") && spaceless t
  end.

(** UPDATE users SET is_active = ? WHERE id = ?  (line 261), the second
    parameter being the text of the path: the rows it changes are those
    whose [id] the server finds equal to that text. *)
Definition set_user_status (table : list User) (i : Js.Param)
    (active : bool) : list User :=
  map (fun u =>
         if match Js.compared i with
            | Some k => user_id u =? k
            | None => false
            end
         then
           {| user_id := user_id u; user_username := user_username u;
              user_email := user_email u; user_role := user_role u;
              user_is_active := Some active |}
         else u)
      table.

(** [parseInt(id) === req.user.id]  (line 255); NaN is equal to
    nothing. *)
Definition is_own_account (i : Js.Param) (user : User) : bool :=
  match Js.parseInt i with
  | Some k => k =? user_id user
  | None => false
  end.

(** PUT /users/:id/status behind [authenticateToken, requireAdmin] (lines
    244-273 of [src/routes/auth.js]): the answer and the users table
    afterwards.  [i] is the text in the place of [:id]: the route reads
    it with [parseInt] to compare it with the id of the user who sends
    the request, and hands the text itself to the UPDATE.  [is_active]
    is the boolean of the body, [None] when the body has no boolean
    there; [update_error] is the error of the UPDATE when the server
    does not run it (a lost connection, or a text the server refuses to
    compare with a number). *)
Definition put_user_status (g : Guard) (update_error : option string)
    (authHeader : option string) (i : Js.Param) (is_active : option bool)
  : Response * list User :=
  match authenticateToken g authHeader with
  | Reply r => (r, users g)
  | Next user =>
      match requireAdmin user with
      | Reply r => (r, users g)
      | Next _ =>
          match is_active with
          | None =>
              (status_json 400 (ErrorBody "is_active must be a boolean"),
               users g)
          | Some active =>
              if is_own_account i user then
                (status_json 400
                   (ErrorBody "Cannot deactivate your own account"),
                 users g)
              else
                match update_error with
                | Some _ => (internal_server_error, users g)
                | None =>
                    (json (MessageBody
                             (if active
                              then "User activated successfully"
                              else "User deactivated successfully")),
                     set_user_status (users g) i active)
                end
          end
      end
  end.

(** * Properties *)

(** ** The handler computes what the task functions say *)

Section Runs.

Variable env : Env.

Lemma logSyncOperation_run config st msg records w :
  logSyncOperation env (id config) SyncType.availability st msg records w =
  (Returned tt,
   {| store := write_log env config st msg records (store w);
      journal := journal w ++ [Executed (log_stmt config st msg records)] |}).
Proof.
  unfold logSyncOperation, try_catch, bind, execute, ret, write_log,
    log_stmt, record, set_store. simpl.
  destruct (db_error env _); [reflexivity|].
  destruct (Sql.insert_log _ _ _ _ _ _ _) as [[k|e] s']; reflexivity.
Qed.

Lemma syncBookingComARI_run config rooms w :
  syncBookingComARI env config rooms w =
  (Returned (adapter_result env BookingCom config rooms),
   record (Http (ari_request env BookingCom config rooms)) w).
Proof.
  unfold syncBookingComARI, try_catch, bind, axios, ret, adapter_result.
  simpl. destruct (net env _); reflexivity.
Qed.

Lemma syncAgodaARI_run config rooms w :
  syncAgodaARI env config rooms w =
  (Returned (adapter_result env Agoda config rooms),
   record (Http (ari_request env Agoda config rooms)) w).
Proof.
  unfold syncAgodaARI, try_catch, bind, axios, ret, adapter_result.
  simpl. destruct (net env _); reflexivity.
Qed.

Lemma syncAirbnbARI_run config rooms w :
  syncAirbnbARI env config rooms w =
  (Returned (adapter_result env Airbnb config rooms),
   record (Http (ari_request env Airbnb config rooms)) w).
Proof.
  unfold syncAirbnbARI, try_catch, bind, axios, ret, adapter_result.
  simpl. destruct (net env _); reflexivity.
Qed.

(** The body of the [try] block after the adapter has returned [r]:
    lines 1218-1233. *)
Lemma after_dispatch_run config r records w :
  (logSyncOperation env (id config) SyncType.availability
     (if SyncResult.success r then LogStatus.success else LogStatus.failed)
     (SyncResult.message r) records ;;
   execute env (TouchLastSync (id config))
           (fun s => Sql.touch_last_sync (now env) s (id config)) ;;
   ret r) w =
  let s1 := write_log env config (status_of r) (SyncResult.message r)
              records (store w) in
  let j1 := (journal w ++
             [Executed (log_stmt config (status_of r) (SyncResult.message r)
                          records);
              Executed (TouchLastSync (id config))])%list in
  match db_error env (TouchLastSync (id config)) with
  | Some e => (Thrown e, {| store := s1; journal := j1 |})
  | None =>
      (Returned r,
       {| store := snd (Sql.touch_last_sync (now env) s1 (id config));
          journal := j1 |})
  end.
Proof.
  unfold bind at 1.
  change (if SyncResult.success r then LogStatus.success
          else LogStatus.failed) with (status_of r).
  rewrite logSyncOperation_run.
  unfold bind, execute, ret, record, set_store. simpl.
  rewrite <- app_assoc. simpl.
  destruct (db_error env (TouchLastSync (id config))); reflexivity.
Qed.

Lemma performOTASync_run config w :
  performOTASync env config w =
  (Returned (task_result env config),
   {| store := task_store env config (store w);
      journal := journal w ++ task_events env config |}).
Proof.
  unfold performOTASync, task_result, task_store, task_events.
  unfold try_catch at 1. unfold bind at 1. unfold query, execute at 1.
  simpl.
  destruct (db_error env (SelectRooms (id config))) as [e|].
  - unfold bind. rewrite logSyncOperation_run. unfold ret. simpl.
    rewrite <- app_assoc. reflexivity.
  - fold (snapshot env config).
    destruct (partner_of (Js.toLowerCase (ota_name config))) as [p|].
    + unfold bind at 1.
      destruct p;
        rewrite ?syncBookingComARI_run, ?syncAgodaARI_run,
          ?syncAirbnbARI_run;
        rewrite after_dispatch_run; cbv zeta; fold (records_of env config);
        (destruct (db_error env (TouchLastSync (id config))) as [e|];
         [ unfold bind; rewrite logSyncOperation_run; unfold ret; simpl;
           rewrite <- !app_assoc; reflexivity
         | simpl; rewrite <- !app_assoc; reflexivity ]).
    + unfold bind, throw. rewrite logSyncOperation_run. unfold ret. simpl.
      rewrite <- app_assoc. reflexivity.
Qed.

End Runs.

(** ** The availability query *)

Lemma join_on_occupies today r b :
  join_on today r b = true <-> occupies today (room_id r) b.
Proof.
  unfold join_on, occupies.
  rewrite !andb_true_iff, Z.leb_le, Z.gtb_lt.
  destruct (booking_room_id b) as [rid|].
  - rewrite Z.eqb_eq. split.
    + intros [[[-> Hs] Hi] Ho]. repeat split; try lia.
      destruct (booking_status b); simpl in Hs; try discriminate; auto.
    + intros [Hr [Hs Hd]]. inversion Hr; subst.
      repeat split; try lia.
      destruct Hs as [-> | ->]; reflexivity.
  - split.
    + intros [[[Hf _] _] _]. discriminate.
    + intros [Hr _]. discriminate.
Qed.

Lemma filter_nil_iff {A} (f : A -> bool) (l : list A) :
  filter f l = [] <-> forall x, In x l -> f x = false.
Proof.
  induction l as [|a l IH]; simpl.
  - split; [intros _ x [] | reflexivity].
  - destruct (f a) eqn:Ha.
    + split; [discriminate|].
      intros H. specialize (H a (or_introl eq_refl)). congruence.
    + rewrite IH. split.
      * intros H x [<- | Hx]; auto.
      * intros H x Hx. apply H. now right.
Qed.

Lemma select_rooms_row inv row :
  In row (select_rooms inv) <->
  In (row_room row) (inv_rooms inv) /\
  room_is_active (row_room row) = true /\
  is_available row =
    (Z.of_nat (List.length (filter (join_on (inv_today inv) (row_room row))
                                   (inv_bookings inv))) =? 0).
Proof.
  unfold select_rooms. rewrite in_map_iff. split.
  - intros [r [<- Hr]]. apply filter_In in Hr as [Hin Hact]. simpl. auto.
  - intros [Hin [Hact Hav]]. exists (row_room row). split.
    + destruct row as [rr av]. simpl in *. subst. reflexivity.
    + apply filter_In. auto.
Qed.


(** Every active room has its row in the result. *)
Lemma select_rooms_complete inv r :
  In r (inv_rooms inv) -> room_is_active r = true ->
  exists row, In row (select_rooms inv) /\ row_room row = r.
Proof.
  intros Hin Hact.
  eexists {| row_room := r; is_available := _ |}. split; [|reflexivity].
  apply select_rooms_row. simpl. auto.
Qed.



(** ** Sync of all active configurations *)

Section SyncAll.

Variable env : Env.

Lemma sync_task_run config w :
  sync_task env config w =
  (Returned (partner_result env config),
   {| store := task_store env config (store w);
      journal := journal w ++ task_events env config |}).
Proof.
  unfold sync_task, bind. rewrite performOTASync_run. reflexivity.
Qed.

Lemma promise_all_run configs : forall w,
  promise_all (sync_task env) configs w =
  (Returned (map (partner_result env) configs),
   {| store := tasks_store env configs (store w);
      journal := journal w ++ flat_map (task_events env) configs |}).
Proof.
  induction configs as [|c configs IH]; intros w; simpl.
  - unfold ret. rewrite app_nil_r. destruct w; reflexivity.
  - unfold bind at 1. rewrite sync_task_run.
    unfold bind at 1. rewrite IH. unfold ret. simpl.
    rewrite <- app_assoc. reflexivity.
Qed.

(** The events of POST /sync-all when the configurations can be read
    and some are active. *)
Lemma post_sync_all_run w :
  db_error env SelectActive = None ->
  Sql.select_active (store w) <> [] ->
  let configs := Sql.select_active (store w) in
  let outcome := map (partner_result env) configs in
  post_sync_all env w =
  (Returned
     (json (SyncAllBody
        {| agg_message :=
             ("Sync completed: " ++
              Js.number (Z.of_nat (List.length (filter pr_success outcome)))
              ++ " successful, " ++
              Js.number (Z.of_nat (List.length
                 (filter (fun r => negb (pr_success r)) outcome)))
              ++ " failed")%string;
           total_otas := Z.of_nat (List.length configs);
           successful_syncs :=
             Z.of_nat (List.length (filter pr_success outcome));
           failed_syncs :=
             Z.of_nat (List.length
               (filter (fun r => negb (pr_success r)) outcome));
           results := outcome;
           synced_at := clock_ms env |})),
   {| store := tasks_store env configs (store w);
      journal := journal w ++ Executed SelectActive ::
                 flat_map (task_events env) configs |}).
Proof.
  intros Hdb Hne configs outcome.
  assert (Hlen : (Z.of_nat (List.length configs) =? 0) = false).
  { apply Z.eqb_neq. subst configs.
    destruct (Sql.select_active (store w)); [congruence|]. simpl. lia. }
  unfold post_sync_all, try_catch, bind at 1, query, execute.
  rewrite Hdb. simpl. fold configs. rewrite Hlen.
  unfold bind. rewrite promise_all_run. unfold ret. simpl.
  rewrite <- app_assoc. reflexivity.
Qed.

Lemma task_succeeds_iff config :
  store_serves env config ->
  SyncResult.success (task_result env config) =
  negb (dispatch_fails env config).
Proof.
  intros [Hq Ht]. unfold task_result, dispatch_fails.
  rewrite Hq.
  destruct (partner_of (Js.toLowerCase (ota_name config))); simpl.
  - rewrite Ht. now rewrite negb_involutive.
  - reflexivity.
Qed.

(** A task succeeds exactly when it does not fail in one of the three
    ways. *)
Lemma task_fails_spec config :
  SyncResult.success (task_result env config) =
  negb (task_fails env config).
Proof.
  unfold task_result, task_fails, dispatch_fails.
  destruct (db_error env (SelectRooms (id config))); [reflexivity|].
  destruct (partner_of (Js.toLowerCase (ota_name config))); [|reflexivity].
  destruct (db_error env (TouchLastSync (id config))).
  - now rewrite orb_true_r.
  - now rewrite orb_false_r, negb_involutive.
Qed.

Lemma dispatch_fails_task_fails config :
  dispatch_fails env config = true -> task_fails env config = true.
Proof.
  unfold task_fails. intros ->.
  destruct (db_error env (SelectRooms (id config))); reflexivity.
Qed.

End SyncAll.

Lemma filter_length_le {A} (f g : A -> bool) (l : list A) :
  (forall x, f x = true -> g x = true) ->
  (List.length (filter f l) <= List.length (filter g l))%nat.
Proof.
  intros H. induction l as [|a l IH]; simpl; [lia|].
  destruct (f a) eqn:Hf.
  - rewrite (H a Hf). simpl. lia.
  - destruct (g a); simpl; lia.
Qed.

Lemma filter_partition_length {A} (f : A -> bool) (l : list A) :
  (List.length (filter f l) +
   List.length (filter (fun x => negb (f x)) l) = List.length l)%nat.
Proof.
  induction l as [|a l IH]; simpl; [reflexivity|].
  destruct (f a); simpl; lia.
Qed.

Lemma filter_map_swap {A B} (g : A -> B) (f : B -> bool) (l : list A) :
  filter f (map g l) = map g (filter (fun x => f (g x)) l).
Proof.
  induction l as [|a l IH]; simpl; [reflexivity|].
  destruct (f (g a)); simpl; now rewrite IH.
Qed.

Lemma collect_app {A B} (f : A -> option B) (l1 l2 : list A) :
  collect f (l1 ++ l2) = collect f l1 ++ collect f l2.
Proof.
  induction l1 as [|a l1 IH]; simpl; [reflexivity|].
  destruct (f a); simpl; now rewrite IH.
Qed.

Lemma rooms_queries_task env config :
  rooms_queries (task_events env config) = [id config].
Proof.
  unfold task_events, rooms_queries. simpl.
  destruct (db_error env (SelectRooms (id config))); [reflexivity|].
  destruct (partner_of _); [|reflexivity]. simpl.
  destruct (db_error env (TouchLastSync (id config))); reflexivity.
Qed.

Lemma rooms_queries_tasks env configs :
  rooms_queries (flat_map (task_events env) configs) = map id configs.
Proof.
  induction configs as [|c configs IH]; [reflexivity|].
  cbn [flat_map map]. unfold rooms_queries in *. rewrite collect_app.
  fold (rooms_queries (task_events env c)).
  rewrite rooms_queries_task, IH. reflexivity.
Qed.

Lemma requests_task env config :
  requests (task_events env config) =
  match task_request env config with
  | Some r => [r]
  | None => []
  end.
Proof.
  unfold task_events, task_request, requests. simpl.
  destruct (db_error env (SelectRooms (id config))); [reflexivity|].
  destruct (partner_of _); [|reflexivity]. simpl.
  destruct (db_error env (TouchLastSync (id config))); reflexivity.
Qed.

Lemma requests_tasks env configs :
  requests (flat_map (task_events env) configs) =
  collect (task_request env) configs.
Proof.
  induction configs as [|c configs IH]; [reflexivity|].
  cbn [flat_map collect]. unfold requests in *. rewrite collect_app.
  fold (requests (task_events env c)).
  rewrite requests_task, IH.
  destruct (task_request env c); reflexivity.
Qed.

Lemma in_collect {A B} (f : A -> option B) (l : list A) (y : B) :
  In y (collect f l) <-> exists x, In x l /\ f x = Some y.
Proof.
  induction l as [|a l IH]; simpl.
  - split; [intros [] | intros [x [[] _]]].
  - destruct (f a) as [b|] eqn:Hfa; simpl; rewrite IH; split.
    + intros [<- | [x [Hx Hf]]]; [exists a | exists x]; auto.
    + intros [x [[<- | Hx] Hf]]; [left; congruence | right; exists x; auto].
    + intros [x [Hx Hf]]. exists x; auto.
    + intros [x [[<- | Hx] Hf]]; [congruence | exists x; auto].
Qed.

(** Counterexample to C3: two active configurations whose dispatches
    both succeed (K = 0), in an environment where the UPDATE of
    [last_sync_at] fails.  Both partners receive their request and log
    a success, and POST /sync-all reports 0 successes and 2 failures. *)
Lemma sync_all_counts_store_failures :
  let w := Sample.database default_collation
             [Sample.config 1 "agoda"; Sample.config 2 "airbnb"] [] in
  let env := Sample.update_fails in
  filter (dispatch_fails env) (Sql.select_active (store w)) = [] /\
  (exists agg w',
     post_sync_all env w = (Returned (json (SyncAllBody agg)), w') /\
     total_otas agg = 2 /\
     successful_syncs agg = 0 /\ failed_syncs agg = 2 /\
     List.length (requests (journal w')) = 2%nat /\
     map log_status (sync_logs (store w')) =
       [LogStatus.success; LogStatus.failed;
        LogStatus.success; LogStatus.failed]) /\
  ~ counts_by_dispatch env w.
Proof.
  intros w env. split; [reflexivity|]. split.
  - eexists. eexists. split; [reflexivity|]. repeat split.
  - intros (agg & w' & Hrun & _ & Hfailed).
    vm_compute in Hrun. injection Hrun as Hagg _.
    rewrite <- Hagg in Hfailed. vm_compute in Hfailed. discriminate.
Qed.

(** C3, amended.  When the active configurations can be read and there
    are N > 0 of them (the stored configurations whose [is_active] is
    true), POST /sync-all answers 200 with one result per configuration,
    in their order, whatever the partner endpoints and the database do
    to the single tasks.  No task stops another: every task runs its
    availability query, and every task that gets as far as an adapter
    sends its request.  A result is a failure exactly when the task
    fails: its query fails, or its dispatch fails, or the UPDATE of
    [last_sync_at] fails.  So successes and failures add up to N, the
    failures are at least the K failing dispatches, and they are exactly
    K, with N - K successes, when the store serves every task. *)
Theorem sync_all_counts (env : Env) (w : World)
    (Hread : db_error env SelectActive = None)
    (Hsome : Sql.select_active (store w) <> []) :
  let configs := Sql.select_active (store w) in
  let N := Z.of_nat (List.length configs) in
  let K := Z.of_nat (List.length (filter (dispatch_fails env) configs)) in
  let F := Z.of_nat (List.length (filter (task_fails env) configs)) in
  configs =
    filter (fun c => is_true (is_active c)) (configurations (store w)) /\
  exists agg w',
    post_sync_all env w = (Returned (json (SyncAllBody agg)), w') /\
    total_otas agg = N /\
    results agg = map (partner_result env) configs /\
    map pr_ota_name (results agg) = map ota_name configs /\
    map pr_success (results agg) =
      map (fun c => negb (task_fails env c)) configs /\
    successful_syncs agg + failed_syncs agg = N /\
    successful_syncs agg = N - F /\
    failed_syncs agg = F /\
    K <= failed_syncs agg /\
    rooms_queries (journal w') = rooms_queries (journal w) ++ map id configs /\
    requests (journal w') =
      requests (journal w) ++ collect (task_request env) configs /\
    store w' = tasks_store env configs (store w) /\
    ((forall c, In c configs -> store_serves env c) ->
     successful_syncs agg = N - K /\ failed_syncs agg = K).
Proof.
  intros configs N K F.
  pose proof (post_sync_all_run env w Hread Hsome) as Hrun.
  cbv zeta in Hrun. fold configs in Hrun.
  split; [reflexivity|].
  eexists. eexists. split; [exact Hrun|]. cbn [total_otas results
    successful_syncs failed_syncs journal store].
  assert (Hsum : Z.of_nat (List.length
                   (filter pr_success (map (partner_result env) configs))) +
                 Z.of_nat (List.length
                   (filter (fun r => negb (pr_success r))
                           (map (partner_result env) configs))) = N).
  { rewrite <- Nat2Z.inj_add, filter_partition_length, length_map.
    reflexivity. }
  assert (HF : Z.of_nat (List.length
                 (filter (fun r => negb (pr_success r))
                         (map (partner_result env) configs))) = F).
  { rewrite filter_map_swap, length_map. unfold F. do 2 f_equal.
    apply filter_ext. intros c. simpl.
    rewrite task_fails_spec. apply negb_involutive. }
  assert (HKF : K <= F).
  { unfold K, F. apply Nat2Z.inj_le, filter_length_le.
    intros c. apply dispatch_fails_task_fails. }
  assert (HK : (forall c, In c configs -> store_serves env c) ->
               Z.of_nat (List.length
                 (filter (fun r => negb (pr_success r))
                         (map (partner_result env) configs))) = K).
  { intros Hserves.
    rewrite filter_map_swap, length_map. unfold K. do 2 f_equal.
    apply filter_ext_in. intros c Hc. simpl.
    rewrite task_succeeds_iff by auto. apply negb_involutive. }
  split; [reflexivity|]. split; [reflexivity|].
  split; [rewrite map_map; reflexivity|].
  split.
  { rewrite map_map. apply map_ext. intros c. simpl.
    apply task_fails_spec. }
  split; [exact Hsum|]. split; [lia|]. split; [exact HF|].
  split; [lia|]. split.
  { unfold rooms_queries. rewrite collect_app. f_equal.
    cbn [collect]. apply rooms_queries_tasks. }
  split.
  { unfold requests. rewrite collect_app. f_equal.
    cbn [collect]. apply requests_tasks. }
  split; [reflexivity|].
  intros Hserves. specialize (HK Hserves). lia.
Qed.

Lemma sync_all_counts_witness :
  let w := Sample.database default_collation
             [Sample.config 1 "agoda"; Sample.config 2 "expedia";
              Sample.config 3 "airbnb"] [] in
  exists agg w',
    post_sync_all Sample.quiet w = (Returned (json (SyncAllBody agg)), w') /\
    successful_syncs agg = 2 /\ failed_syncs agg = 1 /\
    List.length (requests (journal w')) = 2%nat.
Proof.
  intros w.
  assert (Hsome : Sql.select_active (store w) <> [])
    by (vm_compute; discriminate).
  destruct (sync_all_counts Sample.quiet w eq_refl Hsome)
    as (_ & agg & w' & Hrun & _ & _ & _ & _ & _ & _ & _ & _ & _ & Hreq & _
        & Hcount).
  exists agg, w'. split; [exact Hrun|].
  destruct Hcount as [Hs Hf]; [intros c _; split; reflexivity|].
  split; [exact Hs|]. split; [exact Hf|].
  rewrite Hreq. reflexivity.
Defined.

(** Counterexample to C1: two active configurations, and a booking of
    room 7 confirmed between the availability queries of their tasks.
    The query runs twice, and no single list of rows accounts for the two
    requests: Agoda is told the room is free, Airbnb that it is taken. *)
Lemma sync_all_snapshot_not_shared :
  let w := Sample.database default_collation
             [Sample.config 1 "agoda"; Sample.config 2 "airbnb"] [] in
  let events := journal (snd (post_sync_all Sample.moving w)) in
  ~ shared_snapshot Sample.moving (Sql.select_active (store w)) events /\
  rooms_queries events = [1; 2] /\
  ~ exists rooms,
      forall c p, In c (Sql.select_active (store w)) ->
        partner_of (Js.toLowerCase (ota_name c)) = Some p ->
        In (ari_request Sample.moving p c rooms) (requests events).
Proof.
  intros w events.
  assert (Hq : rooms_queries events = [1; 2]) by reflexivity.
  assert (Hno : ~ exists rooms,
      forall c p, In c (Sql.select_active (store w)) ->
        partner_of (Js.toLowerCase (ota_name c)) = Some p ->
        In (ari_request Sample.moving p c rooms) (requests events)).
  { intros [rooms H].
    pose proof (H (Sample.config 1 "agoda") Agoda
                  (or_introl eq_refl) eq_refl) as H1.
    pose proof (H (Sample.config 2 "airbnb") Airbnb
                  (or_intror (or_introl eq_refl)) eq_refl) as H2.
    change (requests events) with
      [ari_request Sample.moving Agoda (Sample.config 1 "agoda")
         (select_rooms Sample.free);
       ari_request Sample.moving Airbnb (Sample.config 2 "airbnb")
         (select_rooms Sample.taken)] in H1, H2.
    destruct H1 as [H1 | [H1 | []]]; [|discriminate H1].
    destruct H2 as [H2 | [H2 | []]]; [discriminate H2|].
    destruct rooms as [|row [|row' rooms]]; try discriminate H1.
    cbv in H1, H2.
    destruct row as [r av]. destruct av; [|discriminate H1].
    discriminate H2. }
  split; [|split; [exact Hq | exact Hno]].
  intros [Hone _]. rewrite Hq in Hone. discriminate Hone.
Qed.

(** C1, amended.  POST /sync-all computes no snapshot of its own: the
    task of each active configuration runs the availability query itself,
    so N configurations make N queries, and each adapter that is called
    receives the rows its own task read.  The partners receive the same
    rows when the room and booking tables and the date are the same for
    all the queries of the call. *)
Theorem sync_all_snapshot_per_task (env : Env) (w : World)
    (Hread : db_error env SelectActive = None)
    (Hsome : Sql.select_active (store w) <> []) :
  let configs := Sql.select_active (store w) in
  exists events,
    journal (snd (post_sync_all env w)) =
      journal w ++ Executed SelectActive :: events /\
    rooms_queries events = map id configs /\
    requests events = collect (task_request env) configs /\
    forall inv,
      (forall c, In c configs -> rooms_view env (id c) = inv) ->
      forall r, In r (requests events) ->
        exists c p, In c configs /\
                    r = ari_request env p c (select_rooms inv).
Proof.
  intros configs.
  pose proof (post_sync_all_run env w Hread Hsome) as Hrun.
  cbv zeta in Hrun. fold configs in Hrun.
  exists (flat_map (task_events env) configs).
  rewrite Hrun. cbn [snd journal].
  split; [reflexivity|].
  split; [apply rooms_queries_tasks|].
  split; [apply requests_tasks|].
  intros inv Hsame r Hr.
  rewrite requests_tasks in Hr. apply in_collect in Hr as [c [Hc Hreq]].
  unfold task_request in Hreq.
  destruct (db_error env (SelectRooms (id c))); [discriminate|].
  destruct (partner_of (Js.toLowerCase (ota_name c))) as [p|];
    [|discriminate].
  exists c, p. split; [exact Hc|].
  injection Hreq as <-. unfold snapshot. now rewrite (Hsame c Hc).
Qed.

Lemma sync_all_snapshot_per_task_witness :
  let w := Sample.database default_collation
             [Sample.config 1 "agoda"; Sample.config 2 "airbnb"] [] in
  exists events,
    journal (snd (post_sync_all Sample.moving w)) =
      journal w ++ Executed SelectActive :: events /\
    rooms_queries events = [1; 2].
Proof.
  intros w.
  assert (Hsome : Sql.select_active (store w) <> [])
    by (vm_compute; discriminate).
  destruct (sync_all_snapshot_per_task Sample.moving w eq_refl Hsome)
    as (events & Hj & Hq & _).
  exists events. split; [exact Hj | exact Hq].
Defined.

(** ** Sync of one configuration *)

Lemma post_sync_run env i w c rest :
  db_error env (SelectActiveById i) = None ->
  Sql.select_active_by_id (store w) i = c :: rest ->
  post_sync env i w =
  (Returned
     (json (SyncBody
              (if SyncResult.success (task_result env c)
               then "Sync completed successfully" else "Sync failed")
              (SyncResult.success (task_result env c))
              (SyncResult.message (task_result env c))
              (ota_name c) (clock_ms env))),
   {| store := task_store env c (store w);
      journal := journal w ++ Executed (SelectActiveById i) ::
                 task_events env c |}).
Proof.
  intros Hdb Hsel.
  unfold post_sync, try_catch, bind at 1, query, execute.
  rewrite Hdb. simpl. rewrite Hsel.
  unfold bind. rewrite performOTASync_run. unfold ret. simpl.
  rewrite <- app_assoc. reflexivity.
Qed.

Lemma write_log_configurations env c st msg n s :
  configurations (write_log env c st msg n s) = configurations s.
Proof.
  unfold write_log, Sql.insert_log.
  destruct (db_error env _); [reflexivity|].
  destruct (existsb _ _); reflexivity.
Qed.

Lemma hd_error_filter_map {A} (f : A -> bool) (g : A -> A) (l : list A) :
  (forall x, f (g x) = f x) ->
  hd_error (filter f (map g l)) = option_map g (hd_error (filter f l)).
Proof.
  intros Hfg. induction l as [|a l IH]; simpl; [reflexivity|].
  rewrite Hfg. destruct (f a); simpl; auto.
Qed.

Lemma lookup_touch now s i :
  option_map last_sync_at (lookup (snd (Sql.touch_last_sync now s i)) i) =
  option_map (fun _ => Some now) (lookup s i).
Proof.
  unfold lookup, Sql.select_by_id, Sql.touch_last_sync. simpl.
  rewrite hd_error_filter_map.
  - destruct (hd_error (filter (has_id i) (configurations s))) as [c|] eqn:Hc;
      simpl; [|reflexivity].
    assert (Hid : has_id i c = true).
    { destruct (filter (has_id i) (configurations s)) as [|c' t] eqn:Hf;
        simpl in Hc; [discriminate|].
      injection Hc as ->.
      assert (In c (filter (has_id i) (configurations s)))
        by (rewrite Hf; now left).
      now apply filter_In in H. }
    rewrite Hid. reflexivity.
  - intros c. unfold has_id. destruct (id c =? i) eqn:E; simpl; auto.
Qed.

Lemma select_active_by_id_lookup s i c :
  hd_error (Sql.select_active_by_id s i) = Some c ->
  id c = i /\ lookup s i <> None.
Proof.
  unfold Sql.select_active_by_id, lookup, Sql.select_by_id.
  induction (configurations s) as [|a l IH]; simpl; [discriminate|].
  destruct (has_id i a) eqn:Ha; simpl.
  - destruct (is_true (is_active a)); simpl.
    + intros [= ->]. split; [now apply Z.eqb_eq | discriminate].
    + intros H. split; [apply IH, H | discriminate].
  - exact IH.
Qed.

(** Counterexample to C2: the active configuration 2 is named "expedia".
    POST /sync/2 is a sync attempt (it answers 200 with the failed
    outcome), and [last_sync_at] of configuration 2 is still NULL. *)
Lemma sync_unsupported_leaves_last_sync :
  let w := Sample.database default_collation
             [Sample.config 1 "agoda"; Sample.config 2 "expedia"] [] in
  fst (post_sync Sample.quiet 2 w) =
    Returned (json (SyncBody "Sync failed" false "Unsupported OTA: expedia"
                             "expedia" 1000000)) /\
  option_map last_sync_at (lookup (store (snd (post_sync Sample.quiet 2 w))) 2)
    = Some None /\
  ~ last_sync_is_now Sample.quiet 2 w.
Proof.
  intros w. split; [reflexivity|]. split; [reflexivity|].
  unfold last_sync_is_now.
  change (option_map last_sync_at
            (lookup (store (snd (post_sync Sample.quiet 2 w))) 2))
    with (Some (@None Z)).
  discriminate.
Qed.

(** C2, amended.  A sync attempt on a loaded active configuration whose
    lower-cased name has an adapter sets [last_sync_at] to the current
    time whether the adapter reports success or failure (a transport
    failure included), the statements of the task being served.  When the
    name has no adapter the attempt fails and the configurations are left
    as they were: [last_sync_at] is not updated. *)
Theorem sync_updates_last_sync_when_dispatched
    (env : Env) (w : World) (i : Z) (c : Config)
    (Hread : db_error env (SelectActiveById i) = None)
    (Hfound : hd_error (Sql.select_active_by_id (store w) i) = Some c)
    (Hserves : store_serves env c) :
  let w' := snd (post_sync env i w) in
  match partner_of (Js.toLowerCase (ota_name c)) with
  | Some p =>
      let r := adapter_result env p c (snapshot env c) in
      last_sync_is_now env i w /\
      exists text,
        fst (post_sync env i w) =
        Returned (json (SyncBody text (SyncResult.success r)
                                 (SyncResult.message r) (ota_name c)
                                 (clock_ms env)))
  | None =>
      configurations (store w') = configurations (store w) /\
      fst (post_sync env i w) =
      Returned (json (SyncBody "Sync failed" false
                        ("Unsupported OTA: " ++ ota_name c)%string
                        (ota_name c) (clock_ms env)))
  end.
Proof.
  intros w'.
  destruct (Sql.select_active_by_id (store w) i) as [|c0 rest] eqn:Hsel;
    [discriminate|].
  pose proof Hfound as Hc. simpl in Hc. injection Hc as ->.
  pose proof (post_sync_run env i w c rest Hread Hsel) as Hrun.
  assert (Hlk : id c = i /\ lookup (store w) i <> None).
  { apply select_active_by_id_lookup. rewrite Hsel. reflexivity. }
  destruct Hlk as [Hid Hlk].
  destruct Hserves as [Hq Ht].
  unfold last_sync_is_now. subst w'. rewrite Hrun. cbn [fst snd store].
  unfold task_result, task_store. rewrite Hq.
  destruct (partner_of (Js.toLowerCase (ota_name c))) as [p|].
  - rewrite Ht. cbv zeta. split.
    + rewrite Hid. rewrite lookup_touch.
      unfold lookup, Sql.select_by_id in *.
      rewrite write_log_configurations.
      destruct (hd_error (filter (has_id i) (configurations (store w))));
        [reflexivity | congruence].
    + eexists. reflexivity.
  - split; [apply write_log_configurations | reflexivity].
Qed.

Lemma sync_updates_last_sync_when_dispatched_witness :
  let w := Sample.database default_collation
             [Sample.config 1 "agoda"; Sample.config 2 "expedia"] [] in
  last_sync_is_now Sample.offline 1 w.
Proof.
  intros w.
  exact (proj1 (sync_updates_last_sync_when_dispatched Sample.offline w 1
                  (Sample.config 1 "agoda") eq_refl eq_refl
                  (conj eq_refl eq_refl))).
Defined.

(** ** Names without an adapter *)

Lemma partner_of_none_iff (lowered : string) :
  partner_of lowered = None <-> ~ In lowered supported_names.
Proof.
  unfold partner_of, supported_names. simpl.
  destruct (String.eqb_spec lowered "booking.com");
    [split; [discriminate | intros H; exfalso; apply H; auto]|].
  destruct (String.eqb_spec lowered "booking_com");
    [split; [discriminate | intros H; exfalso; apply H; auto]|].
  destruct (String.eqb_spec lowered "agoda");
    [split; [discriminate | intros H; exfalso; apply H; auto]|].
  destruct (String.eqb_spec lowered "airbnb");
    [split; [discriminate | intros H; exfalso; apply H; auto 6]|].
  split; [|reflexivity].
  intros _ [H | [H | [H | [H | []]]]]; congruence.
Qed.

(** Counterexample to C4: "booking.com" is none of booking_com, agoda,
    airbnb, yet the sync of a configuration of that name calls the
    Booking.com adapter, which sends its request and succeeds. *)
Lemma sync_booking_dot_com_dispatches :
  let c := Sample.config 1 "booking.com" in
  let w := Sample.database default_collation [c] [] in
  ~ In (ota_name c) spec_partner_names /\
  SyncResult.success (task_result Sample.quiet c) = true /\
  List.length (requests (journal (snd (performOTASync Sample.quiet c w))))
    = 1%nat /\
  ~ refused_without_network Sample.quiet c w.
Proof.
  intros c w. split.
  - simpl. intros [H | [H | [H | []]]]; discriminate H.
  - split; [reflexivity|]. split; [reflexivity|].
    intros (r & w' & Hrun & Hfail & _).
    rewrite performOTASync_run in Hrun. injection Hrun as <- _.
    discriminate Hfail.
Qed.

(** C4, amended.  For every configuration whose lower-cased name is none
    of booking.com, booking_com, agoda, airbnb, the sync returns a failed
    outcome and sends no request; its message is
    "Unsupported OTA: <name>" when the availability query was served (and
    the message of the database error otherwise). *)
Theorem unsupported_partner_refused
    (env : Env) (c : Config) (w : World)
    (Hname : ~ In (Js.toLowerCase (ota_name c)) supported_names) :
  exists r w',
    performOTASync env c w = (Returned r, w') /\
    SyncResult.success r = false /\
    requests (journal w') = requests (journal w) /\
    (db_error env (SelectRooms (id c)) = None ->
     SyncResult.message r = ("Unsupported OTA: " ++ ota_name c)%string /\
     Js.includes "Unsupported OTA" (SyncResult.message r) = true) /\
    (forall e, db_error env (SelectRooms (id c)) = Some e ->
               SyncResult.message r = e).
Proof.
  apply partner_of_none_iff in Hname.
  rewrite performOTASync_run. eexists. eexists. split; [reflexivity|].
  cbn [journal]. unfold task_result, task_events. rewrite Hname.
  unfold requests. rewrite collect_app.
  destruct (db_error env (SelectRooms (id c))) as [e|]; simpl.
  - rewrite app_nil_r. repeat split; try discriminate.
    intros e' [= ->]. reflexivity.
  - rewrite app_nil_r. repeat split. discriminate.
Qed.

Lemma unsupported_partner_refused_witness :
  let c := Sample.config 2 "expedia" in
  refused_without_network Sample.quiet c
    (Sample.database default_collation [c] []).
Proof.
  intros c.
  assert (Hname : ~ In (Js.toLowerCase (ota_name c)) supported_names).
  { simpl. intros [H | [H | [H | [H | []]]]]; discriminate H. }
  destruct (unsupported_partner_refused Sample.quiet c
              (Sample.database default_collation [c] []) Hname)
    as (r & w' & Hrun & Hfail & Hreq & Hmsg & _).
  exists r, w'. repeat split; auto.
  apply Hmsg. reflexivity.
Defined.

(** The dispatch lower-cases the name as [toLowerCase] does, by the case
    mappings of Unicode.  A name written with the Kelvin sign in the
    place of k is booking.com once lower-cased, and its sync goes to the
    Booking.com adapter; a name written with the dotted capital I in the
    place of i keeps a combining dot, and is none of the labels. *)
Lemma kelvin_sign_is_lowered :
  let name := ("boo" ++ Js.kelvin_sign ++ "ing.com")%string in
  let other := ("a" ++ Js.dotted_capital_i ++ "rbnb")%string in
  Js.toLowerCase name = "booking.com"%string /\
  partner_of (Js.toLowerCase name) = Some BookingCom /\
  SyncResult.success (task_result Sample.quiet (Sample.config 1 name)) =
    true /\
  Js.toLowerCase other = ("ai" ++ Js.combining_dot ++ "rbnb")%string /\
  partner_of (Js.toLowerCase other) = None.
Proof. repeat split. Qed.

(** ** The log entry of a sync attempt *)

Lemma write_log_served env c st msg n s :
  db_error env (log_stmt c st msg n) = None ->
  existsb (has_id (id c)) (configurations s) = true ->
  sync_logs (write_log env c st msg n s) =
  sync_logs s ++
    [{| log_id := next_log_id s; ota_configuration_id := Some (id c);
        sync_type := SyncType.availability; log_status := st;
        message := Some msg; sync_started_at := now env;
        sync_completed_at := Some (now env);
        records_processed := Some n |}].
Proof.
  intros Hdb Hfk. unfold write_log, Sql.insert_log.
  rewrite Hdb, Hfk. reflexivity.
Qed.

Lemma write_log_failed env c st msg n s :
  db_error env (log_stmt c st msg n) <> None ->
  write_log env c st msg n s = s.
Proof.
  intros Hdb. unfold write_log.
  destruct (db_error env _); [reflexivity | congruence].
Qed.

Lemma ari_request_same env env' p c rooms :
  same_but_log_writes env env' ->
  ari_request env p c rooms = ari_request env' p c rooms.
Proof.
  intros (_ & _ & _ & _ & Hms & Htext & Hb64).
  destruct p; unfold ari_request, basic_authorization;
    rewrite ?Hms, ?Htext, ?Hb64; reflexivity.
Qed.

Lemma task_result_same env env' c :
  same_but_log_writes env env' ->
  task_result env c = task_result env' c.
Proof.
  intros Hsame. pose proof Hsame as (Hdb & Hview & Hnet & _).
  unfold task_result, adapter_result, snapshot.
  rewrite (Hdb (SelectRooms (id c))) by discriminate.
  rewrite (Hdb (TouchLastSync (id c))) by discriminate.
  destruct (db_error env' (SelectRooms (id c))); [reflexivity|].
  destruct (partner_of _) as [p|]; [|reflexivity].
  destruct (db_error env' (TouchLastSync (id c))); [reflexivity|].
  rewrite Hview, (ari_request_same env env') by assumption.
  rewrite Hnet. reflexivity.
Qed.

(** Counterexample to C6, at two inputs.  When the INSERT into
    ota_sync_logs fails, the attempt returns the outcome of the adapter
    and leaves no entry.  When every statement runs but the UPDATE of
    [last_sync_at], the entry of the adapter's success is written, the
    UPDATE throws, the catch block writes a second entry, and the caller
    gets the failure of the UPDATE. *)
Lemma sync_log_entries_not_exactly_one :
  let c := Sample.config 1 "agoda" in
  let w := Sample.database default_collation [c] [] in
  (sync_logs (store (snd (performOTASync log_table_locked c w))) = [] /\
   SyncResult.success (task_result log_table_locked c) = true /\
   ~ one_log_entry log_table_locked c w) /\
  (map log_status
       (sync_logs (store (snd (performOTASync Sample.update_fails c w)))) =
     [LogStatus.success; LogStatus.failed] /\
   fst (performOTASync Sample.update_fails c w) =
     Returned (failure "Lock wait timeout exceeded") /\
   ~ one_log_entry Sample.update_fails c w).
Proof.
  intros c w. split.
  - split; [reflexivity|]. split; [reflexivity|].
    intros [entry H].
    apply (f_equal (@List.length SyncLog)) in H.
    discriminate H.
  - split; [reflexivity|]. split; [reflexivity|].
    intros [entry H].
    apply (f_equal (@List.length SyncLog)) in H.
    discriminate H.
Qed.

(** C6, amended.  A sync attempt on a stored configuration always
    returns an outcome, and the outcome does not depend on whether the
    log writes go through: a failed log write is swallowed.  The attempt
    leaves exactly one log entry, with the status of the outcome, when
    the log write and the update of [last_sync_at] are served, and none
    when the log write fails. *)
Theorem sync_log_best_effort
    (env : Env) (c : Config) (w : World)
    (Hknown : existsb (has_id (id c)) (configurations (store w)) = true) :
  let w' := snd (performOTASync env c w) in
  fst (performOTASync env c w) = Returned (task_result env c) /\
  (forall env' w2, same_but_log_writes env env' ->
     fst (performOTASync env' c w2) = fst (performOTASync env c w)) /\
  (log_writes_run env c -> db_error env (TouchLastSync (id c)) = None ->
   exists entry,
     sync_logs (store w') = sync_logs (store w) ++ [entry] /\
     ota_configuration_id entry = Some (id c) /\
     log_status entry = status_of (task_result env c)) /\
  (log_writes_fail env c -> sync_logs (store w') = sync_logs (store w)).
Proof.
  intros w'. subst w'. rewrite performOTASync_run. cbn [fst snd store].
  split; [reflexivity|]. split.
  { intros env' w2 Hsame. rewrite performOTASync_run. cbn [fst].
    now rewrite (task_result_same env env'). }
  unfold task_store, task_result. split.
  - intros Hlog Htouch. rewrite Htouch.
    destruct (db_error env (SelectRooms (id c))) as [e|].
    + rewrite write_log_served by auto. eexists. repeat split.
    + destruct (partner_of (Js.toLowerCase (ota_name c))) as [p|].
      * cbv zeta. cbn [Sql.touch_last_sync snd with_configurations sync_logs].
        rewrite write_log_served by auto. eexists. repeat split.
      * rewrite write_log_served by auto. eexists. repeat split.
  - intros Hlog.
    destruct (db_error env (SelectRooms (id c))) as [e|].
    + now rewrite write_log_failed by auto.
    + destruct (partner_of (Js.toLowerCase (ota_name c))) as [p|].
      * cbv zeta.
        destruct (db_error env (TouchLastSync (id c))) as [e|].
        -- now rewrite !write_log_failed by auto.
        -- cbn [Sql.touch_last_sync snd with_configurations sync_logs].
           now rewrite write_log_failed by auto.
      * now rewrite write_log_failed by auto.
Qed.

Lemma sync_log_best_effort_witness :
  let c := Sample.config 1 "agoda" in
  let w := Sample.database default_collation [c] [] in
  one_log_entry Sample.quiet c w /\
  fst (performOTASync log_table_locked c w) =
  fst (performOTASync Sample.quiet c w).
Proof.
  intros c w.
  destruct (sync_log_best_effort Sample.quiet c w eq_refl)
    as (_ & Hsame & Hone & _).
  split.
  - destruct (Hone (fun _ _ _ => eq_refl) eq_refl) as (entry & Hlogs & _).
    exists entry. exact Hlogs.
  - apply Hsame. repeat split.
    intros s Hs. destruct s; try reflexivity.
    exfalso. eapply Hs. reflexivity.
Defined.

(** ** Deleting a configuration that has log entries *)

Lemma in_insert_desc {A} (key : A -> Z) (x y : A) (l : list A) :
  In x (Sql.insert_desc key y l) -> x = y \/ In x l.
Proof.
  induction l as [|a l IH]; simpl.
  - intros [<- | []]. now left.
  - destruct (key a <? key y); simpl.
    + intros [<- | H]; auto.
    + intros [<- | H]; auto. destruct (IH H); auto.
Qed.

Lemma in_order_by_desc {A} (key : A -> Z) (x : A) (l : list A) :
  In x (Sql.order_by_desc key l) -> In x l.
Proof.
  unfold Sql.order_by_desc. induction l as [|a l IH]; simpl; [auto|].
  intros H. apply in_insert_desc in H as [-> | H]; auto.
Qed.

Lemma in_insert_ranked {A} (key rank : A -> Z) (x y : A) (l : list A) :
  In x (Sql.insert_ranked key rank y l) -> x = y \/ In x l.
Proof.
  induction l as [|a l IH]; simpl.
  - intros [<- | []]. now left.
  - destruct (Sql.before key rank y a); simpl.
    + intros [<- | H]; auto.
    + intros [<- | H]; auto. destruct (IH H); auto.
Qed.

Lemma in_order_ranked {A} (key rank : A -> Z) (x : A) (l : list A) :
  In x (Sql.order_ranked key rank l) -> In x l.
Proof.
  unfold Sql.order_ranked. induction l as [|a l IH]; simpl; [auto|].
  intros H. apply in_insert_ranked in H as [-> | H]; auto.
Qed.

Lemma in_firstn_list {A} (n : nat) (x : A) : forall l,
  In x (firstn n l) -> In x l.
Proof.
  intros l H. rewrite <- (firstn_skipn n l). apply in_or_app. now left.
Qed.

Lemma in_skipn_list {A} (n : nat) (x : A) : forall l,
  In x (skipn n l) -> In x l.
Proof.
  intros l H. rewrite <- (firstn_skipn n l). apply in_or_app. now right.
Qed.

Lemma in_join_logs s l name :
  In (l, name) (Sql.join_logs s) ->
  In l (sync_logs s) /\
  exists c, In c (configurations s) /\
            ota_configuration_id l = Some (id c) /\ name = ota_name c.
Proof.
  unfold Sql.join_logs. rewrite in_flat_map.
  intros [l' [Hl' Hin]]. apply in_map_iff in Hin as [c [Heq Hc]].
  injection Heq as <- <-. apply filter_In in Hc as [Hc Href].
  split; [exact Hl'|]. exists c. repeat split; auto.
  unfold refers_to in Href.
  destruct (ota_configuration_id l') as [j|]; [|discriminate].
  apply Z.eqb_eq in Href. now subst.
Qed.

(** The rows GET /sync-logs returns are log entries joined with their
    stored configuration. *)
Lemma get_sync_logs_rows env q w rows l name :
  fst (get_sync_logs env q w) = Returned (json (LogsBody rows)) ->
  In (l, name) rows ->
  In l (sync_logs (store w)) /\
  exists c, In c (configurations (store w)) /\
            ota_configuration_id l = Some (id c) /\ name = ota_name c.
Proof.
  unfold get_sync_logs, try_catch, bind, execute, Sql.select_logs, ret.
  cbv zeta. cbn [record store journal].
  destruct (db_error env _); [discriminate|].
  destruct (Js.parseInt _) as [limit|]; [|discriminate].
  match goal with
  | |- context [match ?o with Some _ => _ | None => SqlError _ end] =>
      destruct o as [offset|]; [|discriminate]
  end.
  destruct (_ || _); [discriminate|]. cbn [fst].
  intros [= <-] Hin.
  apply in_firstn_list, in_skipn_list, in_order_ranked in Hin.
  destruct (q_ota_id q).
  - apply filter_In in Hin as [Hin _]. now apply in_join_logs.
  - now apply in_join_logs.
Qed.

Lemma lookup_none_iff s i :
  lookup s i = None <-> Sql.select_by_id s i = [].
Proof.
  unfold lookup. destruct (Sql.select_by_id s i); simpl; split;
    intros; congruence.
Qed.

Lemma delete_configurations_run env i w :
  delete_configurations env i w =
  let w1 := record (Executed (SelectById i)) w in
  let w2 := record (Executed (DeleteConfig i)) w1 in
  match db_error env (SelectById i) with
  | Some _ => (Returned internal_server_error, w1)
  | None =>
      match Sql.select_by_id (store w) i with
      | [] => (Returned (status_json 404 (ErrorBody "Configuration not found")),
               w1)
      | _ :: _ =>
          match db_error env (DeleteConfig i) with
          | Some _ => (Returned internal_server_error, w2)
          | None =>
              if existsb (refers_to i) (sync_logs (store w)) then
                (Returned internal_server_error, w2)
              else
                (Returned (json (MessageBody
                             "OTA configuration deleted successfully")),
                 set_store
                   (with_configurations (store w)
                      (filter (fun c => negb (has_id i c))
                              (configurations (store w)))) w2)
          end
      end
  end.
Proof.
  unfold delete_configurations, try_catch, bind, query, execute,
    Sql.delete_config, ret. simpl.
  destruct (db_error env (SelectById i)); [reflexivity|]. simpl.
  destruct (Sql.select_by_id (store w) i); [reflexivity|]. simpl.
  destruct (db_error env (DeleteConfig i)); [reflexivity|].
  destruct (existsb _ _); reflexivity.
Qed.

(** Counterexample to C8: configuration 1 has one log entry.  DELETE
    /configurations/1 answers 500 and the configuration is still
    stored. *)
Lemma delete_configuration_with_logs_refused :
  let w := Sample.database default_collation
             [Sample.config 1 "agoda"] [Sample.entry 1 1] in
  fst (delete_configurations Sample.quiet 1 w) =
    Returned internal_server_error /\
  lookup (store (snd (delete_configurations Sample.quiet 1 w))) 1 =
    Some (Sample.config 1 "agoda") /\
  ~ deleted_with_logs_kept Sample.quiet 1 w.
Proof.
  intros w. split; [reflexivity|]. split; [reflexivity|].
  intros [Hgone _].
  change (lookup (store (snd (delete_configurations Sample.quiet 1 w))) 1)
    with (Some (Sample.config 1 "agoda")) in Hgone.
  discriminate Hgone.
Qed.

(** C8, amended.  No route removes a log entry, and DELETE
    /configurations/:id leaves the log as it is; but a stored
    configuration that a log entry references cannot be deleted: the
    foreign key of ota_sync_logs has no ON DELETE clause, the DELETE is
    refused and the route answers 500, configuration and entries staying
    stored.  A configuration without log entries is deleted.  The log
    listing joins the entries with their configuration, so it returns
    only entries whose configuration is stored. *)
Theorem delete_configuration_keeps_logs (env : Env) (i : Z) (w : World) :
  let w' := snd (delete_configurations env i w) in
  sync_logs (store w') = sync_logs (store w) /\
  (existsb (refers_to i) (sync_logs (store w)) = true ->
   configurations (store w') = configurations (store w) /\
   (lookup (store w) i <> None ->
    fst (delete_configurations env i w) = Returned internal_server_error)) /\
  (existsb (refers_to i) (sync_logs (store w)) = false ->
   lookup (store w) i <> None ->
   db_error env (SelectById i) = None ->
   db_error env (DeleteConfig i) = None ->
   fst (delete_configurations env i w) =
     Returned (json (MessageBody "OTA configuration deleted successfully")) /\
   lookup (store w') i = None) /\
  (forall q rows l name,
     fst (get_sync_logs env q w') = Returned (json (LogsBody rows)) ->
     In (l, name) rows ->
     exists c, In c (configurations (store w')) /\
               ota_configuration_id l = Some (id c) /\ name = ota_name c).
Proof.
  intros w'. subst w'. rewrite delete_configurations_run. cbv zeta.
  split; [|split; [|split]].
  - destruct (db_error env (SelectById i)); [reflexivity|].
    destruct (Sql.select_by_id (store w) i); [reflexivity|].
    destruct (db_error env (DeleteConfig i)); [reflexivity|].
    destruct (existsb _ _); reflexivity.
  - intros Href. rewrite Href. split.
    + destruct (db_error env (SelectById i)); [reflexivity|].
      destruct (Sql.select_by_id (store w) i); [reflexivity|].
      destruct (db_error env (DeleteConfig i)); reflexivity.
    + intros Hin. rewrite lookup_none_iff in Hin.
      destruct (db_error env (SelectById i)); [reflexivity|].
      destruct (Sql.select_by_id (store w) i); [congruence|].
      destruct (db_error env (DeleteConfig i)); reflexivity.
  - intros Href Hin Hsel Hdel. rewrite lookup_none_iff in Hin.
    rewrite Hsel, Hdel, Href.
    destruct (Sql.select_by_id (store w) i) eqn:Hs; [congruence|].
    split; [reflexivity|].
    apply lookup_none_iff. unfold Sql.select_by_id. simpl.
    apply filter_nil_iff. intros c' Hc.
    apply filter_In in Hc as [_ Hc].
    now apply negb_true_iff in Hc.
  - intros q rows l' name Hrun Hrow.
    eapply get_sync_logs_rows; eauto.
Qed.

Lemma delete_configuration_keeps_logs_witness :
  let w := Sample.database default_collation
             [Sample.config 1 "agoda"; Sample.config 2 "airbnb"]
             [Sample.entry 1 1] in
  fst (delete_configurations Sample.quiet 1 w) =
    Returned internal_server_error /\
  lookup (store (snd (delete_configurations Sample.quiet 2 w))) 2 = None.
Proof.
  intros w. split.
  - destruct (delete_configuration_keeps_logs Sample.quiet 1 w)
      as (_ & Hkept & _).
    apply (Hkept eq_refl). discriminate.
  - destruct (delete_configuration_keeps_logs Sample.quiet 2 w)
      as (_ & _ & Hfree & _).
    apply (Hfree eq_refl); [discriminate | reflexivity | reflexivity].
Defined.

(** ** Connection tests *)

Lemma post_test_connection_run env i w :
  exists r events,
    post_test_connection env i w =
      (Returned r, {| store := store w; journal := journal w ++ events |}) /\
    writes events = [].
Proof.
  unfold post_test_connection, try_catch, bind at 1, query, execute.
  simpl.
  destruct (db_error env (SelectById i)).
  { eexists. exists [Executed (SelectById i)]. split; reflexivity. }
  simpl. destruct (Sql.select_by_id (store w) i) as [|config rest].
  { eexists. exists [Executed (SelectById i)]. split; reflexivity. }
  unfold bind, try_catch, axios, ret. simpl.
  destruct (partner_of (Js.toLowerCase (ota_name config))) as [p|].
  - destruct (net env (test_request env p config));
      (eexists; exists [Executed (SelectById i);
                        Http (test_request env p config)];
       unfold record, set_store; simpl; rewrite <- app_assoc;
       split; reflexivity).
  - eexists. exists [Executed (SelectById i)]. split; reflexivity.
Qed.

(** C9.  However often POST /test-connection is called, for whatever
    configurations and whatever the endpoints answer, the store is left
    as it was: no [last_sync_at] changes and no log entry is written.
    The only statement the route sends is a SELECT. *)
Theorem test_connection_is_read_only (calls : list (Env * Z)) (w : World) :
  let w' := run_all (map (fun call =>
                            post_test_connection (fst call) (snd call))
                         calls) w in
  store w' = store w /\
  map last_sync_at (configurations (store w')) =
    map last_sync_at (configurations (store w)) /\
  sync_logs (store w') = sync_logs (store w) /\
  writes (journal w') = writes (journal w).
Proof.
  intros w'.
  assert (H : store w' = store w /\ writes (journal w') = writes (journal w)).
  { subst w'. revert w.
    induction calls as [|[env i] calls IH]; intros w; simpl; [auto|].
    destruct (post_test_connection_run env i w) as (r & events & -> & Hw).
    cbn [snd]. destruct (IH {| store := store w;
                               journal := journal w ++ events |})
      as [Hs Hj].
    rewrite Hs, Hj. cbn [store journal]. split; [reflexivity|].
    unfold writes in *. rewrite collect_app, Hw. apply app_nil_r. }
  destruct H as [Hs Hj]. rewrite Hs. auto.
Qed.

(** ** Names of configurations *)

Lemma sql_eq_refl c n : sql_eq c n n = true.
Proof. destruct c; simpl; apply String.eqb_refl. Qed.

(** What POST /configurations can do to the table: nothing, and then it
    does not answer 201; or add one row, whose name no stored row has
    under the collation. *)
Lemma post_configurations_cases env b w :
  (exists resp,
     fst (post_configurations env b w) = Returned resp /\
     http_status resp <> 201 /\
     configurations (store (snd (post_configurations env b w))) =
       configurations (store w)) \/
  (exists n row,
     b_ota_name b = Some n /\ ota_name row = n /\
     Sql.select_ids_by_name (store w) n = [] /\
     configurations (store (snd (post_configurations env b w))) =
       configurations (store w) ++ [row]).
Proof.
  unfold post_configurations, try_catch, bind, query, execute, ret.
  destruct (Js.falsy (b_ota_name b) || Js.falsy (b_endpoint_url b)) eqn:Hf.
  { left. eexists. simpl.
    split; [reflexivity | split; [discriminate | reflexivity]]. }
  destruct (b_ota_name b) as [n|] eqn:Hn; [|discriminate Hf].
  simpl.
  destruct (db_error env (SelectIdsByName n)).
  { left. eexists. simpl.
    split; [reflexivity | split; [discriminate | reflexivity]]. }
  simpl.
  destruct (Sql.select_ids_by_name (store w) n) as [|k ks] eqn:Hsel; simpl.
  - destruct (db_error env (InsertConfig (Some n))); simpl.
    { left. eexists.
      split; [reflexivity | split; [discriminate | reflexivity]]. }
    right. exists n. eexists.
    split; [reflexivity|]. split; [|split; [exact Hsel|]]; cycle 1.
    + destruct (db_error env (SelectById (next_config_id (store w))));
        reflexivity.
    + reflexivity.
  - left. eexists.
    split; [reflexivity | split; [discriminate | reflexivity]].
Qed.

Lemma select_ids_by_name_nil s n :
  Sql.select_ids_by_name s n = [] ->
  forall c, In c (configurations s) ->
            sql_eq (collation s) (ota_name c) n = false.
Proof.
  unfold Sql.select_ids_by_name. intros H c Hc.
  apply map_eq_nil in H.
  exact (proj1 (filter_nil_iff _ _) H c Hc).
Qed.

(** Creation keeps the names distinct. *)
Lemma post_configurations_keeps_names_unique env b w :
  unique_names (store w) ->
  unique_names (store (snd (post_configurations env b w))).
Proof.
  unfold unique_names. intros Hu.
  destruct (post_configurations_cases env b w)
    as [(resp & _ & _ & ->) | (n & row & _ & Hrow & Hsel & ->)];
    [exact Hu|].
  rewrite map_app. simpl.
  apply NoDup_app; [exact Hu | repeat constructor; intros [] | ].
  intros x Hx [<- | []].
  apply in_map_iff in Hx as (c & Hc & Hin).
  pose proof (select_ids_by_name_nil _ _ Hsel c Hin) as Hne.
  rewrite Hc, Hrow, sql_eq_refl in Hne. discriminate.
Qed.

(** C5, at the input where the code breaks it.  The names of the two
    stored configurations are distinct.  PUT /configurations/2 with the
    name of configuration 1 is accepted (the route has no check of the
    kind POST /configurations makes, and the table has no UNIQUE key on
    [ota_name]), and afterwards two configurations are named "agoda". *)
Theorem put_configurations_duplicates_name :
  let w := Sample.database default_collation
             [Sample.config 1 "agoda"; Sample.config 2 "airbnb"] [] in
  let w' := snd (put_configurations Sample.quiet 2 (Sample.body "agoda") w) in
  unique_names (store w) /\
  fst (put_configurations Sample.quiet 2 (Sample.body "agoda") w) =
    Returned (json (MessageBody "OTA configuration updated successfully")) /\
  map ota_name (configurations (store w')) = ["agoda"; "agoda"]%string /\
  ~ unique_names (store w').
Proof.
  intros w w'. split.
  - unfold unique_names. simpl. repeat constructor; simpl.
    + intros [H | []]. discriminate H.
    + intros [].
  - split; [reflexivity|]. split; [reflexivity|].
    unfold unique_names.
    change (map ota_name (configurations (store w')))
      with ["agoda"; "agoda"]%string.
    intros H. inversion H as [|x l Hnotin _]. apply Hnotin. now left.
Qed.




(** * Further properties of the router *)

(** ** Relations between the store before and after a handler *)

Section Respects.

Variable env : Env.
Variable R : Store -> Store -> Prop.

Hypothesis R_refl : forall s, R s s.
Hypothesis R_trans : forall a b c, R a b -> R b c -> R a c.

Lemma respects_ret {A} (a : A) : respects R (ret a).
Proof. intros w. apply R_refl. Qed.

Lemma respects_throw {A} (e : string) : respects R (@throw A e).
Proof. intros w. apply R_refl. Qed.

Lemma respects_bind {A B} (m : M A) (k : A -> M B) :
  respects R m -> (forall a, respects R (k a)) -> respects R (bind m k).
Proof.
  intros Hm Hk w. unfold bind. specialize (Hm w).
  destruct (m w) as [[a|e] w']; simpl in *.
  - eapply R_trans; [exact Hm | apply Hk].
  - exact Hm.
Qed.

Lemma respects_try_catch {A} (m : M A) (h : string -> M A) :
  respects R m -> (forall e, respects R (h e)) -> respects R (try_catch m h).
Proof.
  intros Hm Hh w. unfold try_catch. specialize (Hm w).
  destruct (m w) as [[a|e] w']; simpl in *.
  - exact Hm.
  - eapply R_trans; [exact Hm | apply Hh].
Qed.

Lemma respects_axios (r : Request) : respects R (axios env r).
Proof.
  intros w. unfold axios. destruct (net env r); apply R_refl.
Qed.

Lemma respects_execute {A} (stmt : Stmt)
    (run : Store -> SqlResult A * Store) :
  (forall s, R s (snd (run s))) -> respects R (execute env stmt run).
Proof.
  intros H w. unfold execute. cbn [record store].
  destruct (db_error env stmt); [apply R_refl|].
  specialize (H (store w)).
  destruct (run (store w)) as [[a|e] s]; exact H.
Qed.

Lemma respects_query {A} (stmt : Stmt) (rows : Store -> A) :
  respects R (query env stmt rows).
Proof. apply respects_execute. intros s. apply R_refl. Qed.

Lemma respects_promise_all {A B} (f : A -> M B) (l : list A) :
  (forall x, respects R (f x)) -> respects R (promise_all f l).
Proof.
  intros Hf. induction l as [|x l IH]; simpl.
  - apply respects_ret.
  - apply respects_bind; [apply Hf|]. intros y.
    apply respects_bind; [exact IH|]. intros ys. apply respects_ret.
Qed.

(** The statements of a sync. *)
Hypothesis R_insert_log : forall now s cfg st msg n,
  st <> LogStatus.partial ->
  R s (snd (Sql.insert_log now s (Some cfg) SyncType.availability st
              (Some msg) (Some n))).

Hypothesis R_touch : forall now s i, R s (snd (Sql.touch_last_sync now s i)).

Lemma logSyncOperation_respects cfg st msg n :
  st <> LogStatus.partial ->
  respects R (logSyncOperation env cfg SyncType.availability st msg n).
Proof.
  intros Hst. unfold logSyncOperation.
  apply respects_try_catch; [|intros e; apply respects_ret].
  apply respects_bind; [|intros a; apply respects_ret].
  apply respects_execute. intros s. now apply R_insert_log.
Qed.

Lemma adapter_respects config rooms :
  respects R (syncBookingComARI env config rooms) /\
  respects R (syncAgodaARI env config rooms) /\
  respects R (syncAirbnbARI env config rooms).
Proof.
  repeat split; intros w;
    rewrite ?syncBookingComARI_run, ?syncAgodaARI_run, ?syncAirbnbARI_run;
    apply R_refl.
Qed.

Lemma performOTASync_respects config : respects R (performOTASync env config).
Proof.
  unfold performOTASync.
  apply respects_try_catch.
  - apply respects_bind; [apply respects_query|]. intros rooms.
    apply respects_bind.
    + destruct (partner_of _) as [[| |]|];
        [apply adapter_respects .. | apply respects_throw].
    + intros r. apply respects_bind.
      * apply logSyncOperation_respects.
        destruct (SyncResult.success r); discriminate.
      * intros _. apply respects_bind; [|intros _; apply respects_ret].
        apply respects_execute. intros s. apply R_touch.
  - intros e. apply respects_bind; [|intros _; apply respects_ret].
    apply logSyncOperation_respects. discriminate.
Qed.

Lemma post_sync_respects i : respects R (post_sync env i).
Proof.
  unfold post_sync.
  apply respects_try_catch; [|intros e; apply respects_ret].
  apply respects_bind; [apply respects_query|]. intros [|c rest].
  - apply respects_ret.
  - apply respects_bind; [apply performOTASync_respects|].
    intros r. apply respects_ret.
Qed.

Lemma post_sync_all_respects : respects R (post_sync_all env).
Proof.
  unfold post_sync_all.
  apply respects_try_catch; [|intros e; apply respects_ret].
  apply respects_bind; [apply respects_query|]. intros configs.
  destruct (_ =? _); [apply respects_ret|].
  apply respects_bind; [|intros r; apply respects_ret].
  apply respects_promise_all. intros c. unfold sync_task.
  apply respects_bind; [apply performOTASync_respects|].
  intros r. apply respects_ret.
Qed.

Lemma get_sync_logs_respects q : respects R (get_sync_logs env q).
Proof.
  unfold get_sync_logs.
  apply respects_try_catch; [|intros e; apply respects_ret].
  apply respects_bind; [|intros r; apply respects_ret].
  apply respects_execute. intros s. apply R_refl.
Qed.

Lemma post_test_connection_respects i :
  respects R (post_test_connection env i).
Proof.
  unfold post_test_connection.
  apply respects_try_catch; [|intros e; apply respects_ret].
  apply respects_bind; [apply respects_query|]. intros [|c rest].
  - apply respects_ret.
  - apply respects_bind; [|intros r; apply respects_ret].
    apply respects_try_catch; [|intros e; apply respects_ret].
    destruct (partner_of _) as [p|]; [|apply respects_ret].
    apply respects_bind; [apply respects_axios|].
    intros _. apply respects_ret.
Qed.

Lemma other_routes_respect c :
  edits_configurations c = false -> respects R (route env c).
Proof.
  destruct c; simpl; try discriminate; intros _.
  - apply post_sync_respects.
  - apply post_sync_all_respects.
  - apply get_sync_logs_respects.
  - apply post_test_connection_respects.
Qed.

(** The statements of the routes that edit the configurations. *)
Hypothesis R_insert_config : forall now s name key user pass url hotel freq,
  R s (snd (Sql.insert_config now s name key user pass url hotel freq)).

Hypothesis R_update_config :
  forall now s i name key user pass url hotel freq active,
  R s (snd (Sql.update_config now s i name key user pass url hotel freq
              active)).

Hypothesis R_delete_config : forall s i, R s (snd (Sql.delete_config s i)).

Lemma post_configurations_respects b : respects R (post_configurations env b).
Proof.
  unfold post_configurations.
  apply respects_try_catch; [|intros e; apply respects_ret].
  cbv zeta. destruct (_ || _); [apply respects_ret|].
  apply respects_bind; [apply respects_query|]. intros existing.
  destruct (_ <? _); [apply respects_ret|].
  apply respects_bind; [apply respects_execute; intros s;
                        apply R_insert_config|].
  intros k. apply respects_bind; [apply respects_query|].
  intros created. apply respects_ret.
Qed.

Lemma put_configurations_respects i b :
  respects R (put_configurations env i b).
Proof.
  unfold put_configurations.
  apply respects_try_catch; [|intros e; apply respects_ret].
  apply respects_bind; [apply respects_query|]. intros existing.
  destruct (_ =? _); [apply respects_ret|].
  apply respects_bind; [|intros _; apply respects_ret].
  apply respects_execute. intros s. apply R_update_config.
Qed.

Lemma delete_configurations_respects i :
  respects R (delete_configurations env i).
Proof.
  unfold delete_configurations.
  apply respects_try_catch; [|intros e; apply respects_ret].
  apply respects_bind; [apply respects_query|]. intros existing.
  destruct (_ =? _); [apply respects_ret|].
  apply respects_bind; [|intros _; apply respects_ret].
  apply respects_execute. intros s. apply R_delete_config.
Qed.

Lemma route_respects c : respects R (route env c).
Proof.
  destruct c; simpl.
  - apply post_configurations_respects.
  - apply put_configurations_respects.
  - apply delete_configurations_respects.
  - apply post_sync_respects.
  - apply post_sync_all_respects.
  - apply get_sync_logs_respects.
  - apply post_test_connection_respects.
Qed.

End Respects.

(** A relation every request of a sequence respects holds between the
    first store and the last. *)
Lemma serve_respects (R : Store -> Store -> Prop) (P : Call -> Prop) :
  (forall s, R s s) ->
  (forall a b c, R a b -> R b c -> R a c) ->
  (forall env c, P c -> respects R (route env c)) ->
  forall calls w,
    Forall (fun call => P (snd call)) calls ->
    R (store w) (store (serve calls w)).
Proof.
  intros Hrefl Htrans Hroute. unfold serve.
  induction calls as [|[env c] calls IH]; intros w Hall; simpl.
  - apply Hrefl.
  - inversion Hall as [|x l Hc Hrest]; subst. simpl in Hc.
    eapply Htrans; [apply (Hroute env c Hc w)|].
    apply IH. exact Hrest.
Qed.

(** ** The schema constraints are kept *)

Lemma NoDup_map_filter {K Row} (key : Row -> K) (keep : Row -> bool) :
  forall rows : list Row,
    NoDup (map key rows) -> NoDup (map key (filter keep rows)).
Proof.
  intros rows. induction rows as [|row rows IH]; simpl; [auto|].
  intros H. inversion H as [|x t Hnotin Hnd]; subst.
  destruct (keep row); simpl; auto.
  constructor; auto.
  intros Hin. apply Hnotin. apply in_map_iff in Hin as (y & Hy & Hin).
  apply in_map_iff. exists y. split; [exact Hy|].
  now apply filter_In in Hin.
Qed.

Lemma NoDup_snoc_fresh {A} (key : A -> Z) (l : list A) (x : A) :
  NoDup (map key l) ->
  (forall y, In y l -> key y < key x) ->
  NoDup (map key (l ++ [x])).
Proof.
  intros Hnd Hlt. rewrite map_app. simpl.
  apply NoDup_app; [exact Hnd | repeat constructor; intros [] |].
  intros k Hk [<- | []].
  apply in_map_iff in Hk as (y & Hy & Hin).
  specialize (Hlt y Hin). lia.
Qed.

Lemma existsb_has_id i l :
  existsb (has_id i) l = true <-> exists c, In c l /\ id c = i.
Proof.
  rewrite existsb_exists. unfold has_id.
  split; intros (c & Hc & Hid); exists c; split; auto;
    now apply Z.eqb_eq.
Qed.

Lemma consistent_insert_log now s cfg ty st msg n :
  consistent s ->
  consistent (snd (Sql.insert_log now s cfg ty st msg n)).
Proof.
  intros (Hci & Hcb & Hli & Hlb & Hfk). unfold Sql.insert_log.
  destruct (match cfg with
            | Some i => existsb (has_id i) (configurations s)
            | None => true
            end) eqn:Hknown; [|repeat split; assumption].
  unfold consistent. cbn [snd configurations sync_logs next_config_id
                          next_log_id].
  split; [exact Hci|]. split; [exact Hcb|]. split; [|split].
  - apply NoDup_snoc_fresh; [exact Hli|]. exact Hlb.
  - intros l Hl. apply in_app_or in Hl as [Hl | [<- | []]].
    + specialize (Hlb l Hl). lia.
    + simpl. lia.
  - intros l i Hl Hi. apply in_app_or in Hl as [Hl | [<- | []]].
    + eauto.
    + simpl in Hi. subst cfg. now apply existsb_has_id.
Qed.

Lemma consistent_rewrite (s : Store) (set : Config -> Config) :
  (forall c, id (set c) = id c) ->
  consistent s ->
  consistent (with_configurations s (map set (configurations s))).
Proof.
  intros Hid (Hci & Hcb & Hli & Hlb & Hfk).
  unfold consistent, with_configurations.
  cbn [configurations sync_logs next_config_id next_log_id].
  split; [|split; [|split; [exact Hli | split; [exact Hlb|]]]].
  - rewrite map_map. erewrite map_ext; [exact Hci|]. exact Hid.
  - intros c Hc. apply in_map_iff in Hc as (c0 & <- & Hc0).
    rewrite Hid. auto.
  - intros l i Hl Hi. destruct (Hfk l i Hl Hi) as (c & Hc & Hci').
    exists (set c). split; [now apply in_map | now rewrite Hid].
Qed.

Lemma consistent_touch now s i :
  consistent s -> consistent (snd (Sql.touch_last_sync now s i)).
Proof.
  unfold Sql.touch_last_sync. cbn [snd]. apply consistent_rewrite.
  intros c. destruct (has_id i c); reflexivity.
Qed.

Lemma consistent_update_config now s i name key user pass url hotel freq
    active :
  consistent s ->
  consistent (snd (Sql.update_config now s i name key user pass url hotel
                     freq active)).
Proof.
  unfold Sql.update_config. destruct name as [n|]; [|auto].
  cbn [snd]. apply consistent_rewrite.
  intros c. destruct (has_id i c); reflexivity.
Qed.

Lemma consistent_insert_config now s name key user pass url hotel freq :
  consistent s ->
  consistent (snd (Sql.insert_config now s name key user pass url hotel
                     freq)).
Proof.
  intros (Hci & Hcb & Hli & Hlb & Hfk). unfold Sql.insert_config.
  destruct name as [n|]; [|repeat split; assumption].
  unfold consistent. cbn [snd configurations sync_logs next_config_id
                          next_log_id].
  split; [|split; [|split; [exact Hli | split; [exact Hlb|]]]].
  - apply NoDup_snoc_fresh; [exact Hci|]. exact Hcb.
  - intros c Hc. apply in_app_or in Hc as [Hc | [<- | []]].
    + specialize (Hcb c Hc). lia.
    + simpl. lia.
  - intros l i Hl Hi. destruct (Hfk l i Hl Hi) as (c & Hc & Hid).
    exists c. split; [apply in_or_app; now left | exact Hid].
Qed.

Lemma consistent_delete_config s i :
  consistent s -> consistent (snd (Sql.delete_config s i)).
Proof.
  intros (Hci & Hcb & Hli & Hlb & Hfk). unfold Sql.delete_config.
  destruct (existsb (refers_to i) (sync_logs s)) eqn:Href;
    [repeat split; assumption|].
  unfold consistent, with_configurations.
  cbn [snd configurations sync_logs next_config_id next_log_id].
  split; [|split; [|split; [exact Hli | split; [exact Hlb|]]]].
  - now apply NoDup_map_filter.
  - intros c Hc. apply filter_In in Hc as [Hc _]. auto.
  - intros l j Hl Hj. destruct (Hfk l j Hl Hj) as (c & Hc & Hid).
    exists c. split; [|exact Hid]. apply filter_In. split; [exact Hc|].
    apply negb_true_iff. unfold has_id. apply Z.eqb_neq. intros Heq.
    assert (Hno : refers_to i l = false).
    { destruct (refers_to i l) eqn:E; [|reflexivity].
      assert (existsb (refers_to i) (sync_logs s) = true)
        by (apply existsb_exists; eauto).
      congruence. }
    unfold refers_to in Hno. rewrite Hj in Hno.
    apply Z.eqb_neq in Hno. congruence.
Qed.

(** X1.  The constraints of the schema hold after any sequence of
    requests to the router, whatever the database and the partners do in
    between: the ids of configurations and of log entries stay distinct
    and below their AUTO_INCREMENT counters, and every log entry that
    names a configuration names a stored one. *)
Theorem routes_keep_store_consistent
    (calls : list (Env * Call)) (w : World)
    (Hw : consistent (store w)) :
  consistent (store (serve calls w)).
Proof.
  revert Hw.
  apply (serve_respects (keeps consistent) (fun _ => True)); unfold keeps.
  - auto.
  - auto.
  - intros env c _. apply route_respects; auto.
    + intros. now apply consistent_insert_log.
    + intros. now apply consistent_touch.
    + intros. now apply consistent_insert_config.
    + intros. now apply consistent_update_config.
    + intros. now apply consistent_delete_config.
  - apply Forall_forall. auto.
Qed.

Lemma routes_keep_store_consistent_witness :
  consistent
    (store (serve [(Sample.quiet, PostConfigurations (Sample.body "agoda"));
                   (Sample.offline, PostSync 1);
                   (Sample.quiet, DeleteConfigurations 1);
                   (Sample.quiet, PutConfigurations 1 (Sample.body "airbnb"));
                   (Sample.quiet, PostSyncAll)]
                  (Sample.database default_collation [] []))).
Proof.
  apply routes_keep_store_consistent.
  unfold consistent. simpl.
  split; [constructor|]. split; [intros c []|].
  split; [constructor|]. split; [intros l []|].
  intros l i [].
Defined.

(** ** The log only grows *)

Lemma log_extends_refl s : log_extends s s.
Proof. exists []. split; [now rewrite app_nil_r | constructor]. Qed.

Lemma log_extends_trans a b c :
  log_extends a b -> log_extends b c -> log_extends a c.
Proof.
  intros (l1 & H1 & F1) (l2 & H2 & F2). exists (l1 ++ l2). split.
  - now rewrite H2, H1, app_assoc.
  - apply Forall_app. auto.
Qed.

Lemma log_extends_same s s' :
  sync_logs s' = sync_logs s -> log_extends s s'.
Proof.
  intros H. exists []. split; [now rewrite app_nil_r | constructor].
Qed.

Lemma log_extends_insert_log now s cfg st msg n :
  st <> LogStatus.partial ->
  log_extends s (snd (Sql.insert_log now s (Some cfg) SyncType.availability
                        st (Some msg) (Some n))).
Proof.
  intros Hst. unfold Sql.insert_log.
  destruct (existsb (has_id cfg) (configurations s));
    [|apply log_extends_refl].
  eexists. split; [reflexivity|].
  repeat constructor; simpl; auto; discriminate.
Qed.

(** X2.  No sequence of requests removes or alters a log entry: the log
    after the requests is the log before them followed by the entries
    written since, each one an availability entry with status success or
    failed that names a configuration and carries a message, a record
    count and a completion time equal to its start. *)
Theorem log_is_append_only (calls : list (Env * Call)) (w : World) :
  exists added,
    sync_logs (store (serve calls w)) = sync_logs (store w) ++ added /\
    Forall written_by_sync added.
Proof.
  apply (serve_respects log_extends (fun _ => True)).
  - apply log_extends_refl.
  - apply log_extends_trans.
  - intros env c _. apply route_respects.
    + apply log_extends_refl.
    + apply log_extends_trans.
    + intros. now apply log_extends_insert_log.
    + intros. now apply log_extends_same.
    + intros now0 s name key user pass url hotel freq.
      apply log_extends_same. unfold Sql.insert_config.
      destruct name; reflexivity.
    + intros now0 s i name key user pass url hotel freq active.
      apply log_extends_same. unfold Sql.update_config.
      destruct name; reflexivity.
    + intros s i. apply log_extends_same. unfold Sql.delete_config.
      destruct (existsb _ _); reflexivity.
  - apply Forall_forall. auto.
Qed.

(** ** Syncs do not edit configurations *)

Lemma settings_touch now s i :
  same_settings s (snd (Sql.touch_last_sync now s i)).
Proof.
  unfold same_settings, Sql.touch_last_sync. cbn [snd with_configurations
    configurations].
  rewrite map_map. apply map_ext. intros c.
  destruct (has_id i c); reflexivity.
Qed.

Lemma settings_insert_log now s cfg ty st msg n :
  same_settings s (snd (Sql.insert_log now s cfg ty st msg n)).
Proof.
  unfold same_settings, Sql.insert_log.
  destruct (match cfg with Some _ => _ | None => _ end); reflexivity.
Qed.

(** X3.  The sync, log and test routes never edit a configuration: after
    any sequence of such requests every configuration has the id, name,
    credentials, endpoint, hotel id, activity flag, frequency and creation
    time it had, in the same order; a sync changes [last_sync_at] and
    [updated_at] at most. *)
Theorem syncs_keep_settings (calls : list (Env * Call)) (w : World)
    (Hcalls : forall call, In call calls ->
                edits_configurations (snd call) = false) :
  map settings (configurations (store (serve calls w))) =
  map settings (configurations (store w)).
Proof.
  apply (serve_respects same_settings
           (fun c => edits_configurations c = false)).
  - reflexivity.
  - unfold same_settings. congruence.
  - intros env c Hc. apply other_routes_respect; auto.
    + reflexivity.
    + unfold same_settings. congruence.
    + intros. apply settings_insert_log.
    + intros. apply settings_touch.
  - apply Forall_forall. exact Hcalls.
Qed.

Lemma syncs_keep_settings_witness :
  let w := Sample.database default_collation
             [Sample.config 1 "agoda"; Sample.config 2 "expedia"] [] in
  map settings
    (configurations
       (store (serve [(Sample.quiet, PostSyncAll);
                      (Sample.offline, PostSync 1);
                      (Sample.quiet, PostTestConnection 2)] w))) =
  map settings (configurations (store w)).
Proof.
  intros w. apply syncs_keep_settings.
  intros call [<- | [<- | [<- | []]]]; reflexivity.
Defined.

(** ** Creating a configuration *)

Lemma select_by_id_fresh (l : list Config) (k : Z) :
  (forall c, In c l -> id c < k) -> filter (has_id k) l = [].
Proof.
  intros H. apply filter_nil_iff. intros c Hc.
  unfold has_id. apply Z.eqb_neq. specialize (H c Hc). lia.
Qed.

Lemma select_ids_by_name_free s name :
  name_is_free s name -> Sql.select_ids_by_name s name = [].
Proof.
  intros H. unfold Sql.select_ids_by_name.
  replace (filter _ (configurations s)) with (@nil Config); [reflexivity|].
  symmetry. apply filter_nil_iff. exact H.
Qed.

Lemma falsy_some (s : string) : s <> ""%string -> Js.falsy (Some s) = false.
Proof. intros H. simpl. now apply String.eqb_neq. Qed.

(** The run of POST /configurations up to the read-back of the row. *)
Lemma post_configurations_insert env b w name url :
  b_ota_name b = Some name -> b_endpoint_url b = Some url ->
  name <> ""%string -> url <> ""%string ->
  name_is_free (store w) name ->
  ids_below_counter (store w) ->
  db_error env (SelectIdsByName name) = None ->
  db_error env (InsertConfig (Some name)) = None ->
  let row := created_row (now env) (store w) b name in
  post_configurations env b w =
  (match db_error env (SelectById (next_config_id (store w))) with
   | None =>
       Returned (status_json 201
                   (CreatedBody "OTA configuration created successfully"
                                (Some (view row))))
   | Some _ => Returned internal_server_error
   end,
   {| store := with_created (store w) row;
      journal := journal w ++
                 [Executed (SelectIdsByName name);
                  Executed (InsertConfig (Some name));
                  Executed (SelectById (next_config_id (store w)))] |}).
Proof.
  intros Hname Hurl Hn Hu Hfree Hids Hsel Hins row.
  unfold post_configurations, try_catch, bind, query, execute, ret.
  rewrite Hname, Hurl, (falsy_some _ Hn), (falsy_some _ Hu).
  cbn [orb Js.interp record store journal set_store].
  rewrite Hsel. rewrite (select_ids_by_name_free _ _ Hfree).
  cbn [List.length Z.of_nat Z.ltb Z.compare].
  rewrite Hins. unfold Sql.insert_config.
  cbn [record store journal set_store].
  unfold Sql.select_by_id. cbn [configurations].
  rewrite filter_app, (select_by_id_fresh _ _ Hids).
  cbn [filter app]. unfold has_id at 1. cbn [id]. rewrite Z.eqb_refl.
  subst row. unfold created_row, with_created, record, set_store.
  cbn [store journal]. rewrite Hurl, <- !app_assoc. cbn [app].
  destruct (b_sync_frequency b);
    destruct (db_error env (SelectById (next_config_id (store w))));
    reflexivity.
Qed.

(** X4.  A body with a non-empty name and endpoint, whose name no stored
    configuration has, is stored as one new row when the statements are
    served: the row takes the next id, is active and has never synced;
    its frequency is 60 when the body has no [sync_frequency], NULL when
    the body has [null] there (the default of the destructuring does not
    apply to [null]), and the number of the body otherwise; the answer
    is 201 with the view of that row; the other rows and the log are as
    they were.  The names are plain ones, on which [sql_eq] is the
    equality of the collation. *)
Theorem post_configurations_creates
    (env : Env) (b : ConfigBody) (w : World) (name url : string)
    (Hname : b_ota_name b = Some name)
    (Hurl : b_endpoint_url b = Some url)
    (Hn : name <> ""%string) (Hu : url <> ""%string)
    (Hplain : plain_name name = true)
    (Hstored : forall c, In c (configurations (store w)) ->
                         plain_name (ota_name c) = true)
    (Hfree : name_is_free (store w) name)
    (Hids : ids_below_counter (store w))
    (Hsel : db_error env (SelectIdsByName name) = None)
    (Hins : db_error env (InsertConfig (Some name)) = None)
    (Hback : db_error env (SelectById (next_config_id (store w))) = None) :
  let row := created_row (now env) (store w) b name in
  fst (post_configurations env b w) =
    Returned (status_json 201
                (CreatedBody "OTA configuration created successfully"
                             (Some (view row)))) /\
  store (snd (post_configurations env b w)) = with_created (store w) row /\
  In row (Sql.select_active (store (snd (post_configurations env b w)))) /\
  lookup (store (snd (post_configurations env b w))) (id row) = Some row /\
  id row = next_config_id (store w) /\
  is_active row = Some true /\
  last_sync_at row = None /\
  sync_frequency row =
    match b_sync_frequency b with
    | Js.Undefined => Some 60
    | Js.Null => None
    | Js.Value f => Some f
    end.
Proof.
  intros row.
  rewrite (post_configurations_insert env b w name url) by assumption.
  rewrite Hback. cbn [fst snd store]. fold row.
  split; [reflexivity|]. split; [reflexivity|]. split; [|split].
  - unfold Sql.select_active, with_created. cbn [configurations].
    apply filter_In. split; [apply in_or_app; right; now left | reflexivity].
  - unfold lookup, Sql.select_by_id, with_created. cbn [configurations].
    change (id row) with (next_config_id (store w)).
    rewrite filter_app, (select_by_id_fresh _ _ Hids).
    cbn [filter app]. unfold has_id, row. cbn [id created_row].
    rewrite Z.eqb_refl. reflexivity.
  - repeat split.
Qed.

Lemma post_configurations_creates_witness :
  let w := Sample.database default_collation [Sample.config 1 "agoda"] [] in
  fst (post_configurations Sample.quiet (Sample.body "airbnb") w) =
    Returned (status_json 201
                (CreatedBody "OTA configuration created successfully"
                   (Some {| v_id := 2; v_ota_name := "airbnb";
                            v_api_username := Some "hotel"%string;
                            v_endpoint_url :=
                              Some "https://partner.example/ari"%string;
                            v_hotel_id := Some "H1"%string;
                            v_is_active := Some true;
                            v_sync_frequency := Some 60 |}))).
Proof.
  intros w.
  refine (proj1 (post_configurations_creates Sample.quiet
                   (Sample.body "airbnb") w "airbnb"
                   "https://partner.example/ari" eq_refl eq_refl
                   _ _ eq_refl _ _ _ eq_refl eq_refl eq_refl)).
  - discriminate.
  - discriminate.
  - intros c [<- | []]. reflexivity.
  - intros c [<- | []]. reflexivity.
  - intros c [<- | []]. simpl. lia.
Defined.

(** A body whose [sync_frequency] is [null] is stored with frequency
    NULL, and the answer shows it. *)
Lemma null_frequency_is_stored :
  let b := {| b_ota_name := Some "airbnb"%string; b_api_key := None;
              b_api_username := None; b_api_password := None;
              b_endpoint_url := Some "https://partner.example/ari"%string;
              b_hotel_id := None; b_sync_frequency := Js.Null;
              b_is_active := None |} in
  let w := Sample.database default_collation [] [] in
  fst (post_configurations Sample.quiet b w) =
    Returned (status_json 201
                (CreatedBody "OTA configuration created successfully"
                   (Some {| v_id := 1; v_ota_name := "airbnb";
                            v_api_username := None;
                            v_endpoint_url :=
                              Some "https://partner.example/ari"%string;
                            v_hotel_id := None;
                            v_is_active := Some true;
                            v_sync_frequency := None |}))) /\
  map sync_frequency
      (configurations (store (snd (post_configurations Sample.quiet b w)))) =
    [None].
Proof. split; reflexivity. Qed.



(** X6.  POST /configurations looks at the body before it sends any
    statement: it answers 400 "OTA name and endpoint URL are required"
    exactly when the name or the endpoint is missing or empty, and then
    nothing was sent to the database and the world is as it was. *)
Theorem post_configurations_validates_first
    (env : Env) (b : ConfigBody) (w : World) :
  let refusal :=
    status_json 400 (ErrorBody "OTA name and endpoint URL are required") in
  (Js.falsy (b_ota_name b) || Js.falsy (b_endpoint_url b) = true ->
   post_configurations env b w = (Returned refusal, w)) /\
  (fst (post_configurations env b w) = Returned refusal ->
   Js.falsy (b_ota_name b) || Js.falsy (b_endpoint_url b) = true).
Proof.
  intros refusal. split.
  - intros Hf. unfold post_configurations, try_catch, ret.
    rewrite Hf. reflexivity.
  - unfold post_configurations, try_catch, bind, query, execute, ret.
    destruct (Js.falsy (b_ota_name b) || Js.falsy (b_endpoint_url b));
      [reflexivity|].
    cbn [record store journal set_store].
    destruct (db_error env (SelectIdsByName _)); [discriminate|].
    destruct (0 <? _); [discriminate|].
    destruct (db_error env (InsertConfig _)); [discriminate|].
    destruct (Sql.insert_config _ _ _ _ _ _ _ _ _) as [[k|e] s'];
      [|discriminate].
    cbn [set_store record store journal].
    destruct (db_error env (SelectById k)); discriminate.
Qed.

Lemma post_configurations_validates_first_witness :
  let b := {| b_ota_name := Some "agoda"%string; b_api_key := None;
              b_api_username := None; b_api_password := None;
              b_endpoint_url := Some ""%string; b_hotel_id := None;
              b_sync_frequency := Js.Undefined; b_is_active := None |} in
  let w := Sample.database default_collation [] [] in
  post_configurations log_table_locked b w =
  (Returned (status_json 400
               (ErrorBody "OTA name and endpoint URL are required")), w).
Proof.
  intros b w.
  exact (proj1 (post_configurations_validates_first log_table_locked b w)
               eq_refl).
Defined.

(** ** Updating a configuration *)

Lemma put_configurations_run env i b w :
  put_configurations env i b w =
  let w1 := record (Executed (SelectById i)) w in
  let w2 := record (Executed (UpdateConfig i (b_ota_name b))) w1 in
  match db_error env (SelectById i) with
  | Some _ => (Returned internal_server_error, w1)
  | None =>
      match Sql.select_by_id (store w) i with
      | [] => (Returned (status_json 404 (ErrorBody "Configuration not found")),
               w1)
      | _ :: _ =>
          match db_error env (UpdateConfig i (b_ota_name b)) with
          | Some _ => (Returned internal_server_error, w2)
          | None =>
              match Sql.update_config (now env) (store w) i (b_ota_name b)
                      (b_api_key b) (b_api_username b) (b_api_password b)
                      (b_endpoint_url b) (b_hotel_id b)
                      (Js.nullable (b_sync_frequency b))
                      (b_is_active b) with
              | (SqlOk _, s) =>
                  (Returned (json (MessageBody
                               "OTA configuration updated successfully")),
                   set_store s w2)
              | (SqlError _, s) =>
                  (Returned internal_server_error, set_store s w2)
              end
          end
      end
  end.
Proof.
  unfold put_configurations, try_catch, bind, query, execute, ret.
  cbn [record store journal set_store].
  destruct (db_error env (SelectById i)); [reflexivity|].
  destruct (Sql.select_by_id (store w) i); [reflexivity|].
  cbn [List.length Z.of_nat Z.eqb].
  destruct (db_error env (UpdateConfig i (b_ota_name b))); [reflexivity|].
  destruct (Sql.update_config _ _ _ _ _ _ _ _ _ _ _) as [[u|e] s];
    reflexivity.
Qed.

Lemma filter_map_same {A} (f : A -> bool) (g : A -> A) (l : list A) :
  (forall x, f x = true -> g x = x) ->
  (forall x, f (g x) = f x) ->
  filter f (map g l) = filter f l.
Proof.
  intros Hg Hf. induction l as [|a l IH]; simpl; [reflexivity|].
  rewrite Hf. destruct (f a) eqn:Ha; [|exact IH].
  rewrite Hg by exact Ha. now rewrite IH.
Qed.

Lemma update_config_frame now s i name key user pass url hotel freq active :
  let s' := snd (Sql.update_config now s i name key user pass url hotel
                   freq active) in
  sync_logs s' = sync_logs s /\
  next_config_id s' = next_config_id s /\
  next_log_id s' = next_log_id s /\
  map id (configurations s') = map id (configurations s) /\
  map created_at (configurations s') = map created_at (configurations s) /\
  map last_sync_at (configurations s') =
    map last_sync_at (configurations s) /\
  forall k, k <> i -> Sql.select_by_id s' k = Sql.select_by_id s k.
Proof.
  unfold Sql.update_config. destruct name as [n|]; cbn [snd];
    [|repeat split; reflexivity].
  unfold with_configurations, Sql.select_by_id.
  cbn [configurations sync_logs next_config_id next_log_id].
  rewrite !map_map.
  repeat split;
    try (apply map_ext; intros c; destruct (has_id i c); reflexivity).
  intros k Hk. apply filter_map_same.
  - intros c Hc. destruct (has_id i c) eqn:Hi; [|reflexivity].
    unfold has_id in *. apply Z.eqb_eq in Hc, Hi. congruence.
  - intros c. destruct (has_id i c); reflexivity.
Qed.

(** X7.  PUT /configurations/:id writes to one row at most.  Whatever
    the body and the environment, the log and the counters are as they
    were; the configurations keep their ids, their order, their creation
    time and their [last_sync_at]; every row with another id is as it
    was; and when no row has the id, nothing changes at all. *)
Theorem put_configurations_frame
    (env : Env) (i : Z) (b : ConfigBody) (w : World) :
  let s := store w in
  let s' := store (snd (put_configurations env i b w)) in
  sync_logs s' = sync_logs s /\
  next_config_id s' = next_config_id s /\
  next_log_id s' = next_log_id s /\
  map id (configurations s') = map id (configurations s) /\
  map created_at (configurations s') = map created_at (configurations s) /\
  map last_sync_at (configurations s') =
    map last_sync_at (configurations s) /\
  (forall k, k <> i -> Sql.select_by_id s' k = Sql.select_by_id s k) /\
  (lookup s i = None -> s' = s).
Proof.
  intros s s'. subst s s'. rewrite put_configurations_run. cbv zeta.
  pose proof (update_config_frame (now env) (store w) i (b_ota_name b)
                (b_api_key b) (b_api_username b) (b_api_password b)
                (b_endpoint_url b) (b_hotel_id b)
                (Js.nullable (b_sync_frequency b))
                (b_is_active b)) as Hframe.
  cbv zeta in Hframe.
  destruct (db_error env (SelectById i));
    [cbn [snd record store]; repeat split; reflexivity|].
  destruct (Sql.select_by_id (store w) i) as [|c rest] eqn:Hsel;
    [cbn [snd record store]; repeat split; reflexivity|].
  destruct (db_error env (UpdateConfig i (b_ota_name b)));
    [cbn [snd record store]; repeat split; try reflexivity;
     unfold lookup; rewrite Hsel; discriminate|].
  destruct (Sql.update_config _ _ _ _ _ _ _ _ _ _ _) as [[u|e] s1];
    cbn [snd set_store store] in *;
    destruct Hframe as (H1 & H2 & H3 & H4 & H5 & H6 & H7);
    repeat split; auto;
    unfold lookup; rewrite Hsel; discriminate.
Qed.

(** X8.  PUT /configurations/:id does not look at the body the way POST
    /configurations does.  On a stored id, the statements being served, a
    body without a name is refused by the NOT NULL column: the answer is
    500, where POST answers 400, and nothing changes.  Any name that is
    given, the empty one included, is written to the row, whether the
    endpoint of the body is null or not. *)
Theorem put_configurations_skips_validation
    (env : Env) (i : Z) (b : ConfigBody) (w : World)
    (Hfound : lookup (store w) i <> None)
    (Hsel : db_error env (SelectById i) = None)
    (Hupd : db_error env (UpdateConfig i (b_ota_name b)) = None) :
  let w' := snd (put_configurations env i b w) in
  match b_ota_name b with
  | None =>
      fst (put_configurations env i b w) = Returned internal_server_error /\
      store w' = store w /\
      fst (post_configurations env b w) =
        Returned (status_json 400
                    (ErrorBody "OTA name and endpoint URL are required"))
  | Some n =>
      fst (put_configurations env i b w) =
        Returned (json (MessageBody
                          "OTA configuration updated successfully")) /\
      option_map ota_name (lookup (store w') i) = Some n /\
      option_map endpoint_url (lookup (store w') i) =
        Some (b_endpoint_url b)
  end.
Proof.
  intros w'. subst w'. rewrite put_configurations_run. cbv zeta.
  rewrite Hsel, Hupd.
  unfold lookup in *.
  destruct (Sql.select_by_id (store w) i) as [|c rest] eqn:Hrows;
    [exfalso; apply Hfound; reflexivity|].
  unfold Sql.update_config.
  destruct (b_ota_name b) as [n|] eqn:Hn.
  - cbn [fst snd set_store store]. split; [reflexivity|].
    unfold Sql.select_by_id, with_configurations in *.
    cbn [configurations].
    assert (Hhd : forall g : Config -> Config,
              (forall x, has_id i (g x) = has_id i x) ->
              hd_error (filter (has_id i) (map g (configurations (store w))))
              = Some (g c)).
    { intros g Hg. rewrite hd_error_filter_map by exact Hg.
      rewrite Hrows. reflexivity. }
    rewrite Hhd.
    + assert (Hc : has_id i c = true).
      { assert (In c (filter (has_id i) (configurations (store w))))
          by (rewrite Hrows; now left).
        now apply filter_In in H. }
      cbn [option_map]. rewrite Hc. split; reflexivity.
    + intros x. unfold has_id. destruct (id x =? i) eqn:E; simpl; auto.
  - cbn [fst snd set_store store]. split; [reflexivity|].
    split; [reflexivity|].
    unfold post_configurations, try_catch, ret. rewrite Hn. reflexivity.
Qed.

Lemma put_configurations_skips_validation_witness :
  let b := {| b_ota_name := Some ""%string; b_api_key := None;
              b_api_username := None; b_api_password := None;
              b_endpoint_url := None; b_hotel_id := None;
              b_sync_frequency := Js.Null; b_is_active := None |} in
  let w := Sample.database default_collation [Sample.config 1 "agoda"] [] in
  option_map ota_name
    (lookup (store (snd (put_configurations Sample.quiet 1 b w))) 1) =
  Some ""%string.
Proof.
  intros b w.
  assert (Hfound : lookup (store w) 1 <> None) by discriminate.
  exact (proj1 (proj2 (put_configurations_skips_validation Sample.quiet 1 b w
                         Hfound eq_refl eq_refl))).
Defined.

(** ** Inactive configurations *)

Lemma task_store_frame env c s k :
  k <> id c ->
  Sql.select_by_id (task_store env c s) k = Sql.select_by_id s k.
Proof.
  intros Hk.
  assert (Hlog : forall st msg n s0,
            Sql.select_by_id (write_log env c st msg n s0) k =
            Sql.select_by_id s0 k).
  { intros. unfold Sql.select_by_id. now rewrite write_log_configurations. }
  assert (Htouch : forall s0,
            Sql.select_by_id (snd (Sql.touch_last_sync (now env) s0 (id c))) k
            = Sql.select_by_id s0 k).
  { intros s0. unfold Sql.select_by_id, Sql.touch_last_sync.
    cbn [snd with_configurations configurations].
    apply filter_map_same.
    - intros x Hx. destruct (has_id (id c) x) eqn:Hc; [|reflexivity].
      unfold has_id in *. apply Z.eqb_eq in Hx, Hc. congruence.
    - intros x. destruct (has_id (id c) x); reflexivity. }
  unfold task_store.
  destruct (db_error env (SelectRooms (id c))); [apply Hlog|].
  destruct (partner_of _); [|apply Hlog].
  cbv zeta. destruct (db_error env (TouchLastSync (id c))).
  - now rewrite !Hlog.
  - now rewrite Htouch, Hlog.
Qed.

Lemma tasks_store_frame env configs k : forall s,
  ~ In k (map id configs) ->
  Sql.select_by_id (tasks_store env configs s) k = Sql.select_by_id s k.
Proof.
  unfold tasks_store.
  induction configs as [|c configs IH]; intros s Hk; simpl; [reflexivity|].
  rewrite IH by (intros H; apply Hk; now right).
  apply task_store_frame. intros ->. apply Hk. now left.
Qed.

(** What POST /sync-all does in each of its three cases. *)
Lemma post_sync_all_cases env w :
  exists r,
    post_sync_all env w =
    (Returned r,
     match db_error env SelectActive with
     | Some _ => record (Executed SelectActive) w
     | None =>
         {| store := tasks_store env (Sql.select_active (store w)) (store w);
            journal := journal w ++ Executed SelectActive ::
                       flat_map (task_events env)
                                (Sql.select_active (store w)) |}
     end).
Proof.
  destruct (db_error env SelectActive) as [e|] eqn:Hdb.
  - eexists. unfold post_sync_all, try_catch, bind, query, execute, ret.
    rewrite Hdb. reflexivity.
  - destruct (Sql.select_active (store w)) as [|c rest] eqn:Hsel.
    + eexists. unfold post_sync_all, try_catch, bind, query, execute, ret.
      rewrite Hdb. cbn [record store journal set_store]. rewrite Hsel.
      reflexivity.
    + assert (Hne : Sql.select_active (store w) <> []) by congruence.
      pose proof (post_sync_all_run env w Hdb Hne) as Hrun.
      cbv zeta in Hrun. rewrite Hsel in Hrun. eexists. exact Hrun.
Qed.

(** X9.  A configuration that is not active is never synced.  POST
    /sync/:id on its id answers 404 after one SELECT, without a query for
    rooms, a request or a log entry; and POST /sync-all, whatever else it
    does, starts no task for it and leaves its row as it was. *)
Theorem inactive_configuration_is_skipped
    (env : Env) (i : Z) (w : World)
    (Hinactive : forall c, In c (configurations (store w)) -> id c = i ->
                           is_true (is_active c) = false) :
  (db_error env (SelectActiveById i) = None ->
   post_sync env i w =
   (Returned (status_json 404
                (ErrorBody "Active OTA configuration not found")),
    record (Executed (SelectActiveById i)) w)) /\
  Sql.select_by_id (store (snd (post_sync_all env w))) i =
    Sql.select_by_id (store w) i /\
  exists events,
    journal (snd (post_sync_all env w)) = journal w ++ events /\
    ~ In i (rooms_queries events).
Proof.
  assert (Hnone : ~ In i (map id (Sql.select_active (store w)))).
  { intros Hin. apply in_map_iff in Hin as (c & Hid & Hc).
    apply filter_In in Hc as [Hc Hact].
    rewrite (Hinactive c Hc Hid) in Hact. discriminate. }
  split; [|split].
  - intros Hdb. unfold post_sync, try_catch, bind, query, execute, ret.
    rewrite Hdb. cbn [record store journal set_store].
    replace (Sql.select_active_by_id (store w) i) with (@nil Config);
      [reflexivity|].
    symmetry. apply filter_nil_iff. intros c Hc.
    destruct (has_id i c) eqn:Hid; [|reflexivity].
    apply Z.eqb_eq in Hid. now rewrite (Hinactive c Hc Hid).
  - destruct (post_sync_all_cases env w) as [r ->]. cbn [snd].
    destruct (db_error env SelectActive); [reflexivity|].
    cbn [store]. now apply tasks_store_frame.
  - destruct (post_sync_all_cases env w) as [r ->]. cbn [snd].
    destruct (db_error env SelectActive).
    + exists [Executed SelectActive]. split; [reflexivity|]. intros [].
    + eexists. split; [reflexivity|].
      change (rooms_queries (Executed SelectActive :: ?l))
        with (rooms_queries l).
      now rewrite rooms_queries_tasks.
Qed.

Lemma inactive_configuration_is_skipped_witness :
  let paused :=
    {| id := 2; ota_name := "airbnb"; api_key := None;
       api_username := None; api_password := None;
       endpoint_url := Some "https://partner.example/ari"%string;
       hotel_id := None; is_active := Some false; last_sync_at := None;
       sync_frequency := Some 60; created_at := 10; updated_at := 10 |} in
  let w := Sample.database default_collation
             [Sample.config 1 "agoda"; paused] [] in
  Sql.select_by_id (store (snd (post_sync_all Sample.quiet w))) 2 = [paused].
Proof.
  intros paused w.
  refine (proj1 (proj2 (inactive_configuration_is_skipped Sample.quiet 2 w
                          _))).
  intros c [<- | [<- | []]]; [discriminate | reflexivity].
Defined.

(** ** The probe of a connection test *)

(** X10.  POST /test-connection/:id probes the stored configuration of
    that id whether it is active or not.  It answers 200 with the name of
    the configuration; a name without an adapter gives a failed test
    without any request; otherwise exactly one request goes out, and the
    test succeeds when the endpoint answers it and fails with
    "Connection failed: <error>" when it does not. *)
Theorem test_connection_outcome
    (env : Env) (i : Z) (w : World) (c : Config) (rest : list Config)
    (Hread : db_error env (SelectById i) = None)
    (Hfound : Sql.select_by_id (store w) i = c :: rest) :
  let w' := snd (post_test_connection env i w) in
  exists ok text,
    fst (post_test_connection env i w) =
      Returned (json (TestBody (ota_name c) ok text (clock_ms env))) /\
    match partner_of (Js.toLowerCase (ota_name c)) with
    | None =>
        ok = false /\
        text = ("Unsupported OTA: " ++ ota_name c)%string /\
        requests (journal w') = requests (journal w)
    | Some p =>
        requests (journal w') =
          requests (journal w) ++ [test_request env p c] /\
        match net env (test_request env p c) with
        | Resolved _ => ok = true /\ text = test_success p
        | Rejected e =>
            ok = false /\ text = ("Connection failed: " ++ e)%string
        end
    end.
Proof.
  intros w'. subst w'.
  unfold post_test_connection, try_catch, bind, query, execute, axios, ret.
  rewrite Hread. cbn [record store journal set_store]. rewrite Hfound.
  unfold requests.
  destruct (partner_of (Js.toLowerCase (ota_name c))) as [p|].
  - cbn [record store journal].
    destruct (net env (test_request env p c)) as [d|e];
      eexists; eexists; (split; [reflexivity|]);
      unfold record, set_store; cbn [snd fst journal];
      rewrite !collect_app; cbn [collect app];
      rewrite app_nil_r; auto.
  - eexists. eexists. split; [reflexivity|].
    unfold record, set_store. cbn [snd fst journal].
    rewrite collect_app. cbn [collect].
    rewrite app_nil_r. auto.
Qed.

Lemma test_connection_outcome_witness :
  let paused :=
    {| id := 2; ota_name := "Airbnb"; api_key := Some "k2"%string;
       api_username := None; api_password := None;
       endpoint_url := Some "https://air.example"%string;
       hotel_id := None; is_active := Some false; last_sync_at := None;
       sync_frequency := Some 60; created_at := 10; updated_at := 10 |} in
  let w := Sample.database default_collation [paused] [] in
  exists ok text,
    fst (post_test_connection Sample.offline 2 w) =
      Returned (json (TestBody "Airbnb" ok text 1000000)) /\
    ok = false /\ text = "Connection failed: connect ECONNREFUSED"%string.
Proof.
  intros paused w.
  destruct (test_connection_outcome Sample.offline 2 w paused [] eq_refl
              eq_refl) as (ok & text & Hrun & Hcase).
  exists ok, text. split; [exact Hrun|]. exact (proj2 Hcase).
Defined.

(** ** The entry a sync writes *)

(** The entry of a sync whose log write and UPDATE are served. *)
Lemma task_store_logs env c s :
  existsb (has_id (id c)) (configurations s) = true ->
  log_writes_run env c ->
  db_error env (TouchLastSync (id c)) = None ->
  sync_logs (task_store env c s) =
  sync_logs s ++
    [{| log_id := next_log_id s;
        ota_configuration_id := Some (id c);
        sync_type := SyncType.availability;
        log_status := status_of (task_result env c);
        message := Some (SyncResult.message (task_result env c));
        sync_started_at := now env;
        sync_completed_at := Some (now env);
        records_processed :=
          Some (if match db_error env (SelectRooms (id c)),
                         partner_of (Js.toLowerCase (ota_name c)) with
                   | None, Some _ => true
                   | _, _ => false
                   end
                then Z.of_nat (List.length
                       (filter room_is_active
                               (inv_rooms (rooms_view env (id c)))))
                else 0) |}].
Proof.
  intros Hknown Hlog Htouch.
  unfold task_store, task_result. rewrite Htouch.
  destruct (db_error env (SelectRooms (id c))) as [e|].
  - rewrite write_log_served by auto. reflexivity.
  - destruct (partner_of (Js.toLowerCase (ota_name c))) as [p|].
    + cbv zeta.
      cbn [Sql.touch_last_sync snd with_configurations sync_logs].
      rewrite write_log_served by auto.
      unfold records_of, snapshot, select_rooms. rewrite length_map.
      reflexivity.
    + rewrite write_log_served by auto. reflexivity.
Qed.

(** X11.  When its log write and its UPDATE are served, a sync of a
    stored configuration adds one entry whose id is the next of the log
    table, whose message is the message of the outcome returned to the
    caller, whose start and completion are the current time, and whose
    record count is the number of active rooms when an adapter was called
    (whether the partner accepted them or not) and 0 when the sync failed
    before any adapter was called. *)
Theorem sync_log_entry_contents
    (env : Env) (c : Config) (w : World)
    (Hknown : existsb (has_id (id c)) (configurations (store w)) = true)
    (Hlog : log_writes_run env c)
    (Htouch : db_error env (TouchLastSync (id c)) = None) :
  let r := task_result env c in
  let dispatched :=
    match db_error env (SelectRooms (id c)),
          partner_of (Js.toLowerCase (ota_name c)) with
    | None, Some _ => true
    | _, _ => false
    end in
  sync_logs (store (snd (performOTASync env c w))) =
  sync_logs (store w) ++
    [{| log_id := next_log_id (store w);
        ota_configuration_id := Some (id c);
        sync_type := SyncType.availability;
        log_status := status_of r;
        message := Some (SyncResult.message r);
        sync_started_at := now env;
        sync_completed_at := Some (now env);
        records_processed :=
          Some (if dispatched
                then Z.of_nat (List.length
                       (filter room_is_active
                               (inv_rooms (rooms_view env (id c)))))
                else 0) |}].
Proof.
  intros r dispatched. subst r dispatched.
  rewrite performOTASync_run. cbn [snd store].
  now apply task_store_logs.
Qed.

Lemma sync_log_entry_contents_witness :
  let c := Sample.config 1 "agoda" in
  let w := Sample.database default_collation [c] [] in
  map records_processed
      (sync_logs (store (snd (performOTASync Sample.offline c w)))) =
  [Some 1].
Proof.
  intros c w.
  rewrite (sync_log_entry_contents Sample.offline c w eq_refl
             (fun _ _ _ => eq_refl) eq_refl).
  reflexivity.
Defined.

(** ** What the partners are told *)

Lemma count_zero_existsb {A} (f : A -> bool) (l : list A) :
  (Z.of_nat (List.length (filter f l)) =? 0) = negb (existsb f l).
Proof.
  induction l as [|a l IH]; simpl; [reflexivity|].
  destruct (f a); simpl; [reflexivity | exact IH].
Qed.

Lemma offers_of_rows env p c inv :
  offers (req_body (ari_request env p c (select_rooms inv))) =
  map (offer_of inv) (filter room_is_active (inv_rooms inv)).
Proof.
  unfold select_rooms.
  destruct p; cbn [ari_request req_body offers bc_rooms ag_Rooms
                   ab_operations];
    induction (filter room_is_active (inv_rooms inv)) as [|r l IH];
    try reflexivity;
    cbn [map flat_map app] in *; rewrite IH; f_equal;
    unfold offer_of;
    cbn [bc_room_id bc_rate bc_availability ag_RoomId ag_Rate
         ag_Availability ab_room_id ab_price_amount ab_availability
         row_room is_available];
    rewrite <- count_zero_existsb;
    try (destruct (Z.of_nat _ =? 0)); reflexivity.
Qed.

(** X12.  A sync sends one request at most, a POST to the endpoint of
    the configuration with a timeout of 30 seconds; whichever of the three
    partners it goes to, its body offers each active room exactly once, in
    table order, at the price of the room, as available exactly when no
    booking occupies the room today; inactive rooms are not offered. *)
Theorem sync_offers_active_rooms (env : Env) (c : Config) (w : World) :
  let inv := rooms_view env (id c) in
  exists sent,
    requests (journal (snd (performOTASync env c w))) =
      requests (journal w) ++ sent /\
    (List.length sent <= 1)%nat /\
    (forall r, In r sent ->
       offers (req_body r) =
         map (offer_of inv) (filter room_is_active (inv_rooms inv)) /\
       req_method r = HttpPost /\
       req_url r = endpoint_url c /\
       req_timeout r = 30000) /\
    (forall room,
       offer_available (offer_of inv room) = true <->
       ~ exists b, In b (inv_bookings inv) /\
                   occupies (inv_today inv) (room_id room) b).
Proof.
  intros inv. rewrite performOTASync_run. cbn [snd journal].
  exists (requests (task_events env c)). split.
  { unfold requests. now rewrite collect_app. }
  rewrite requests_task. unfold task_request, snapshot. fold inv.
  split; [|split].
  - destruct (db_error env _); [simpl; lia|].
    destruct (partner_of _); simpl; lia.
  - intros r Hr.
    destruct (db_error env (SelectRooms (id c))); [destruct Hr|].
    destruct (partner_of (Js.toLowerCase (ota_name c))) as [p|];
      [|destruct Hr].
    destruct Hr as [<- | []].
    split; [apply offers_of_rows|].
    destruct p; repeat split; reflexivity.
  - intros room. unfold offer_of. cbn [offer_available].
    rewrite negb_true_iff. split.
    + intros Hnone (b & Hb & Hocc).
      apply join_on_occupies in Hocc.
      assert (existsb (join_on (inv_today inv) room) (inv_bookings inv)
              = true) by (apply existsb_exists; eauto).
      congruence.
    + intros Hnone.
      destruct (existsb _ _) eqn:E; [|reflexivity].
      exfalso. apply Hnone. apply existsb_exists in E as (b & Hb & Hj).
      exists b. split; [exact Hb|]. now apply join_on_occupies.
Qed.

(** ** The log listing *)

(** What GET /sync-logs answers, by cases. *)
Lemma get_sync_logs_run env q w :
  let stmt := SelectLogs (q_ota_id q) (bound_limit q) (bound_offset q) in
  get_sync_logs env q w =
  (match db_error env stmt with
   | Some _ => Returned internal_server_error
   | None =>
       match Sql.select_logs (tie_rank env stmt) (store w) (q_ota_id q)
               (bound_limit q) (bound_offset q) with
       | SqlOk rows => Returned (json (LogsBody rows))
       | SqlError _ => Returned internal_server_error
       end
   end, record (Executed stmt) w).
Proof.
  unfold get_sync_logs, try_catch, bind, execute, ret. cbv zeta.
  fold (bound_limit q). fold (bound_offset q).
  cbn [record store journal].
  destruct (db_error env _); [reflexivity|].
  destruct (Sql.select_logs _ _ _ _ _); destruct w; reflexivity.
Qed.

(** What the listing query returns when the server accepts it. *)
Lemma select_logs_ok rank s ota limit offset rows :
  Sql.select_logs rank s ota limit offset = SqlOk rows ->
  exists n k,
    limit = Some n /\ offset = Some k /\ 0 <= n /\ 0 <= k /\
    rows =
      firstn (Z.to_nat n)
        (skipn (Z.to_nat k)
           (Sql.order_ranked (fun r : Sql.LogRow => sync_started_at (fst r))
              rank
              (match ota with
               | Some i => filter (fun r => refers_to i (fst r))
                                  (Sql.join_logs s)
               | None => Sql.join_logs s
               end))).
Proof.
  unfold Sql.select_logs.
  destruct limit as [n|]; [|discriminate].
  destruct offset as [k|]; [|discriminate].
  destruct (_ || _) eqn:Hneg; [discriminate|].
  apply orb_false_iff in Hneg as [Hn Hk].
  apply Z.ltb_ge in Hn. apply Z.ltb_ge in Hk.
  intros [= <-]. exists n, k. auto.
Qed.

Section Ordering.

Context {A : Type} (key rank : A -> Z).

Lemma descending_cons x l :
  descending key (x :: l) <->
  (forall y, In y l -> key y <= key x) /\ descending key l.
Proof.
  unfold descending. split.
  - intros H. split.
    + intros y Hy. apply In_nth_error in Hy as [n Hn].
      apply (H 0%nat (S n) x y); [lia | reflexivity | exact Hn].
    + intros i j a b Hij Ha Hb.
      apply (H (S i) (S j) a b); [lia | exact Ha | exact Hb].
  - intros [Hhd Htl] i j a b Hij Ha Hb.
    destruct j as [|j]; [lia|]. simpl in Hb.
    destruct i as [|i]; simpl in Ha.
    + injection Ha as <-. apply Hhd. eapply nth_error_In; eauto.
    + apply (Htl i j a b); [lia | exact Ha | exact Hb].
Qed.

Lemma insert_desc_descending x l :
  descending key l -> descending key (Sql.insert_desc key x l).
Proof.
  induction l as [|y l IH]; simpl; intros Hl.
  - apply descending_cons. split; [intros y []|exact Hl].
  - apply descending_cons in Hl as [Hhd Htl].
    destruct (key y <? key x) eqn:E.
    + apply Z.ltb_lt in E. apply descending_cons. split.
      * intros z [<- | Hz]; [lia|]. specialize (Hhd z Hz). lia.
      * apply descending_cons. auto.
    + apply Z.ltb_ge in E. apply descending_cons. split.
      * intros z Hz. apply in_insert_desc in Hz as [-> | Hz]; auto.
      * auto.
Qed.

Lemma order_by_desc_descending l :
  descending key (Sql.order_by_desc key l).
Proof.
  unfold Sql.order_by_desc. induction l as [|x l IH]; simpl.
  - intros i j a b _ Ha. destruct i; discriminate.
  - now apply insert_desc_descending.
Qed.

Lemma descending_slice l n k :
  descending key l -> descending key (firstn n (skipn k l)).
Proof.
  unfold descending. intros H i j a b Hij Ha Hb.
  assert (Hi : (i < n)%nat).
  { destruct (Nat.ltb_spec i n); [assumption|].
    rewrite nth_error_firstn in Ha.
    destruct (Nat.ltb_spec i n); [lia | discriminate]. }
  assert (Hj : (j < n)%nat).
  { destruct (Nat.ltb_spec j n); [assumption|].
    rewrite nth_error_firstn in Hb.
    destruct (Nat.ltb_spec j n); [lia | discriminate]. }
  rewrite nth_error_firstn, nth_error_skipn in Ha, Hb.
  destruct (Nat.ltb_spec i n); [|lia].
  destruct (Nat.ltb_spec j n); [|lia].
  apply (H (k + i)%nat (k + j)%nat a b); [lia | exact Ha | exact Hb].
Qed.

Lemma insert_desc_in x l : In x (Sql.insert_desc key x l).
Proof.
  induction l as [|y l IH]; simpl; [now left|].
  destruct (key y <? key x); simpl; auto.
Qed.

Lemma insert_desc_keeps x y l :
  In y l -> In y (Sql.insert_desc key x l).
Proof.
  induction l as [|z l IH]; simpl; [intros []|].
  destruct (key z <? key x); simpl; intros [-> | H]; auto.
Qed.

(** ORDER BY loses no row. *)
Lemma order_by_desc_complete x l :
  In x l -> In x (Sql.order_by_desc key l).
Proof.
  unfold Sql.order_by_desc. induction l as [|y l IH]; simpl; [intros []|].
  intros [-> | H]; [apply insert_desc_in | apply insert_desc_keeps; auto].
Qed.

(** A row that is newer than all the others comes first. *)
Lemma insert_desc_under x y l :
  key y < key x ->
  Sql.insert_desc key y (x :: l) = x :: Sql.insert_desc key y l.
Proof.
  intros H. simpl. destruct (Z.ltb_spec (key x) (key y)); [lia|reflexivity].
Qed.

Lemma order_by_desc_newest x l :
  (forall y, In y l -> key y < key x) ->
  Sql.order_by_desc key (l ++ [x]) = x :: Sql.order_by_desc key l.
Proof.
  unfold Sql.order_by_desc. induction l as [|y l IH]; intros H; simpl.
  - reflexivity.
  - rewrite IH by (intros z Hz; apply H; now right).
    apply insert_desc_under. apply H. now left.
Qed.

Lemma insert_ranked_descending x l :
  descending key l -> descending key (Sql.insert_ranked key rank x l).
Proof.
  induction l as [|y l IH]; simpl; intros Hl.
  - apply descending_cons. split; [intros y []|exact Hl].
  - apply descending_cons in Hl as [Hhd Htl].
    unfold Sql.before.
    destruct (Z.ltb_spec (key y) (key x)) as [E|E]; cbn [orb].
    + apply descending_cons. split.
      * intros z [<- | Hz]; [lia|]. specialize (Hhd z Hz). lia.
      * apply descending_cons. auto.
    + destruct (Z.eqb_spec (key y) (key x)) as [Eq|Ne]; cbn [andb].
      * destruct (rank y <? rank x).
        -- apply descending_cons. split.
           ++ intros z [<- | Hz]; [lia|]. specialize (Hhd z Hz). lia.
           ++ apply descending_cons. auto.
        -- apply descending_cons. split.
           ++ intros z Hz. apply in_insert_ranked in Hz as [-> | Hz]; auto.
           ++ auto.
      * apply descending_cons. split.
        -- intros z Hz. apply in_insert_ranked in Hz as [-> | Hz]; auto.
        -- auto.
Qed.

(** Whatever the order of the ties, the rows come out in descending
    order of the key. *)
Lemma order_ranked_descending l :
  descending key (Sql.order_ranked key rank l).
Proof.
  unfold Sql.order_ranked. induction l as [|x l IH]; simpl.
  - intros i j a b _ Ha. destruct i; discriminate.
  - now apply insert_ranked_descending.
Qed.

Lemma insert_ranked_in x l : In x (Sql.insert_ranked key rank x l).
Proof.
  induction l as [|y l IH]; simpl; [now left|].
  destruct (Sql.before key rank x y); simpl; auto.
Qed.

Lemma insert_ranked_keeps x y l :
  In y l -> In y (Sql.insert_ranked key rank x l).
Proof.
  induction l as [|z l IH]; simpl; [intros []|].
  destruct (Sql.before key rank x z); simpl; intros [-> | H]; auto.
Qed.

Lemma order_ranked_complete x l :
  In x l -> In x (Sql.order_ranked key rank l).
Proof.
  unfold Sql.order_ranked. induction l as [|y l IH]; simpl; [intros []|].
  intros [-> | H];
    [apply insert_ranked_in | apply insert_ranked_keeps; auto].
Qed.

Lemma insert_ranked_under x y l :
  key y < key x ->
  Sql.insert_ranked key rank y (x :: l) =
    x :: Sql.insert_ranked key rank y l.
Proof.
  intros H. simpl. unfold Sql.before.
  destruct (Z.ltb_spec (key x) (key y)); [lia|].
  destruct (Z.eqb_spec (key x) (key y)); [lia|]. reflexivity.
Qed.

(** A row that is newer than all the others comes first, whatever the
    order of the ties. *)
Lemma order_ranked_newest x l :
  (forall y, In y l -> key y < key x) ->
  Sql.order_ranked key rank (l ++ [x]) = x :: Sql.order_ranked key rank l.
Proof.
  unfold Sql.order_ranked. induction l as [|y l IH]; intros H; simpl.
  - reflexivity.
  - rewrite IH by (intros z Hz; apply H; now right).
    apply insert_ranked_under. apply H. now left.
Qed.

(** Where no two rows have the same key the order of the ties plays no
    part. *)
Lemma insert_ranked_distinct x l :
  ~ In (key x) (map key l) ->
  Sql.insert_ranked key rank x l = Sql.insert_desc key x l.
Proof.
  induction l as [|y l IH]; simpl; intros Hx; [reflexivity|].
  unfold Sql.before.
  destruct (Z.eqb_spec (key y) (key x)) as [E|E]; [tauto|].
  rewrite orb_false_r.
  destruct (key y <? key x); [reflexivity|]. rewrite IH; tauto.
Qed.

Lemma order_ranked_distinct l :
  NoDup (map key l) ->
  Sql.order_ranked key rank l = Sql.order_by_desc key l.
Proof.
  unfold Sql.order_ranked, Sql.order_by_desc.
  induction l as [|x l IH]; simpl; intros Hl; [reflexivity|].
  inversion Hl as [|k ks Hx Hrest]; subst.
  rewrite IH by exact Hrest. apply insert_ranked_distinct.
  intros Hin. apply Hx. apply in_map_iff in Hin as (y & Hy & Hin).
  apply in_map_iff. exists y. split; [exact Hy|].
  now apply (in_order_by_desc key) in Hin.
Qed.

End Ordering.

(** A row at position [n] is on the page that holds position [n]. *)
Lemma in_page {A} (l : list A) (x : A) (n size : nat) :
  nth_error l n = Some x -> (0 < size)%nat ->
  In x (firstn size (skipn (n / size * size) l)).
Proof.
  intros Hn Hsize.
  apply (nth_error_In _ (n mod size)).
  rewrite nth_error_firstn.
  pose proof (Nat.mod_upper_bound n size) as Hmod.
  destruct (Nat.ltb_spec (n mod size) size); [|lia].
  rewrite nth_error_skipn.
  replace (n / size * size + n mod size)%nat with n; [exact Hn|].
  rewrite (Nat.div_mod_eq n size) at 1. lia.
Qed.

Lemma join_logs_complete s l c :
  In l (sync_logs s) -> In c (configurations s) ->
  ota_configuration_id l = Some (id c) ->
  In (l, ota_name c) (Sql.join_logs s).
Proof.
  intros Hl Hc Href. unfold Sql.join_logs. apply in_flat_map.
  exists l. split; [exact Hl|]. apply in_map_iff.
  exists c. split; [reflexivity|]. apply filter_In. split; [exact Hc|].
  unfold refers_to. rewrite Href. apply Z.eqb_refl.
Qed.

Lemma filter_unique_id (l : list Config) (c : Config) :
  NoDup (map id l) -> In c l -> filter (has_id (id c)) l = [c].
Proof.
  induction l as [|a l IH]; simpl; [intros _ []|].
  intros Hnd Hin. inversion Hnd as [|x t Hnotin Hnd']; subst.
  destruct Hin as [-> | Hin].
  - unfold has_id at 1. rewrite Z.eqb_refl. f_equal.
    apply filter_nil_iff. intros y Hy. unfold has_id.
    apply Z.eqb_neq. intros Heq. apply Hnotin. rewrite <- Heq.
    now apply in_map.
  - destruct (has_id (id c) a) eqn:Ha.
    + exfalso. apply Hnotin. apply Z.eqb_eq in Ha. rewrite Ha.
      now apply in_map.
    + now apply IH.
Qed.

(** With [id] a key of the configurations a log entry is joined with
    one configuration at most. *)
Lemma joined_once (l : SyncLog) (configs : list Config) :
  NoDup (map id configs) ->
  (List.length (filter (fun c => refers_to (id c) l) configs) <= 1)%nat.
Proof.
  intros Hkeys.
  destruct (filter (fun c => refers_to (id c) l) configs) as [|c rest] eqn:E;
    [simpl; lia|].
  assert (Hc : In c (filter (fun c => refers_to (id c) l) configs))
    by (rewrite E; now left).
  apply filter_In in Hc as [Hin Href].
  assert (Hsame : filter (fun c0 => refers_to (id c0) l) configs =
                  filter (has_id (id c)) configs).
  { apply filter_ext. intros c0. unfold refers_to, has_id in *.
    destruct (ota_configuration_id l) as [j|]; [|discriminate].
    apply Z.eqb_eq in Href. subst j. apply Z.eqb_sym. }
  rewrite <- E, Hsame, (filter_unique_id _ c Hkeys Hin). simpl. lia.
Qed.

(** Where no two log entries started at the same instant, no two rows
    of the joined listing did. *)
Lemma join_logs_distinct s :
  NoDup (map id (configurations s)) ->
  NoDup (map sync_started_at (sync_logs s)) ->
  NoDup (map (fun r : Sql.LogRow => sync_started_at (fst r))
             (Sql.join_logs s)).
Proof.
  intros Hkeys. unfold Sql.join_logs.
  induction (sync_logs s) as [|l logs IH]; cbn [flat_map map]; intros Hd;
    [constructor|].
  inversion Hd as [|t ts Hfresh Hrest]; subst.
  rewrite map_app, map_map. cbn [fst].
  pose proof (joined_once l (configurations s) Hkeys) as Hone.
  assert (Hlater : ~ In (sync_started_at l)
                     (map (fun r : Sql.LogRow => sync_started_at (fst r))
                        (flat_map
                           (fun l0 =>
                              map (fun c => (l0, ota_name c))
                                (filter (fun c => refers_to (id c) l0)
                                   (configurations s))) logs))).
  { intros Hin. apply Hfresh.
    apply in_map_iff in Hin as ([l0 name] & Hkey & Hrow).
    apply in_flat_map in Hrow as (l1 & Hl1 & Hrow).
    apply in_map_iff in Hrow as (c0 & Heq & _). injection Heq as <- _.
    cbn [fst] in Hkey. rewrite <- Hkey. now apply in_map. }
  destruct (filter (fun c => refers_to (id c) l) (configurations s))
    as [|c [|c' rest]]; cbn [map app].
  - now apply IH.
  - constructor; [exact Hlater | now apply IH].
  - simpl in Hone. lia.
Qed.

(** X13.  The rows GET /sync-logs returns are in descending order of
    [sync_started_at]: no row started before a row that follows it,
    whatever the filter, the page size and the page, and whatever order
    the server gives to rows that started at the same instant. *)
Theorem sync_logs_listed_newest_first
    (env : Env) (q : LogsQuery) (w : World) (rows : list Sql.LogRow)
    (Hrows : fst (get_sync_logs env q w) = Returned (json (LogsBody rows))) :
  newest_first rows.
Proof.
  rewrite get_sync_logs_run in Hrows. cbv zeta in Hrows. cbn [fst] in Hrows.
  destruct (db_error env _); [discriminate|].
  destruct (Sql.select_logs _ _ _ _ _) as [found|] eqn:Hsel; [|discriminate].
  injection Hrows as <-.
  apply select_logs_ok in Hsel as (n & k & _ & _ & _ & _ & ->).
  apply descending_slice, order_ranked_descending.
Qed.

Lemma sync_logs_listed_newest_first_witness :
  let late :=
    {| log_id := 2; ota_configuration_id := Some 1;
       sync_type := SyncType.availability; log_status := LogStatus.failed;
       message := Some "Agoda sync failed: timeout"%string;
       sync_started_at := 950; sync_completed_at := Some 950;
       records_processed := Some 1 |} in
  let w := Sample.database default_collation [Sample.config 1 "agoda"]
             [Sample.entry 1 1; late] in
  newest_first [(late, "agoda"%string); (Sample.entry 1 1, "agoda"%string)].
Proof.
  intros late w.
  exact (sync_logs_listed_newest_first Sample.quiet no_query w _ eq_refl).
Defined.

(** X14.  A page of GET /sync-logs has at most as many rows as
    [parseInt] reads in [limit] (50 when the request gives none), and
    when the request names a configuration every row is an entry of that
    configuration. *)
Theorem sync_logs_page_is_bounded
    (env : Env) (q : LogsQuery) (w : World) (rows : list Sql.LogRow)
    (Hrows : fst (get_sync_logs env q w) = Returned (json (LogsBody rows))) :
  (exists limit,
     Js.parseInt
       (match q_limit q with Some l => l | None => Js.Decimal 50 end) =
       Some limit /\
     Z.of_nat (List.length rows) <= limit) /\
  forall i row, q_ota_id q = Some i -> In row rows ->
                ota_configuration_id (fst row) = Some i.
Proof.
  rewrite get_sync_logs_run in Hrows. cbv zeta in Hrows. cbn [fst] in Hrows.
  destruct (db_error env _); [discriminate|].
  destruct (Sql.select_logs _ _ _ _ _) as [found|] eqn:Hsel; [|discriminate].
  injection Hrows as <-.
  apply select_logs_ok in Hsel as (n & k & Hn & _ & Hpos & _ & ->).
  split.
  - exists n. split; [exact Hn|]. rewrite length_firstn. lia.
  - intros i row Hq Hrow. rewrite Hq in Hrow.
    apply in_firstn_list, in_skipn_list, in_order_ranked in Hrow.
    apply filter_In in Hrow as [_ Href]. unfold refers_to in Href.
    destruct (ota_configuration_id (fst row)) as [j|]; [|discriminate].
    apply Z.eqb_eq in Href. now subst.
Qed.

Lemma sync_logs_page_is_bounded_witness :
  let w := Sample.database default_collation
             [Sample.config 1 "agoda"; Sample.config 2 "airbnb"]
             [Sample.entry 1 1; Sample.entry 2 2; Sample.entry 3 1] in
  let q := {| q_ota_id := Some 1; q_limit := Some (Js.Decimal 1);
              q_page := Some (Js.Decimal 2); q_offset := None |} in
  exists rows,
    fst (get_sync_logs Sample.quiet q w) = Returned (json (LogsBody rows)) /\
    exists limit,
      Js.parseInt (Js.Decimal 1) = Some limit /\
      Z.of_nat (List.length rows) <= limit.
Proof.
  intros w q. eexists. split; [reflexivity|].
  exact (proj1 (sync_logs_page_is_bounded Sample.quiet q w _ eq_refl)).
Defined.

(** X15.  Where [id] is a key of the configurations and no two log
    entries started at the same instant, the pages 1, 2, 3, ... of GET
    /sync-logs, asked for with a positive page size and page numbers
    written as decimal numerals, leave no entry out: every log entry of
    a stored configuration is on some page, joined with the name of its
    configuration, when the listing query is served.  The page size is
    at most 2^53 - 1, so that [parseInt] reads it exactly.  (Entries
    that started at the same instant may change places between two
    requests, and one of them may then be on no page.) *)
Theorem sync_logs_pages_cover
    (env : Env) (w : World) (l : SyncLog) (c : Config) (limit : Z)
    (Hl : In l (sync_logs (store w)))
    (Hc : In c (configurations (store w)))
    (Href : ota_configuration_id l = Some (id c))
    (Hlimit : 0 < limit <= 9007199254740991)
    (Hkeys : NoDup (map id (configurations (store w))))
    (Hdistinct : NoDup (map sync_started_at (sync_logs (store w))))
    (Hserved : forall offset,
                 db_error env (SelectLogs None (Some limit) (Some offset)) =
                 None) :
  exists page rows,
    1 <= page /\
    fst (get_sync_logs env (page_query limit page) w) =
      Returned (json (LogsBody rows)) /\
    In (l, ota_name c) rows.
Proof.
  pose proof (join_logs_complete _ _ _ Hl Hc Href) as Hjoin.
  apply (order_by_desc_complete
           (fun r : Sql.LogRow => sync_started_at (fst r))) in Hjoin.
  apply In_nth_error in Hjoin as [n Hn].
  set (size := Z.to_nat limit).
  assert (Hsize : (0 < size)%nat) by (unfold size; lia).
  exists (Z.of_nat (n / size) + 1). eexists.
  split; [lia|].
  rewrite get_sync_logs_run. cbv zeta.
  unfold bound_limit, bound_offset.
  cbn [fst page_query q_limit q_page q_ota_id Js.parseInt].
  rewrite Hserved. unfold Sql.select_logs.
  rewrite (order_ranked_distinct _ _ _ (join_logs_distinct _ Hkeys Hdistinct)).
  replace (Z.of_nat (n / size) + 1 - 1) with (Z.of_nat (n / size)) by lia.
  destruct (Z.ltb_spec limit 0); [lia|].
  destruct (Z.ltb_spec (Z.of_nat (n / size) * limit) 0); [nia|].
  cbn [orb]. split; [reflexivity|].
  replace (Z.to_nat (Z.of_nat (n / size) * limit))
    with (n / size * size)%nat
    by (unfold size; rewrite Z2Nat.inj_mul, Nat2Z.id; lia).
  fold size. now apply in_page.
Qed.

Lemma sync_logs_pages_cover_witness :
  let second :=
    {| log_id := 2; ota_configuration_id := Some 2;
       sync_type := SyncType.availability; log_status := LogStatus.success;
       message := Some "Airbnb calendar sync completed successfully"%string;
       sync_started_at := 910; sync_completed_at := Some 910;
       records_processed := Some 1 |} in
  let third :=
    {| log_id := 3; ota_configuration_id := Some 1;
       sync_type := SyncType.availability; log_status := LogStatus.failed;
       message := Some "Agoda sync failed: timeout"%string;
       sync_started_at := 920; sync_completed_at := Some 920;
       records_processed := Some 1 |} in
  let w := Sample.database default_collation
             [Sample.config 1 "agoda"; Sample.config 2 "airbnb"]
             [Sample.entry 1 1; second; third] in
  exists page rows,
    1 <= page /\
    fst (get_sync_logs Sample.quiet (page_query 2 page) w) =
      Returned (json (LogsBody rows)) /\
    In (Sample.entry 1 1, "agoda"%string) rows.
Proof.
  intros second third w.
  apply (sync_logs_pages_cover Sample.quiet w (Sample.entry 1 1)
           (Sample.config 1 "agoda") 2).
  - simpl. auto.
  - simpl. auto.
  - reflexivity.
  - lia.
  - simpl. constructor; [intros [H | []]; discriminate H|].
    constructor; [intros []|constructor].
  - simpl. constructor.
    { intros [H | [H | []]]; discriminate H. }
    constructor; [intros [H | []]; discriminate H|].
    constructor; [intros []|constructor].
  - reflexivity.
Defined.

(** X16.  GET /sync-logs computes the offset as (page - 1) * limit and
    hands it to the query unchecked: with a positive page size, page 0 or
    a negative page makes the offset negative, the database refuses the
    statement and the route answers 500.  The store is as it was. *)
Theorem sync_logs_page_below_one_fails
    (env : Env) (q : LogsQuery) (w : World) (limit page : Z)
    (Hq_limit : q_limit q = Some (Js.Decimal limit))
    (Hq_page : q_page q = Some (Js.Decimal page))
    (Hlimit : 0 < limit)
    (Hpage : page <= 0) :
  fst (get_sync_logs env q w) = Returned internal_server_error /\
  store (snd (get_sync_logs env q w)) = store w.
Proof.
  rewrite get_sync_logs_run. cbv zeta. unfold bound_limit, bound_offset.
  rewrite Hq_limit, Hq_page.
  cbn [fst snd record store Js.parseInt]. split; [|reflexivity].
  destruct (db_error env _); [reflexivity|].
  unfold Sql.select_logs.
  destruct (Z.ltb_spec ((page - 1) * limit) 0); [|nia].
  rewrite orb_true_r. reflexivity.
Qed.

Lemma sync_logs_page_below_one_fails_witness :
  fst (get_sync_logs Sample.quiet (page_query 50 0)
         (Sample.database default_collation [Sample.config 1 "agoda"]
            [Sample.entry 1 1])) =
  Returned internal_server_error.
Proof.
  refine (proj1 (sync_logs_page_below_one_fails Sample.quiet
                   (page_query 50 0) _ 50 0 eq_refl eq_refl _ _)); lia.
Defined.

(** ** Routes one after the other *)

Lemma select_active_by_id_in s i c rest :
  Sql.select_active_by_id s i = c :: rest ->
  In c (configurations s) /\ id c = i.
Proof.
  intros H.
  assert (Hin : In c (Sql.select_active_by_id s i)) by (rewrite H; now left).
  apply filter_In in Hin as [Hin Hc].
  apply andb_true_iff in Hc as [Hid _]. split; [exact Hin|].
  now apply Z.eqb_eq.
Qed.

(** The rows of the join for the entries of configurations whose names
    a sync leaves alone. *)
Lemma join_logs_after_task env c s :
  Sql.join_logs (task_store env c s) =
  Sql.join_logs
    {| configurations := configurations s;
       sync_logs := sync_logs (task_store env c s);
       next_config_id := next_config_id s;
       next_log_id := next_log_id s;
       collation := collation s |}.
Proof.
  assert (Htouch : forall s0 logs,
            flat_map
              (fun l => map (fun c0 => (l, ota_name c0))
                 (filter (fun c0 => refers_to (id c0) l)
                    (configurations
                       (snd (Sql.touch_last_sync (now env) s0 (id c))))))
              logs =
            flat_map
              (fun l => map (fun c0 => (l, ota_name c0))
                 (filter (fun c0 => refers_to (id c0) l)
                    (configurations s0)))
              logs).
  { intros s0 logs. apply flat_map_ext. intros l.
    unfold Sql.touch_last_sync. cbn [snd with_configurations configurations].
    induction (configurations s0) as [|a t IH]; [reflexivity|].
    cbn [map filter].
    destruct (has_id (id c) a); cbn [id ota_name];
      destruct (refers_to (id a) l); cbn [map]; now rewrite IH. }
  unfold Sql.join_logs, task_store. cbn [configurations sync_logs].
  destruct (db_error env (SelectRooms (id c)));
    [now rewrite write_log_configurations|].
  destruct (partner_of _); [|now rewrite write_log_configurations].
  cbv zeta. destruct (db_error env (TouchLastSync (id c))).
  - now rewrite !write_log_configurations.
  - rewrite Htouch. now rewrite write_log_configurations.
Qed.

(** X17.  After a sync by POST /sync/:id whose log write and UPDATE are
    served, on a database whose earlier entries all started before the
    current time, GET /sync-logs without parameters lists the entry of
    that sync first, under the name of the configuration, with the
    message and the status the sync route reported. *)
Theorem latest_sync_heads_the_log
    (env env' : Env) (i : Z) (w : World) (c : Config) (rest : list Config)
    (Hread : db_error env (SelectActiveById i) = None)
    (Hfound : Sql.select_active_by_id (store w) i = c :: rest)
    (Hlog : log_writes_run env c)
    (Htouch : db_error env (TouchLastSync (id c)) = None)
    (Hkeys : NoDup (map id (configurations (store w))))
    (Holder : forall l, In l (sync_logs (store w)) ->
                        sync_started_at l < now env)
    (Hlist : db_error env' (SelectLogs None (Some 50) (Some 0)) = None) :
  let w1 := snd (post_sync env i w) in
  let r := task_result env c in
  exists entry rows,
    fst (get_sync_logs env' no_query w1) =
      Returned (json (LogsBody ((entry, ota_name c) :: rows))) /\
    fst (post_sync env i w) =
      Returned (json (SyncBody
                        (if SyncResult.success r
                         then "Sync completed successfully"
                         else "Sync failed")
                        (SyncResult.success r) (SyncResult.message r)
                        (ota_name c) (clock_ms env))) /\
    message entry = Some (SyncResult.message r) /\
    log_status entry = status_of r /\
    ota_configuration_id entry = Some i.
Proof.
  intros w1 r. subst w1.
  destruct (select_active_by_id_in _ _ _ _ Hfound) as [Hin Hid].
  assert (Hknown : existsb (has_id (id c)) (configurations (store w)) = true).
  { apply existsb_has_id. eauto. }
  rewrite (post_sync_run env i w c rest Hread Hfound). cbn [fst snd].
  rewrite get_sync_logs_run. cbv zeta. unfold bound_limit, bound_offset.
  cbn [fst no_query q_limit q_page q_ota_id store Js.parseInt].
  change ((1 - 1) * 50) with 0. rewrite Hlist.
  unfold Sql.select_logs. cbn [Z.ltb Z.compare orb Z.to_nat skipn].
  rewrite join_logs_after_task.
  rewrite (task_store_logs env c (store w) Hknown Hlog Htouch).
  unfold Sql.join_logs. cbn [configurations sync_logs].
  rewrite flat_map_app. cbn [flat_map]. rewrite app_nil_r.
  match goal with
  | |- context [map _ (filter (fun c0 => refers_to (id c0) ?e) _)] =>
      set (entry := e)
  end.
  replace (filter (fun c0 => refers_to (id c0) entry)
                  (configurations (store w)))
    with [c].
  2:{ rewrite <- (filter_unique_id _ c Hkeys Hin).
      apply filter_ext. intros c0. unfold has_id, refers_to, entry.
      cbn [ota_configuration_id]. apply Z.eqb_sym. }
  cbn [map].
  rewrite (order_ranked_newest
             (fun r0 : SyncLog * string => sync_started_at (fst r0))).
  2:{ intros [l name] Hrow. cbn [fst entry sync_started_at].
      apply in_flat_map in Hrow as (l0 & Hl0 & Hrow).
      apply in_map_iff in Hrow as (c0 & Heq & _).
      injection Heq as <- _. now apply Holder. }
  change (PosDef.Pos.to_nat 50) with 50%nat. cbn [firstn].
  exists entry. eexists. split; [reflexivity|].
  split; [reflexivity|].
  cbn [entry message log_status ota_configuration_id].
  rewrite Hid. auto.
Qed.

Lemma latest_sync_heads_the_log_witness :
  let w := Sample.database default_collation
             [Sample.config 1 "agoda"; Sample.config 2 "airbnb"]
             [Sample.entry 1 1; Sample.entry 2 2] in
  exists entry rows,
    fst (get_sync_logs Sample.quiet no_query
           (snd (post_sync Sample.offline 2 w))) =
      Returned (json (LogsBody ((entry, "airbnb"%string) :: rows))) /\
    message entry = Some "Airbnb sync failed: connect ECONNREFUSED"%string.
Proof.
  intros w.
  assert (Hkeys : NoDup (map id (configurations (store w)))).
  { simpl. repeat constructor; simpl; [intros [H | []]; discriminate H
                                      | intros []]. }
  assert (Holder : forall l, In l (sync_logs (store w)) ->
                             sync_started_at l < now Sample.offline).
  { intros l [<- | [<- | []]]; reflexivity. }
  destruct (latest_sync_heads_the_log Sample.offline Sample.quiet 2 w
              (Sample.config 2 "airbnb") [] eq_refl eq_refl
              (fun _ _ _ => eq_refl) eq_refl Hkeys Holder eq_refl)
    as (entry & rows & Hlist & _ & Hmsg & _).
  exists entry, rows. split; [exact Hlist | exact Hmsg].
Defined.






(** X19.  POST /configurations checks that a name is given, not that an
    adapter exists for it.  The configuration it stores is active at
    once: POST /sync/:id on the new id runs the sync and reports its
    outcome under the given name; and when the lower-cased name is none
    of the four labels of the dispatch, that outcome is the failure
    "Unsupported OTA: <name>".  The names are plain ones, on which
    [sql_eq] is the equality of the collation. *)
Theorem created_configuration_is_synced
    (env env' : Env) (b : ConfigBody) (w : World) (name url : string)
    (Hname : b_ota_name b = Some name)
    (Hurl : b_endpoint_url b = Some url)
    (Hn : name <> ""%string) (Hu : url <> ""%string)
    (Hplain : plain_name name = true)
    (Hstored : forall c, In c (configurations (store w)) ->
                         plain_name (ota_name c) = true)
    (Hfree : name_is_free (store w) name)
    (Hids : ids_below_counter (store w))
    (Hsel : db_error env (SelectIdsByName name) = None)
    (Hins : db_error env (InsertConfig (Some name)) = None)
    (Hread : db_error env' (SelectActiveById (next_config_id (store w)))
             = None) :
  let k := next_config_id (store w) in
  let row := created_row (now env) (store w) b name in
  let w1 := snd (post_configurations env b w) in
  let r := task_result env' row in
  fst (post_sync env' k w1) =
    Returned (json (SyncBody
                      (if SyncResult.success r
                       then "Sync completed successfully"
                       else "Sync failed")
                      (SyncResult.success r) (SyncResult.message r)
                      name (clock_ms env'))) /\
  (partner_of (Js.toLowerCase name) = None ->
   db_error env' (SelectRooms k) = None ->
   r = failure ("Unsupported OTA: " ++ name)%string /\
   requests (journal (snd (post_sync env' k w1))) = requests (journal w)).
Proof.
  intros k row w1 r. subst w1 k.
  rewrite (post_configurations_insert env b w name url) by assumption.
  cbn [snd]. fold row.
  set (w1 := {| store := with_created (store w) row; journal := _ |}).
  assert (Hrows : Sql.select_active_by_id (store w1)
                    (next_config_id (store w)) = [row]).
  { unfold Sql.select_active_by_id, w1, with_created.
    cbn [store configurations]. rewrite filter_app.
    replace (filter _ (configurations (store w))) with (@nil Config).
    - cbn [filter app]. unfold has_id, row. cbn [id is_active created_row].
      now rewrite Z.eqb_refl.
    - symmetry. apply filter_nil_iff. intros c Hc.
      apply andb_false_iff. left. unfold has_id. apply Z.eqb_neq.
      specialize (Hids c Hc). lia. }
  rewrite (post_sync_run env' _ w1 row [] Hread Hrows).
  cbn [fst snd journal]. split; [reflexivity|].
  intros Hnone Hrooms. subst r. unfold task_result, task_events.
  cbn [id ota_name row created_row]. rewrite Hrooms, Hnone.
  split; [reflexivity|].
  unfold requests, w1. cbn [journal]. rewrite !collect_app. cbn [collect].
  now rewrite !app_nil_r.
Qed.

Lemma created_configuration_is_synced_witness :
  let w := Sample.database default_collation [Sample.config 1 "agoda"] [] in
  let w1 := snd (post_configurations Sample.quiet (Sample.body "expedia") w) in
  fst (post_sync Sample.quiet 2 w1) =
  Returned (json (SyncBody "Sync failed" false "Unsupported OTA: expedia"
                           "expedia" 1000000)).
Proof.
  intros w w1.
  refine (proj1 (created_configuration_is_synced Sample.quiet Sample.quiet
                   (Sample.body "expedia") w "expedia"
                   "https://partner.example/ari" eq_refl eq_refl _ _
                   eq_refl _ _ _ eq_refl eq_refl eq_refl)).
  - discriminate.
  - discriminate.
  - intros c [<- | []]. reflexivity.
  - intros c [<- | []]. reflexivity.
  - intros c [<- | []]. simpl. lia.
Defined.

(** ** The listing of the configurations *)

Lemma count_insert_desc {A} (key : A -> Z) (p : A -> bool) (x : A)
    (l : list A) :
  List.length (filter p (Sql.insert_desc key x l)) =
  List.length (filter p (x :: l)).
Proof.
  induction l as [|y l IH]; [reflexivity|].
  cbn [Sql.insert_desc]. destruct (key y <? key x); [reflexivity|].
  cbn [filter] in *. destruct (p y), (p x); cbn [List.length] in *; lia.
Qed.

(** ORDER BY neither adds nor drops a row: whatever the rows are tested
    for, as many pass after the sort as before. *)
Lemma count_order_by_desc {A} (key : A -> Z) (p : A -> bool) (l : list A) :
  List.length (filter p (Sql.order_by_desc key l)) =
  List.length (filter p l).
Proof.
  unfold Sql.order_by_desc. induction l as [|x l IH]; [reflexivity|].
  cbn [fold_right]. rewrite count_insert_desc. cbn [filter].
  destruct (p x); cbn [List.length]; now rewrite IH.
Qed.

Lemma descending_map {A B} (f : A -> B) (key : B -> Z) (l : list A) :
  descending (fun x => key (f x)) l -> descending key (map f l).
Proof.
  intros H i j a b Hij Ha Hb.
  rewrite nth_error_map in Ha, Hb.
  destruct (nth_error l i) as [a0|] eqn:Hi; [|discriminate].
  destruct (nth_error l j) as [b0|] eqn:Hj; [|discriminate].
  injection Ha as <-. injection Hb as <-.
  exact (H i j a0 b0 Hij Hi Hj).
Qed.

Lemma filter_all {A} (l : list A) : filter (fun _ => true) l = l.
Proof. induction l as [|x l IH]; simpl; [reflexivity | now rewrite IH]. Qed.

(** X20.  GET /configurations lists every stored configuration once,
    newest first: each row is the listing of a stored configuration and
    each stored configuration is listed; whatever the rows are tested
    for, as many rows pass as stored configurations do; the rows are in
    descending order of [created_at]; and the world is left as it is.
    When the SELECT fails the route answers 500. *)
Theorem configurations_are_listed_once
    (report_error : Report -> option string) (w : World) :
  match report_error ListConfigurations with
  | Some _ =>
      get_configurations report_error w =
      (Returned (inl internal_server_error), w)
  | None =>
      exists rows,
        get_configurations report_error w = (Returned (inr rows), w) /\
        (forall row, In row rows <->
           exists c, In c (configurations (store w)) /\ row = listing c) /\
        (forall p : ConfigListing -> bool,
           List.length (filter p rows) =
           List.length (filter p (map listing (configurations (store w))))) /\
        List.length rows = List.length (configurations (store w)) /\
        descending l_created_at rows
  end.
Proof.
  unfold get_configurations, try_catch, bind, report, ret.
  destruct (report_error ListConfigurations); [reflexivity|].
  eexists. split; [reflexivity|]. unfold select_configurations.
  assert (Hcount : forall p : ConfigListing -> bool,
            List.length
              (filter p (map listing
                           (Sql.order_by_desc created_at
                              (configurations (store w))))) =
            List.length
              (filter p (map listing (configurations (store w))))).
  { intros p. rewrite !filter_map_swap, !length_map.
    apply count_order_by_desc. }
  split; [|split; [exact Hcount | split]].
  - intros row. rewrite in_map_iff. split.
    + intros (c & <- & Hc). exists c.
      split; [now apply in_order_by_desc in Hc | reflexivity].
    + intros (c & Hc & ->). exists c.
      split; [reflexivity | now apply order_by_desc_complete].
  - specialize (Hcount (fun _ => true)). rewrite !filter_all in Hcount.
    now rewrite Hcount, length_map.
  - apply descending_map. apply order_by_desc_descending.
Qed.

(** ** The statistics *)

Lemma in_insert_by {A} (before : A -> A -> bool) (x y : A) (l : list A) :
  In y (insert_by before x l) <-> y = x \/ In y l.
Proof.
  induction l as [|z l IH]; simpl.
  - split; [intros [<- | []]; now left | intros [-> | []]; now left].
  - destruct (before x z); simpl.
    + split; [intros [<- | H]; auto | intros [-> | H]; auto].
    + rewrite IH. split.
      * intros [<- | [-> | H]]; auto.
      * intros [-> | [<- | H]]; auto.
Qed.

Lemma in_order_by {A} (before : A -> A -> bool) (y : A) (l : list A) :
  In y (order_by before l) <-> In y l.
Proof.
  unfold order_by. induction l as [|x l IH]; simpl; [reflexivity|].
  rewrite in_insert_by, IH. split; intros [H | H]; auto.
Qed.

Lemma in_joined_logs s c l :
  In (Some l) (joined_logs s c) -> In l (sync_logs s).
Proof.
  unfold joined_logs.
  destruct (filter (refers_to (id c)) (sync_logs s)) as [|e entries] eqn:Hf.
  - intros [H | []]. discriminate.
  - rewrite <- Hf. intros H. apply in_map_iff in H as (l0 & [= ->] & Hl).
    now apply filter_In in Hl.
Qed.

Lemma in_stat_group s since c row :
  In row (stat_group s since c) ->
  is_true (is_active c) = true /\
  started_since since row = true /\
  forall l, row = Some l -> In l (sync_logs s).
Proof.
  unfold stat_group. destruct (is_true (is_active c)); [|intros []].
  intros H. apply filter_In in H as [Hin Hsince].
  repeat split; auto. intros l ->. now apply in_joined_logs in Hin.
Qed.

(** The three statuses split the entries of a group. *)
Lemma statuses_split (group : list (option SyncLog)) :
  (List.length (filter (has_status LogStatus.success) group) +
   List.length (filter (has_status LogStatus.failed) group) +
   List.length (filter (has_status LogStatus.partial) group) =
   List.length (filter is_entry group))%nat.
Proof.
  induction group as [|[l|] group IH]; simpl; [reflexivity | | exact IH].
  destruct (log_status l); simpl; lia.
Qed.

(** The rows of the statistics are the rows of the configurations that
    have a group. *)
Lemma in_select_stats env date_sub name_before since s row :
  In row (select_stats env date_sub name_before since s) <->
  exists c, In c (configurations s) /\
            stat_row s (option_map (date_sub (now env)) since) c = Some row.
Proof.
  unfold select_stats. rewrite in_order_by. apply in_collect.
Qed.

Lemma get_sync_stats_run env report_error date_sub name_before period w :
  let p := match period with Some p => p | None => "week"%string end in
  get_sync_stats env report_error date_sub name_before period w =
  (match report_error (SyncStatistics (interval_of p)) with
   | Some _ => Returned (inl internal_server_error)
   | None =>
       Returned (inr (p, select_stats env date_sub name_before
                           (interval_of p) (store w)))
   end, w).
Proof.
  unfold get_sync_stats, try_catch, bind, report, ret. cbv zeta.
  destruct (report_error _); reflexivity.
Qed.

(** X21.  GET /sync-stats joins the active configurations to their log
    entries with a LEFT JOIN, but its date condition sits in the WHERE
    clause.  With the period week (the default), month or year every row
    of the answer therefore counts at least one sync and has a last sync
    time: a configuration without an entry in the period is absent.  Only
    with another period is an active configuration that has never synced
    listed, with counts 0 and no last sync time. *)
Theorem sync_stats_period_filter
    (env : Env) (report_error : Report -> option string)
    (date_sub : Z -> Interval -> Z) (name_before : string -> string -> bool)
    (period : option string) (w : World) :
  let p := match period with Some p => p | None => "week"%string end in
  forall (Hserved : report_error (SyncStatistics (interval_of p)) = None),
  exists rows,
    get_sync_stats env report_error date_sub name_before period w =
      (Returned (inr (p, rows)), w) /\
    match interval_of p with
    | Some _ =>
        forall row, In row rows ->
          1 <= st_total_syncs row /\ st_last_sync_at row <> None
    | None =>
        forall c, In c (configurations (store w)) ->
          is_true (is_active c) = true ->
          (forall l, In l (sync_logs (store w)) ->
                     refers_to (id c) l = false) ->
          In {| st_ota_name := ota_name c; st_total_syncs := 0;
                st_successful_syncs := 0; st_failed_syncs := 0;
                st_last_sync_at := None;
                st_total_records_processed := None |} rows
    end.
Proof.
  intros p Hserved. rewrite get_sync_stats_run. fold p. rewrite Hserved.
  eexists. split; [reflexivity|].
  destruct (interval_of p) as [iv|].
  - intros row Hrow. apply in_select_stats in Hrow as (c & Hc & Hrow).
    unfold stat_row in Hrow. cbn [option_map] in Hrow.
    set (since := Some (date_sub (now env) iv)) in *.
    destruct (stat_group (store w) since c) as [|first group] eqn:Hg;
      [discriminate|].
    assert (Hentries : forall x, In x (first :: group) -> is_entry x = true).
    { intros x Hx. rewrite <- Hg in Hx.
      apply in_stat_group in Hx as (_ & Hsince & _).
      destruct x; [reflexivity | discriminate]. }
    injection Hrow as <-. cbn [st_total_syncs st_last_sync_at].
    destruct first as [l|];
      [|specialize (Hentries None (or_introl eq_refl)); discriminate].
    cbn [filter is_entry collect option_map List.length sql_max].
    split; [lia | discriminate].
  - intros c Hc Hactive Hnone. apply in_select_stats.
    exists c. split; [exact Hc|].
    unfold stat_row, stat_group, joined_logs. rewrite Hactive.
    replace (filter (refers_to (id c)) (sync_logs (store w)))
      with (@nil SyncLog)
      by (symmetry; apply filter_nil_iff; exact Hnone).
    reflexivity.
Qed.

Lemma sync_stats_period_filter_witness :
  let w := Sample.database default_collation
             [Sample.config 1 "agoda"; Sample.config 2 "airbnb"]
             [Sample.entry 1 1] in
  let since := fun (t : Z) (_ : Interval) => t - 604800 in
  exists rows,
    get_sync_stats Sample.quiet (fun _ => None) since String.leb
      (Some "all"%string) w = (Returned (inr ("all"%string, rows)), w) /\
    In {| st_ota_name := "airbnb"; st_total_syncs := 0;
          st_successful_syncs := 0; st_failed_syncs := 0;
          st_last_sync_at := None;
          st_total_records_processed := None |} rows.
Proof.
  intros w since.
  destruct (sync_stats_period_filter Sample.quiet (fun _ => None) since
              String.leb (Some "all"%string) w eq_refl)
    as (rows & Hrun & Hidle).
  exists rows. split; [exact Hrun|].
  apply (Hidle (Sample.config 2 "airbnb")).
  - simpl. auto.
  - reflexivity.
  - intros l [<- | []]. reflexivity.
Defined.

(** X22.  In every row of GET /sync-stats the successful and the failed
    syncs are counted among the total: both counts are non-negative and
    their sum is at most [total_syncs]; the sum is [total_syncs] when no
    entry of the log has status partial, which is so for a log that
    [performOTASync] wrote. *)
Theorem sync_stats_counts_add_up
    (env : Env) (report_error : Report -> option string)
    (date_sub : Z -> Interval -> Z) (name_before : string -> string -> bool)
    (period : option string) (w : World)
    (p : string) (rows : list StatRow) (row : StatRow)
    (Hanswer : fst (get_sync_stats env report_error date_sub name_before
                      period w) = Returned (inr (p, rows)))
    (Hrow : In row rows) :
  0 <= st_successful_syncs row /\
  0 <= st_failed_syncs row /\
  st_successful_syncs row + st_failed_syncs row <= st_total_syncs row /\
  (no_partial_entries (store w) ->
   st_successful_syncs row + st_failed_syncs row = st_total_syncs row).
Proof.
  rewrite get_sync_stats_run in Hanswer. cbv zeta in Hanswer.
  cbn [fst] in Hanswer.
  destruct (report_error _); [discriminate|].
  injection Hanswer as _ <-.
  apply in_select_stats in Hrow as (c & Hc & Hrow).
  unfold stat_row in Hrow.
  destruct (stat_group (store w) _ c) as [|first group] eqn:Hg;
    [discriminate|].
  injection Hrow as <-.
  cbn [st_successful_syncs st_failed_syncs st_total_syncs].
  pose proof (statuses_split (first :: group)) as Hsplit.
  cbn [filter] in Hsplit.
  split; [lia|]. split; [lia|]. split; [lia|].
  intros Hnone.
  assert (Hpartial : filter (has_status LogStatus.partial) (first :: group)
                     = []).
  { apply filter_nil_iff. intros x Hx. rewrite <- Hg in Hx.
    apply in_stat_group in Hx as (_ & _ & Hlog).
    destruct x as [l|]; [|reflexivity].
    specialize (Hnone l (Hlog l eq_refl)). simpl.
    destruct (log_status l); congruence. }
  cbn [filter] in Hpartial. rewrite Hpartial in Hsplit.
  cbn [List.length] in Hsplit. lia.
Qed.

Lemma sync_stats_counts_add_up_witness :
  let w := Sample.database default_collation
             [Sample.config 1 "agoda"; Sample.config 2 "airbnb"]
             [Sample.entry 1 1; Sample.entry 2 1] in
  let since := fun (t : Z) (_ : Interval) => t - 604800 in
  let row := {| st_ota_name := "agoda"; st_total_syncs := 2;
                st_successful_syncs := 2; st_failed_syncs := 0;
                st_last_sync_at := Some 900;
                st_total_records_processed := Some 2 |} in
  st_successful_syncs row + st_failed_syncs row <= st_total_syncs row.
Proof.
  intros w since row.
  refine (proj1 (proj2 (proj2
            (sync_stats_counts_add_up Sample.quiet (fun _ => None) since
               String.leb None w "week" [row] row eq_refl _)))).
  now left.
Defined.

(** ** The XML export *)

Lemma get_export_xml_run env report_error catalogue i w :
  get_export_xml env report_error catalogue i w =
  (match db_error env (SelectById i) with
   | Some _ => Returned (inl internal_server_error)
   | None =>
       match Sql.select_by_id (store w) i with
       | [] => Returned (inl (status_json 404
                                (ErrorBody "OTA configuration not found")))
       | config :: _ =>
           match report_error RoomsWithCategories with
           | Some _ => Returned (inl internal_server_error)
           | None =>
               Returned (inr
                 {| dl_content_type := "application/xml";
                    dl_content_disposition :=
                      ("attachment; filename=" ++ double_quote ++
                       "ota_export_" ++ ota_name config ++ "_" ++
                       today_text env ++ ".xml" ++ double_quote)%string;
                    dl_document :=
                      {| xml_attributes :=
                           [("xmlns:xsi"%string,
                             "http://www.w3.org/2001/XMLSchema-instance"%string);
                            ("version"%string, "1.0"%string)];
                         xml_hotel_id := hotel_id config;
                         xml_hotel_name := "Grand Hotel";
                         xml_rooms :=
                           map xml_room (select_export catalogue) |} |})
           end
       end
   end, record (Executed (SelectById i)) w).
Proof.
  unfold get_export_xml, try_catch, bind, query, execute, report, ret.
  cbn [record store journal set_store].
  destruct (db_error env (SelectById i)); [reflexivity|].
  destruct (Sql.select_by_id (store w) i); [reflexivity|].
  cbn [store]. destruct (report_error RoomsWithCategories); reflexivity.
Qed.




(** X24.  The export uses two columns of the configuration, its hotel id
    and its name: two databases whose configuration of the requested id
    agree on these get the same answer from GET /export-xml/:id, whatever
    the credentials, the endpoint, the activity flag or the sync history
    of the configuration.  In particular inactive configurations and
    configurations without an adapter are exported like any other, and the
    download carries no credential. *)
Theorem export_depends_on_hotel_and_name
    (env : Env) (report_error : Report -> option string)
    (catalogue : Catalogue) (i : Z) (w w' : World)
    (c c' : Config) (rest rest' : list Config)
    (Hfound : Sql.select_by_id (store w) i = c :: rest)
    (Hfound' : Sql.select_by_id (store w') i = c' :: rest')
    (Hhotel : hotel_id c = hotel_id c')
    (Hname : ota_name c = ota_name c') :
  fst (get_export_xml env report_error catalogue i w) =
  fst (get_export_xml env report_error catalogue i w').
Proof.
  rewrite !get_export_xml_run, Hfound, Hfound', Hhotel, Hname.
  reflexivity.
Qed.

Lemma export_depends_on_hotel_and_name_witness :
  let catalogue :=
    {| cat_inventory := Sample.free;
       room_category_id := fun _ => None;
       cat_categories := [] |} in
  let paused :=
    {| id := 1; ota_name := "agoda"; api_key := None;
       api_username := None; api_password := Some "other"%string;
       endpoint_url := None; hotel_id := Some "H1"%string;
       is_active := Some false; last_sync_at := Some 5;
       sync_frequency := None; created_at := 1; updated_at := 5 |} in
  fst (get_export_xml Sample.quiet (fun _ => None) catalogue 1
         (Sample.database default_collation [Sample.config 1 "agoda"] [])) =
  fst (get_export_xml Sample.quiet (fun _ => None) catalogue 1
         (Sample.database default_collation [paused] [])).
Proof.
  intros catalogue paused.
  exact (export_depends_on_hotel_and_name Sample.quiet (fun _ => None)
           catalogue 1
           (Sample.database default_collation [Sample.config 1 "agoda"] [])
           (Sample.database default_collation [paused] [])
           (Sample.config 1 "agoda") paused [] []
           eq_refl eq_refl eq_refl eq_refl).
Defined.

(** ** The middleware *)

Lemma js_split_nonempty sep s : js_split sep s <> [].
Proof.
  destruct s as [|c t]; simpl; [discriminate|].
  destruct (Ascii.eqb c sep); [discriminate|].
  destruct (js_split sep t); discriminate.
Qed.

Lemma js_split_spaceless s :
  spaceless s = true -> js_split " " s = [s].
Proof.
  induction s as [|c t IH]; simpl; [reflexivity|].
  intros H. apply andb_true_iff in H as [Hc Ht].
  apply negb_true_iff in Hc. rewrite Hc, (IH Ht). reflexivity.
Qed.

(** The pieces of "<scheme> <rest>", the scheme having no space: the
    scheme, then the pieces of the rest. *)
Lemma js_split_scheme scheme rest :
  spaceless scheme = true ->
  js_split " " (scheme ++ String " " rest)%string = scheme :: js_split " " rest.
Proof.
  induction scheme as [|c t IH]; simpl.
  - reflexivity.
  - intros H. apply andb_true_iff in H as [Hc Ht].
    apply negb_true_iff in Hc. rewrite Hc, (IH Ht). reflexivity.
Qed.

Lemma token_of_scheme scheme token :
  spaceless scheme = true -> spaceless token = true ->
  token_of (Some (scheme ++ String " " token)%string) = Some token.
Proof.
  intros Hs Ht. unfold token_of.
  destruct (String.eqb_spec (scheme ++ String " " token)%string EmptyString)
    as [He|_].
  - destruct scheme; discriminate He.
  - rewrite (js_split_scheme _ _ Hs), (js_split_spaceless _ Ht).
    reflexivity.
Qed.

(** X25.  [authenticateToken] takes the second of the pieces of the
    Authorization header between single spaces as the token and never
    looks at the first: whatever word stands in the place of "Bearer",
    the empty word included, the request is treated the same.  A
    request without the header, and a request whose header is one word,
    are answered 401 "Access token required", whatever the token library
    and the users table hold. *)
Theorem authentication_ignores_scheme
    (g g' : Guard) (scheme scheme' token : string)
    (Hscheme : spaceless scheme = true)
    (Hscheme' : spaceless scheme' = true)
    (Htoken : spaceless token = true) :
  authenticateToken g (Some (scheme ++ String " " token)%string) =
    authenticateToken g (Some (scheme' ++ String " " token)%string) /\
  authenticateToken g None =
    Reply (status_json 401 (ErrorBody "Access token required")) /\
  authenticateToken g None = authenticateToken g' None /\
  authenticateToken g (Some scheme) =
    Reply (status_json 401 (ErrorBody "Access token required")) /\
  authenticateToken g' (Some scheme) = authenticateToken g (Some scheme).
Proof.
  unfold authenticateToken.
  rewrite !token_of_scheme by assumption.
  assert (Hone : Js.falsy (token_of (Some scheme)) = true).
  { unfold token_of. destruct (String.eqb_spec scheme EmptyString) as [->|_];
      [reflexivity|].
    now rewrite (js_split_spaceless _ Hscheme). }
  rewrite Hone. repeat split.
Qed.

Lemma authentication_ignores_scheme_witness :
  let g := {| jwt_verify := fun t => if String.eqb t "t0k3n"
                                     then Payload 4
                                     else JwtError "JsonWebTokenError";
              users := [{| user_id := 4; user_username := "ana";
                           user_email := "ana@hotel.example";
                           user_role := Some Role.manager;
                           user_is_active := Some true |}];
              users_error := None |} in
  authenticateToken g (Some "Bearer t0k3n"%string) =
  authenticateToken g (Some "Basic t0k3n"%string).
Proof.
  intros g.
  exact (proj1 (authentication_ignores_scheme g g "Bearer" "Basic" "t0k3n"
                  eq_refl eq_refl eq_refl)).
Defined.

Lemma select_active_user_in g userId u rest :
  select_active_user g userId = u :: rest ->
  In u (users g) /\ user_id u = userId /\ user_is_active u = Some true.
Proof.
  intros H.
  assert (Hin : In u (select_active_user g userId)) by (rewrite H; now left).
  apply filter_In in Hin as [Hin Hu].
  apply andb_true_iff in Hu as [Hid Hact].
  apply Z.eqb_eq in Hid. repeat split; auto.
  destruct (user_is_active u) as [[|]|]; try discriminate. reflexivity.
Qed.

(** X26.  A handler behind [authenticateToken] and [requireManager] runs
    only for an active user of the users table whose role is admin or
    manager and whose id the token library read from the token of the
    request, the users table having been read.  Every other request is
    answered 401 or 403 by the middleware, and the world is left as it
    is: no route of the router starts. *)
Theorem only_active_managers_pass
    (g : Guard) (authHeader : option string) (handler : M Response) :
  (exists user token,
     behind_manager_guard g authHeader handler = handler /\
     In user (users g) /\
     user_is_active user = Some true /\
     (user_role user = Some Role.admin \/
      user_role user = Some Role.manager) /\
     token_of authHeader = Some token /\
     jwt_verify g token = Payload (user_id user) /\
     users_error g = None) \/
  (exists r,
     (http_status r = 401 \/ http_status r = 403) /\
     forall w, behind_manager_guard g authHeader handler w = (Returned r, w)).
Proof.
  unfold behind_manager_guard, authenticateToken.
  destruct (token_of authHeader) as [token|] eqn:Htoken;
    [|right; eexists; (split; [|reflexivity]); simpl; auto].
  cbn [Js.falsy Js.interp].
  destruct (String.eqb token EmptyString);
    [right; eexists; (split; [|reflexivity]); simpl; auto|].
  destruct (jwt_verify g token) as [userId|name] eqn:Hverify.
  - destruct (users_error g) eqn:Herr;
      [right; eexists; (split; [|reflexivity]); simpl; auto|].
    destruct (select_active_user g userId) as [|user rest] eqn:Hsel;
      [right; eexists; (split; [|reflexivity]); simpl; auto|].
    apply select_active_user_in in Hsel as (Hin & Hid & Hact).
    unfold requireManager.
    destruct (user_role user) as [[| |]|] eqn:Hrole;
      try (right; eexists; (split; [|reflexivity]); simpl; auto; fail);
      left; exists user, token; subst userId; repeat split; auto.
  - destruct (String.eqb name "TokenExpiredError");
      right; eexists; (split; [|reflexivity]); simpl; auto.
Qed.

(** X27.  [optionalAuth] attaches a user to the request exactly when
    [authenticateToken] would let the request pass, and then the same
    user; where [authenticateToken] answers 401 or 403, [optionalAuth]
    lets the request through without a user. *)
Theorem optional_auth_agrees (g : Guard) (authHeader : option string)
    (user : User) :
  optionalAuth g authHeader = Some user <->
  authenticateToken g authHeader = Next user.
Proof.
  unfold optionalAuth, authenticateToken.
  destruct (Js.falsy (token_of authHeader)); [split; discriminate|].
  destruct (jwt_verify g _) as [userId|name].
  - destruct (users_error g); [split; discriminate|].
    destruct (select_active_user g userId) as [|u rest]; simpl.
    + split; discriminate.
    + split; intros [= ->]; reflexivity.
  - destruct (String.eqb name "TokenExpiredError"); split; discriminate.
Qed.

(** X28.  [requireAdmin] is the stricter of the two role checks: a user
    it lets pass, [requireManager] lets pass; a manager passes the second
    and not the first; a member of staff and a user without a role pass
    neither. *)
Theorem admin_check_is_stricter (user : User) :
  (requireAdmin user = Next tt -> requireManager user = Next tt) /\
  (user_role user = Some Role.manager ->
   requireManager user = Next tt /\ requireAdmin user <> Next tt) /\
  (user_role user = Some Role.staff \/ user_role user = None ->
   requireManager user <> Next tt /\ requireAdmin user <> Next tt).
Proof.
  unfold requireAdmin, requireManager.
  split; [|split].
  - destruct (user_role user) as [[| |]|]; auto; discriminate.
  - intros ->. split; [reflexivity | discriminate].
  - intros [-> | ->]; split; discriminate.
Qed.

(** X29.  An error of the database inside [authenticateToken] is caught
    by the handler meant for the errors of the token library: when the
    SELECT on the users table fails, a request with a token the library
    accepts is answered 403 "Invalid token", as a request with a forged
    token is, and not 500. *)
Theorem lookup_failure_reads_as_invalid_token
    (g : Guard) (authHeader : option string) (token : string) (userId : Z)
    (Herr : users_error g <> None)
    (Htoken : token_of authHeader = Some token)
    (Hne : token <> EmptyString)
    (Hverify : jwt_verify g token = Payload userId) :
  authenticateToken g authHeader =
    Reply (status_json 403 (ErrorBody "Invalid token")) /\
  forall g' name,
    jwt_verify g' token = JwtError name ->
    name <> "TokenExpiredError"%string ->
    authenticateToken g' authHeader = authenticateToken g authHeader.
Proof.
  assert (Hmine : authenticateToken g authHeader =
                  Reply (status_json 403 (ErrorBody "Invalid token"))).
  { unfold authenticateToken. rewrite Htoken. cbn [Js.falsy Js.interp].
    apply String.eqb_neq in Hne. rewrite Hne, Hverify.
    destruct (users_error g); [reflexivity | congruence]. }
  split; [exact Hmine|].
  intros g' name Hforged Hname. rewrite Hmine.
  unfold authenticateToken. rewrite Htoken. cbn [Js.falsy Js.interp].
  apply String.eqb_neq in Hne, Hname. now rewrite Hne, Hforged, Hname.
Qed.

Lemma lookup_failure_reads_as_invalid_token_witness :
  let g := {| jwt_verify := fun _ => Payload 4;
              users := [{| user_id := 4; user_username := "ana";
                           user_email := "ana@hotel.example";
                           user_role := Some Role.admin;
                           user_is_active := Some true |}];
              users_error := Some "Lost connection"%string |} in
  authenticateToken g (Some "Bearer t0k3n"%string) =
  Reply (status_json 403 (ErrorBody "Invalid token")).
Proof.
  intros g.
  refine (proj1 (lookup_failure_reads_as_invalid_token g
                   (Some "Bearer t0k3n"%string) "t0k3n" 4 _ eq_refl _
                   eq_refl)); discriminate.
Defined.

Lemma authenticateToken_reply g authHeader r :
  authenticateToken g authHeader = Reply r ->
  http_status r = 401 \/ http_status r = 403.
Proof.
  unfold authenticateToken.
  destruct (Js.falsy (token_of authHeader)); [intros [= <-]; now left|].
  destruct (jwt_verify g _) as [userId|name].
  - destruct (users_error g); [intros [= <-]; now right|].
    destruct (select_active_user g userId); [intros [= <-]; now left|].
    discriminate.
  - destruct (String.eqb name "TokenExpiredError"); intros [= <-]; auto.
Qed.

Lemma authenticateToken_next g authHeader u :
  authenticateToken g authHeader = Next u ->
  In u (users g) /\ user_is_active u = Some true.
Proof.
  unfold authenticateToken.
  destruct (Js.falsy (token_of authHeader)); [discriminate|].
  destruct (jwt_verify g _) as [userId|name].
  - destruct (users_error g); [discriminate|].
    destruct (select_active_user g userId) as [|user rest] eqn:Hsel;
      [discriminate|].
    intros [= <-]. apply select_active_user_in in Hsel as (Hin & _ & Hact).
    auto.
  - destruct (String.eqb name "TokenExpiredError"); discriminate.
Qed.

(** X30.  Deactivating a user by PUT /users/:id/status takes effect on
    the next request: once the route has answered "User deactivated
    successfully", [authenticateToken] lets no request pass as a user
    whose id the database found equal to the text of the path, whatever
    token the request carries and whatever the token library says of
    it; the users of other ids are as they were.  When [parseInt] reads
    in the text the id the database finds equal to it, as it does for a
    decimal numeral, the administrator who sent the request is not the
    user deactivated and is still an active administrator afterwards.
    The route makes the check of line 255 on [parseInt(id)] and hands
    the text to the UPDATE: for a text the two read differently the
    check does not protect the sender ([own_account_deactivated]
    below). *)
Theorem deactivation_revokes_access
    (g : Guard) (update_error : option string)
    (authHeader : option string) (i : Js.Param)
    (Hdone : fst (put_user_status g update_error authHeader i (Some false)) =
             json (MessageBody "User deactivated successfully")) :
  let table := snd (put_user_status g update_error authHeader i (Some false))
  in
  (forall k verify lookup_error header u,
     Js.compared i = Some k ->
     authenticateToken {| jwt_verify := verify; users := table;
                          users_error := lookup_error |} header = Next u ->
     user_id u <> k) /\
  (forall k,
     Js.compared i = Some k -> Js.parseInt i = Some k ->
     exists acting,
       authenticateToken g authHeader = Next acting /\
       In acting table /\ user_id acting <> k /\
       user_role acting = Some Role.admin /\
       user_is_active acting = Some true) /\
  (forall u, In u (users g) -> Js.compared i <> Some (user_id u) ->
             In u table).
Proof.
  intros table. subst table. revert Hdone. unfold put_user_status.
  destruct (authenticateToken g authHeader) as [acting|r] eqn:Hauth.
  2:{ cbn [fst]. intros ->. apply authenticateToken_reply in Hauth.
      simpl in Hauth. destruct Hauth; discriminate. }
  unfold requireAdmin.
  destruct (user_role acting) as [[| |]|] eqn:Hrole;
    try (cbn [fst]; discriminate).
  destruct (is_own_account i acting) eqn:Hown; [cbn [fst]; discriminate|].
  destruct update_error; [cbn [fst]; discriminate|].
  cbn [fst snd]. intros _.
  assert (Hkept : forall u, In u (users g) ->
                            Js.compared i <> Some (user_id u) ->
                            In u (set_user_status (users g) i false)).
  { intros u Hu Hne. unfold set_user_status. apply in_map_iff.
    exists u. split; [|exact Hu].
    destruct (Js.compared i) as [k|]; [|reflexivity].
    destruct (Z.eqb_spec (user_id u) k); [|reflexivity].
    subst k. contradiction. }
  pose proof Hauth as Hpassed.
  apply authenticateToken_next in Hauth as [Hin Hactive].
  split; [|split; [|exact Hkept]].
  - intros k verify lookup_error header u Hk Hnext Hid.
    apply authenticateToken_next in Hnext as [Hu Hact]. cbn [users] in Hu.
    unfold set_user_status in Hu. apply in_map_iff in Hu as (u0 & Hset & _).
    rewrite Hk in Hset.
    destruct (Z.eqb_spec (user_id u0) k) as [Hk0|Hk0].
    + subst u. simpl in Hact. discriminate.
    + subst u. contradiction.
  - intros k Hk Hparsed. exists acting.
    assert (Hother : user_id acting <> k).
    { unfold is_own_account in Hown. rewrite Hparsed in Hown.
      apply Z.eqb_neq in Hown. congruence. }
    split; [reflexivity|]. split; [|auto].
    apply Hkept; [exact Hin|]. rewrite Hk. congruence.
Qed.

Lemma deactivation_revokes_access_witness :
  let ana := {| user_id := 4; user_username := "ana";
                user_email := "ana@hotel.example";
                user_role := Some Role.admin;
                user_is_active := Some true |} in
  let ben := {| user_id := 5; user_username := "ben";
                user_email := "ben@hotel.example";
                user_role := Some Role.manager;
                user_is_active := Some true |} in
  let g := {| jwt_verify := fun t => if String.eqb t "ana-token"
                                     then Payload 4 else Payload 5;
              users := [ana; ben];
              users_error := None |} in
  let table := snd (put_user_status g None (Some "Bearer ana-token"%string)
                      (Js.Decimal 5) (Some false)) in
  authenticateToken g (Some "Bearer ben-token"%string) = Next ben /\
  forall u,
    authenticateToken {| jwt_verify := jwt_verify g; users := table;
                         users_error := None |}
                      (Some "Bearer ben-token"%string) = Next u ->
    user_id u <> 5.
Proof.
  intros ana ben g table. split; [reflexivity|].
  intros u.
  exact (proj1 (deactivation_revokes_access g None
                  (Some "Bearer ana-token"%string) (Js.Decimal 5) eq_refl)
               5 (jwt_verify g) None (Some "Bearer ben-token"%string) u
               eq_refl).
Defined.

(** The check of line 255 reads the text of the path with [parseInt],
    and the UPDATE compares the text itself with the ids.  For the text
    .1e1 the first reading is NaN and the second is 1: the
    administrator of id 1 deactivates their own account, and their next
    request is refused. *)
Lemma own_account_deactivated :
  let ana := {| user_id := 1; user_username := "ana";
                user_email := "ana@hotel.example";
                user_role := Some Role.admin;
                user_is_active := Some true |} in
  let g := {| jwt_verify := fun _ => Payload 1;
              users := [ana];
              users_error := None |} in
  let header := Some "Bearer ana-token"%string in
  let outcome :=
    put_user_status g None header (Js.Irregular None (Some 1)) (Some false)
  in
  authenticateToken g header = Next ana /\
  fst outcome = json (MessageBody "User deactivated successfully") /\
  authenticateToken {| jwt_verify := jwt_verify g; users := snd outcome;
                       users_error := None |} header =
    Reply (status_json 401 (ErrorBody "Invalid token - user not found")).
Proof. repeat split. Qed.
